(** * The assistant bot's address book (src/assistant_bot.py)

    A shallow embedding of the field validators ([Phone], [Birthday]), of
    [Record] and of [AddressBook], together with the parts of the Python
    runtime they call: [str] methods, [re.match] on the pattern that
    [datetime.strptime] compiles for ["%d.%m.%Y"], [int], the proleptic
    Gregorian [date] of the [datetime] module, insertion-ordered [dict]s,
    and [open]/[pickle] as far as [AddressBook.save]/[load] observe them. *)

From Stdlib Require Import ZArith NArith String Ascii Lia.
From stdpp Require Import base list gmap numbers.

Local Open Scope Z_scope.

(** ** Python text *)

(** A Python [str] is a sequence of Unicode code points. *)
Definition char := N.
Definition str := list char.

(** [py "..."] writes an ASCII literal as a [str]. *)
Definition py (s : string) : str := map N_of_ascii (list_ascii_of_string s).

Definition chr (s : string) : char :=
  match py s with c :: _ => c | [] => 0%N end.

Definition in_range (lo hi c : char) : bool := (lo <=? c)%N && (c <=? hi)%N.

(** Code points of general category Nd come in runs of ten consecutive
    characters whose values are 0..9; [Nd_zeros] lists the first character of
    every run (Unicode 14.0, the table of CPython 3.11's [unicodedata]). *)
Definition Nd_zeros : list char :=
  [48; 1632; 1776; 1984; 2406; 2534; 2662; 2790; 2918; 3046; 3174; 3302;
   3430; 3558; 3664; 3792; 3872; 4160; 4240; 6112; 6160; 6470; 6608; 6784;
   6800; 6992; 7088; 7232; 7248; 42528; 43216; 43264; 43472; 43504; 43600;
   44016; 65296; 66720; 68912; 69734; 69872; 69942; 70096; 70384; 70736;
   70864; 71248; 71360; 71472; 71904; 72016; 72784; 73040; 73120; 92768;
   92864; 93008; 120782; 120792; 120802; 120812; 120822; 123200; 123632;
   125264; 130032]%N.

(** Characters with Numeric_Type=Digit that are not decimal (superscripts,
    circled digits, ...), as inclusive ranges. *)
Definition other_digit_ranges : list (char * char) :=
  [(178, 179); (185, 185); (4969, 4977); (6618, 6618); (8304, 8304);
   (8308, 8313); (8320, 8329); (9312, 9320); (9332, 9340); (9352, 9360);
   (9450, 9450); (9461, 9469); (9471, 9471); (10102, 10110); (10112, 10120);
   (10122, 10130); (68160, 68163); (69216, 69224); (69714, 69722);
   (127232, 127242)]%N.

(** [unicodedata.decimal]: the value of a decimal character. *)
Fixpoint decimal_in (zeros : list char) (c : char) : option Z :=
  match zeros with
  | [] => None
  | z :: zeros' =>
      if in_range z (z + 9)%N c then Some (Z.of_N (c - z)%N) else decimal_in zeros' c
  end.

Definition decimal (c : char) : option Z := decimal_in Nd_zeros c.

(** [c.isdecimal()], which is also what [\d] matches in a [str] pattern. *)
Definition isdecimal_char (c : char) : bool :=
  match decimal c with Some _ => true | None => false end.

(** [c.isdigit()] for a single character. *)
Definition isdigit_char (c : char) : bool :=
  isdecimal_char c
  || existsb (fun r => in_range (fst r) (snd r) c) other_digit_ranges.

(** [s.isdigit()]: all characters are digits and there is at least one. *)
Definition isdigit (s : str) : bool :=
  match s with
  | [] => false
  | _ => forallb isdigit_char s
  end.

(** [s.replace(old, new)] for a one-character [old]. *)
Definition replace (old : char) (new : str) (s : str) : str :=
  flat_map (fun c => if (c =? old)%N then new else [c]) s.

(** [len(s)]. *)
Definition len (s : str) : Z := Z.of_nat (length s).

(** [s == t] on [str]. *)
Definition str_eqb (s t : str) : bool := bool_decide (s = t).

(** ** Exceptions and results *)

Inductive exn_class :=
| ValueError | OverflowError | TypeError
| OSError | FileNotFoundError
| EOFError | AttributeError | ImportError | IndexError
| PickleError | PicklingError | UnpicklingError.

(** The direct base class, below [Exception]. *)
Definition base_class (c : exn_class) : option exn_class :=
  match c with
  | FileNotFoundError => Some OSError
  | PicklingError | UnpicklingError => Some PickleError
  | _ => None
  end.

Definition exn_class_eqb (a b : exn_class) : bool :=
  match a, b with
  | ValueError, ValueError | OverflowError, OverflowError
  | TypeError, TypeError | OSError, OSError
  | FileNotFoundError, FileNotFoundError | EOFError, EOFError
  | AttributeError, AttributeError | ImportError, ImportError
  | IndexError, IndexError | PickleError, PickleError
  | PicklingError, PicklingError | UnpicklingError, UnpicklingError => true
  | _, _ => false
  end.

Definition issubclass (c d : exn_class) : bool :=
  exn_class_eqb c d
  || match base_class c with Some b => exn_class_eqb b d | None => false end.

(** An exception: its class and, when the program itself supplies it, its
    message. [None] stands for a message worded by the Python runtime. *)
Record exn := Exn { exn_cls : exn_class; exn_msg : option str }.

(** [except (c1, c2, ...)] *)
Definition caught_by (classes : list exn_class) (e : exn) : bool :=
  existsb (issubclass (exn_cls e)) classes.

Inductive result (A : Type) :=
| Ok (a : A)
| Raise (e : exn).
Arguments Ok {A} a.
Arguments Raise {A} e.

Definition bind {A B} (m : result A) (f : A -> result B) : result B :=
  match m with
  | Ok a => f a
  | Raise e => Raise e
  end.

Notation "x <- m ;; k" := (bind m (fun x => k))
  (at level 100, m at next level, right associativity).

(** ** Fields *)

(** [class Field]: a labelled value. [Name], [Phone] and [Birthday] inherit
    the single attribute [value]. *)
Record Field := mkField { value : str }.

Definition Name := Field.
Definition Phone := Field.
Definition Birthday := Field.

Module Name.
Definition init (v : str) : Name := mkField v.
End Name.

Module Phone.
Definition invalid : exn :=
  Exn ValueError
    (Some (py "Phone number must contain 10" ++ [8211%N]
           ++ py "12 digits (with optional '+' prefix).")).

Definition init (v : str) : result Phone :=
  let cleaned :=
    replace (chr " ") [] (replace (chr "-") [] (replace (chr "+") [] v)) in
  if negb (isdigit cleaned)
     || negb (bool_decide (len cleaned = 10) || bool_decide (len cleaned = 12))
  then Raise invalid
  else Ok (mkField cleaned).
End Phone.

(** ** Regular expressions

    The fragment of [re] used by the patterns of [_strptime.TimeRE]:
    literals, character ranges, [\d], concatenation, ordered alternation and
    named groups. [rmatch] is a backtracking matcher in continuation style:
    [k] receives the rest of the text and the groups captured so far, and an
    alternative is abandoned when the continuation fails after it. *)

Inductive regex :=
| Chr (c : char)
| Range (lo hi : char)
| Digit
| Cat (r1 r2 : regex)
| Alt (r1 r2 : regex)
| Group (name : str) (r : regex).

(** [Match.groupdict()]: group name and captured text, latest first. *)
Definition groupdict := list (str * str).

Definition one_char {A} (p : char -> bool) (s : str) (k : str -> option A)
  : option A :=
  match s with
  | c :: s' => if p c then k s' else None
  | [] => None
  end.

Fixpoint rmatch {A} (r : regex) (s : str) (g : groupdict)
    (k : str -> groupdict -> option A) : option A :=
  match r with
  | Chr c => one_char (fun x => (x =? c)%N) s (fun s' => k s' g)
  | Range lo hi => one_char (in_range lo hi) s (fun s' => k s' g)
  | Digit => one_char isdecimal_char s (fun s' => k s' g)
  | Cat r1 r2 => rmatch r1 s g (fun s1 g1 => rmatch r2 s1 g1 k)
  | Alt r1 r2 =>
      match rmatch r1 s g k with
      | Some a => Some a
      | None => rmatch r2 s g k
      end
  | Group name r1 =>
      rmatch r1 s g
        (fun s' g' => k s' ((name, take (length s - length s') s) :: g'))
  end.

(** [pattern.match(s)]: [None], or the end position and the groups of the
    first match found at the start of [s]. *)
Definition re_match (r : regex) (s : str) : option (Z * groupdict) :=
  rmatch r s [] (fun s' g => Some (len s - len s', g)).

(** [found_dict[key]] for a group that took part in the match. *)
Fixpoint group (g : groupdict) (key : str) : str :=
  match g with
  | [] => []
  | (n, text) :: g' => if str_eqb n key then text else group g' key
  end.

(** ** [int(text)]

    For the texts the groups below capture: spaces (U+0020) around a run of
    decimal characters. Signs, underscores and other white space cannot
    occur in a captured group and are rejected here. *)

Fixpoint lstrip (s : str) : str :=
  match s with
  | c :: s' => if (c =? 32)%N then lstrip s' else s
  | [] => []
  end.

Definition strip (s : str) : str := rev (lstrip (rev (lstrip s))).

Fixpoint digits_value (acc : Z) (s : str) : option Z :=
  match s with
  | [] => Some acc
  | c :: s' =>
      match decimal c with
      | Some d => digits_value (10 * acc + d) s'
      | None => None
      end
  end.

Definition int (s : str) : result Z :=
  match strip s with
  | [] => Raise (Exn ValueError None)
  | t =>
      match digits_value 0 t with
      | Some n => Ok n
      | None => Raise (Exn ValueError None)
      end
  end.

(** ** The [datetime] module: proleptic Gregorian dates *)

Definition MINYEAR : Z := 1.
Definition MAXYEAR : Z := 9999.
Definition _MAXORDINAL : Z := 3652059.

(** [table[i]] for an index inside the table. *)
Definition index (table : list Z) (i : Z) : Z := nth (Z.to_nat i) table (-1).

Definition _DAYS_IN_MONTH : list Z :=
  [-1; 31; 28; 31; 30; 31; 30; 31; 31; 30; 31; 30; 31].

Definition _DAYS_BEFORE_MONTH : list Z :=
  [-1; 0; 31; 59; 90; 120; 151; 181; 212; 243; 273; 304; 334].

Definition _is_leap (year : Z) : bool :=
  (year mod 4 =? 0) && (negb (year mod 100 =? 0) || (year mod 400 =? 0)).

Definition _days_before_year (year : Z) : Z :=
  let y := year - 1 in
  y * 365 + y / 4 - y / 100 + y / 400.

Definition _days_in_month (year month : Z) : Z :=
  if (month =? 2) && _is_leap year then 29 else index _DAYS_IN_MONTH month.

Definition _days_before_month (year month : Z) : Z :=
  index _DAYS_BEFORE_MONTH month
  + (if (2 <? month) && _is_leap year then 1 else 0).

Definition _ymd2ord (year month day : Z) : Z :=
  _days_before_year year + _days_before_month year month + day.

Definition _DI400Y : Z := 146097.
Definition _DI100Y : Z := 36524.
Definition _DI4Y : Z := 1461.

Definition _ord2ymd (n : Z) : Z * Z * Z :=
  let n := n - 1 in
  let n400 := n / _DI400Y in
  let n := n mod _DI400Y in
  let year := n400 * 400 + 1 in
  let n100 := n / _DI100Y in
  let n := n mod _DI100Y in
  let n4 := n / _DI4Y in
  let n := n mod _DI4Y in
  let n1 := n / 365 in
  let n := n mod 365 in
  let year := year + (n100 * 100 + n4 * 4 + n1) in
  if (n1 =? 4) || (n100 =? 4) then (year - 1, 12, 31)
  else
    let leapyear := (n1 =? 3) && (negb (n4 =? 24) || (n100 =? 3)) in
    let month := Z.shiftr (n + 50) 5 in
    let preceding :=
      index _DAYS_BEFORE_MONTH month
      + (if (2 <? month) && leapyear then 1 else 0) in
    if n <? preceding then
      let month := month - 1 in
      let preceding :=
        preceding
        - (index _DAYS_IN_MONTH month
           + (if (month =? 2) && leapyear then 1 else 0)) in
      (year, month, n - preceding + 1)
    else (year, month, n - preceding + 1).

Module date.

Record t := mk { year : Z; month : Z; day : Z }.

(** [_check_date_fields], which every constructor call goes through. *)
Definition _check_date_fields (y m d : Z) : result (Z * Z * Z) :=
  if negb ((MINYEAR <=? y) && (y <=? MAXYEAR)) then Raise (Exn ValueError None)
  else if negb ((1 <=? m) && (m <=? 12)) then Raise (Exn ValueError None)
  else
    let dim := _days_in_month y m in
    if negb ((1 <=? d) && (d <=? dim)) then Raise (Exn ValueError None)
    else Ok (y, m, d).

(** [date(year, month, day)] *)
Definition new (y m d : Z) : result t :=
  ymd <- _check_date_fields y m d ;;
  let '(y, m, d) := ymd in Ok (mk y m d).

(** [self.replace(year=y)] *)
Definition replace_year (self : t) (y : Z) : result t :=
  new y (month self) (day self).

Definition toordinal (self : t) : Z :=
  _ymd2ord (year self) (month self) (day self).

Definition fromordinal (n : Z) : t :=
  let '(y, m, d) := _ord2ymd n in mk y m d.

(** [self < other]: comparison of the (year, month, day) triples. *)
Definition lt (self other : t) : bool :=
  (year self <? year other)
  || ((year self =? year other)
      && ((month self <? month other)
          || ((month self =? month other) && (day self <? day other)))).

(** [(self - other).days] *)
Definition sub_days (self other : t) : Z := toordinal self - toordinal other.

(** [self + timedelta(days=n)] *)
Definition add_days (self : t) (n : Z) : result t :=
  let o := toordinal self + n in
  if (0 <? o) && (o <=? _MAXORDINAL) then Ok (fromordinal o)
  else Raise (Exn OverflowError None).

Definition weekday (self : t) : Z := (toordinal self + 6) mod 7.

End date.

(** [str(n)] for [0 <= n]. *)
Definition digit_char (d : Z) : char := (48 + Z.to_N d)%N.

Fixpoint decimal_digits (fuel : nat) (n : Z) (acc : str) : str :=
  match fuel with
  | O => acc
  | S fuel' =>
      let acc' := digit_char (n mod 10) :: acc in
      if n <? 10 then acc' else decimal_digits fuel' (n / 10) acc'
  end.

Definition str_of_int (n : Z) : str :=
  decimal_digits (S (Z.to_nat (Z.log2 n))) n [].

(** ["%02d" % n] for [0 <= n < 100]. *)
Definition zfill2 (n : Z) : str := [digit_char (n / 10); digit_char (n mod 10)].

(** [self.strftime("%d.%m.%Y")]: day and month are padded to two digits; the
    year is the plain decimal number, as the C library prints [%Y]. *)
Definition strftime (self : date.t) : str :=
  zfill2 (date.day self) ++ py "." ++ zfill2 (date.month self) ++ py "."
  ++ str_of_int (date.year self).

(** The pattern [_strptime] compiles for the format ["%d.%m.%Y"]:
    [(?P<d>3[0-1]|[1-2]\d|0[1-9]|[1-9]| [1-9])\.(?P<m>1[0-2]|0[1-9]|[1-9])\.(?P<Y>\d\d\d\d)].
    The [IGNORECASE] flag it is compiled with changes nothing: no character
    of the pattern has a case variant. *)
Definition directive_d : regex :=
  Group (py "d")
    (Alt (Cat (Chr (chr "3")) (Range (chr "0") (chr "1")))
    (Alt (Cat (Range (chr "1") (chr "2")) Digit)
    (Alt (Cat (Chr (chr "0")) (Range (chr "1") (chr "9")))
    (Alt (Range (chr "1") (chr "9"))
         (Cat (Chr (chr " ")) (Range (chr "1") (chr "9"))))))).

Definition directive_m : regex :=
  Group (py "m")
    (Alt (Cat (Chr (chr "1")) (Range (chr "0") (chr "2")))
    (Alt (Cat (Chr (chr "0")) (Range (chr "1") (chr "9")))
         (Range (chr "1") (chr "9")))).

Definition directive_Y : regex :=
  Group (py "Y") (Cat Digit (Cat Digit (Cat Digit Digit))).

Definition format_regex : regex :=
  Cat directive_d
    (Cat (Chr (chr ".")) (Cat directive_m (Cat (Chr (chr ".")) directive_Y))).

(** [_strptime(data_string, "%d.%m.%Y")], as far as year, month and day. *)
Definition _strptime (data_string : str) : result (Z * Z * Z) :=
  match re_match format_regex data_string with
  | None => Raise (Exn ValueError None)
  | Some (end_, found_dict) =>
      if negb (len data_string =? end_) then Raise (Exn ValueError None)
      else
        d <- int (group found_dict (py "d")) ;;
        m <- int (group found_dict (py "m")) ;;
        y <- int (group found_dict (py "Y")) ;;
        _ <- date.new y m d ;;
        Ok (y, m, d)
  end.

(** [datetime.strptime(s, "%d.%m.%Y").date()]; the time of day of the
    [datetime] is always midnight. *)
Definition strptime (s : str) : result date.t :=
  ymd <- _strptime s ;;
  let '(y, m, d) := ymd in date.new y m d.

Module Birthday.

Definition invalid : exn :=
  Exn ValueError (Some (py "Invalid date format. Use DD.MM.YYYY")).

Definition init (v : str) : result Birthday :=
  match strptime v with
  | Ok _ => Ok (mkField v)
  | Raise e => if caught_by [ValueError] e then Raise invalid else Raise e
  end.

End Birthday.

(** ** [dict]: keys are unique and keep their insertion order *)

Module dict.

Definition t (V : Type) := list (str * V).

Definition empty {V} : t V := [].

(** [d.get(k)] *)
Fixpoint get {V} (d : t V) (k : str) : option V :=
  match d with
  | [] => None
  | (k', v) :: d' => if str_eqb k' k then Some v else get d' k
  end.

(** [d[k] = v]: an existing key keeps its place, a new one goes last. *)
Fixpoint setitem {V} (d : t V) (k : str) (v : V) : t V :=
  match d with
  | [] => [(k, v)]
  | (k', v') :: d' =>
      if str_eqb k' k then (k', v) :: d' else (k', v') :: setitem d' k v
  end.

(** [d.pop(k, None)], for its effect on [d]. *)
Fixpoint pop {V} (d : t V) (k : str) : t V :=
  match d with
  | [] => []
  | (k', v') :: d' => if str_eqb k' k then d' else (k', v') :: pop d' k
  end.

Definition keys {V} (d : t V) : list str := map fst d.
Definition values {V} (d : t V) : list V := map snd d.
Definition items {V} (d : t V) : list (str * V) := d.

End dict.

(** ** [class Record] *)

Module Record.

Record t := mk {
  name : Name;
  phones : list Phone;
  email : str;
  birthday : option Birthday
}.

Definition with_phones (self : t) (ps : list Phone) : t :=
  mk (name self) ps (email self) (birthday self).

Definition with_birthday (self : t) (b : option Birthday) : t :=
  mk (name self) (phones self) (email self) b.

(** A method call returns or raises, and leaves the object in some state. *)
Definition method (A : Type) : Type := t -> result A * t.

Definition add_phone (phone : str) : method unit := fun self =>
  match Phone.init phone with
  | Ok p => (Ok tt, with_phones self (phones self ++ [p]))
  | Raise e => (Raise e, self)
  end.

Definition remove_phone (phone : str) : method unit := fun self =>
  (Ok tt,
   with_phones self
     (List.filter (fun p => negb (str_eqb (value p) phone)) (phones self))).

Definition old_not_found : exn :=
  Exn ValueError (Some (py "Old phone number not found.")).

(** The [for p in self.phones] loop of [edit_phone], on the phones not yet
    visited; the second component is what has become of them. *)
Fixpoint edit_phone_loop (old_phone new_phone : str) (ps : list Phone)
  : result str * list Phone :=
  match ps with
  | [] => (Raise old_not_found, [])
  | p :: rest =>
      if str_eqb (value p) old_phone then
        match Phone.init new_phone with
        | Ok q => (Ok (py "Phone updated."), mkField (value q) :: rest)
        | Raise e => (Raise e, p :: rest)
        end
      else
        let '(r, rest') := edit_phone_loop old_phone new_phone rest in
        (r, p :: rest')
  end.

Definition edit_phone (old_phone new_phone : str) : method str := fun self =>
  let '(r, ps) := edit_phone_loop old_phone new_phone (phones self) in
  (r, with_phones self ps).

(** [next((p for p in self.phones if p.value == phone), None)] *)
Fixpoint find_phone_in (phone : str) (ps : list Phone) : option Phone :=
  match ps with
  | [] => None
  | p :: rest => if str_eqb (value p) phone then Some p else find_phone_in phone rest
  end.

Definition find_phone (phone : str) (self : t) : option Phone :=
  find_phone_in phone (phones self).

Definition add_birthday (b : str) : method unit := fun self =>
  match Birthday.init b with
  | Ok bd => (Ok tt, with_birthday self (Some bd))
  | Raise e => (Raise e, self)
  end.

(** [Record(name, phone, email)]; [phone] defaults to [None], [email] to the
    empty string, and an empty [phone] is falsy. *)
Definition init (name_ : str) (phone : option str) (email_ : str) : result t :=
  let self := mk (Name.init name_) [] email_ None in
  match phone with
  | Some (c :: s) =>
      match add_phone (c :: s) self with
      | (Ok _, self') => Ok self'
      | (Raise e, _) => Raise e
      end
  | _ => Ok self
  end.

End Record.

(** ** [class AddressBook] *)

Definition bytes := list Byte.byte.

(** The files that [open] sees: path to contents. *)
Definition filesystem := gmap str bytes.

Module AddressBook.

Record t := mk { data : dict.t Record.t }.

Definition FILENAME : str := py "addressbook.pkl".

Definition init : t := mk dict.empty.

Definition add_record (record : Record.t) (self : t) : t :=
  mk (dict.setitem (data self) (value (Record.name record)) record).

Definition find (name : str) (self : t) : option Record.t :=
  dict.get (data self) name.

Definition delete (name : str) (self : t) : t :=
  mk (dict.pop (data self) name).

(** The body of the loop of [get_upcoming_birthdays] for one record:
    [upcoming] afterwards, or the exception that leaves the loop. *)
Definition upcoming_step (today : date.t) (rec : Record.t)
    (upcoming : list (dict.t str)) : result (list (dict.t str)) :=
  match Record.birthday rec with
  | None => Ok upcoming
  | Some b =>
      bday_date <- strptime (value b) ;;
      bday_this_year <- date.replace_year bday_date (date.year today) ;;
      bday_this_year <-
        (if date.lt bday_this_year today
         then date.replace_year bday_this_year (date.year today + 1)
         else Ok bday_this_year) ;;
      let days := date.sub_days bday_this_year today in
      if (0 <=? days) && (days <=? 7) then
        bday_this_year <-
          (if 5 <=? date.weekday bday_this_year
           then date.add_days bday_this_year (7 - date.weekday bday_this_year)
           else Ok bday_this_year) ;;
        Ok (upcoming
            ++ [dict.setitem
                  (dict.setitem dict.empty (py "name") (value (Record.name rec)))
                  (py "birthday") (strftime bday_this_year)])
      else Ok upcoming
  end.

Fixpoint upcoming_loop (today : date.t) (recs : list Record.t)
    (upcoming : list (dict.t str)) : result (list (dict.t str)) :=
  match recs with
  | [] => Ok upcoming
  | rec :: recs' =>
      upcoming' <- upcoming_step today rec upcoming ;;
      upcoming_loop today recs' upcoming'
  end.

(** [get_upcoming_birthdays], with the date that [datetime.today().date()]
    returns as an argument. *)
Definition get_upcoming_birthdays (today : date.t) (self : t)
  : result (list (dict.t str)) :=
  upcoming_loop today (dict.values (data self)) [].

(** [filename or self.FILENAME] *)
Definition filename_or_default (filename : option str) : str :=
  match filename with
  | Some (c :: s) => c :: s
  | _ => FILENAME
  end.

Section Persistence.

(** [pickle.dumps] on the mapping, and the unpickler on non-empty input:
    the pickle format itself is not part of this program. *)
Variable pickle_dumps : dict.t Record.t -> bytes.
Variable unpickle : bytes -> result (dict.t Record.t).

(** [pickle.load(fh)]: the first read of the unpickler's loop raises
    [EOFError] when there is nothing to read. *)
Definition pickle_load (contents : bytes) : result (dict.t Record.t) :=
  match contents with
  | [] => Raise (Exn EOFError None)
  | _ => unpickle contents
  end.

(** [open(filename, "rb")] followed by reading the whole file, on a path
    that is either missing or a file that can be read. *)
Definition open_rb (fs : filesystem) (filename : str) : result bytes :=
  match fs !! filename with
  | Some contents => Ok contents
  | None => Raise (Exn FileNotFoundError None)
  end.

(** [save], on a path that can be opened for writing; the files are known
    by the text of their path. *)
Definition save (filename : option str) (self : t) (fs : filesystem)
  : filesystem :=
  <[filename_or_default filename := pickle_dumps (data self)]> fs.

Definition load (filename : option str) (self : t) (fs : filesystem)
  : result unit * t :=
  match (contents <- open_rb fs (filename_or_default filename) ;;
         pickle_load contents) with
  | Ok d => (Ok tt, mk d)
  | Raise e =>
      if caught_by [FileNotFoundError; PickleError] e then (Ok tt, mk dict.empty)
      else (Raise e, self)
  end.

End Persistence.

End AddressBook.

(** ** More of [str]: white space, [strip], [split], [join] *)

(** [c.isspace()]: the characters that [strip()] and [split()] take for
    white space. *)
Definition isspace_char (c : char) : bool :=
  in_range 9%N 13%N c || in_range 28%N 32%N c || (c =? 133)%N || (c =? 160)%N
  || (c =? 5760)%N || in_range 8192%N 8202%N c || (c =? 8232)%N || (c =? 8233)%N
  || (c =? 8239)%N || (c =? 8287)%N || (c =? 12288)%N.

Module Str.

Fixpoint lstrip (s : str) : str :=
  match s with
  | c :: s' => if isspace_char c then lstrip s' else s
  | [] => []
  end.

Definition rstrip (s : str) : str := rev (lstrip (rev s)).

(** [s.strip()] *)
Definition strip (s : str) : str := rstrip (lstrip s).

(** [s.split()]: the maximal runs of characters that are not white space.
    [word] holds the characters of the run being read, latest first. *)
Fixpoint split_from (s : str) (word : str) : list str :=
  match s with
  | [] => match word with [] => [] | _ => [rev word] end
  | c :: s' =>
      if isspace_char c then
        match word with
        | [] => split_from s' []
        | _ => rev word :: split_from s' []
        end
      else split_from s' (c :: word)
  end.

Definition split (s : str) : list str := split_from s [].

(** [sep.join(parts)] *)
Fixpoint join (sep : str) (parts : list str) : str :=
  match parts with
  | [] => []
  | [x] => x
  | x :: parts' => x ++ sep ++ join sep parts'
  end.

End Str.

(** ** [csv.writer] with the default dialect

    Fields are separated by a comma and a row ends with CR LF; a field that
    holds a comma, a double quote, CR or LF is written between double
    quotes, with every double quote of the field written twice; a row made
    of one empty field is written as two double quotes. *)

Module csv.

Definition quotechar : char := 34%N.

Definition special (c : char) : bool :=
  (c =? chr ",")%N || (c =? quotechar)%N || (c =? 13)%N || (c =? 10)%N.

Definition field (s : str) : str :=
  if existsb special s
  then quotechar
       :: flat_map (fun c => if (c =? quotechar)%N then [quotechar; quotechar] else [c]) s
       ++ [quotechar]
  else s.

(** [writer.writerow(fields)]: the text written. *)
Definition writerow (fields : list str) : str :=
  match fields with
  | [[]] => [quotechar; quotechar; 13; 10]%N
  | _ => Str.join (py ",") (map field fields) ++ [13; 10]%N
  end.

End csv.

(** ** [AddressBook.__iter__] and [export_to_csv] *)

Module Book.

(** [list(book)]: the records in the order of the mapping. *)
Definition iter (self : AddressBook.t) : list Record.t :=
  dict.values (AddressBook.data self).

Definition header : list str :=
  [py "Name"; py "Phones"; py "Email"; py "Birthday"].

Definition row (rec : Record.t) : list str :=
  [value (Record.name rec);
   Str.join (py "; ") (map value (Record.phones rec));
   Record.email rec;
   match Record.birthday rec with Some b => value b | None => [] end].

(** The files opened in text mode, as the text written to them. *)
Definition textfiles := gmap str str.

(** How the writes to a text file end: all of them go through, or one of
    them raises [UnicodeEncodeError]. *)
Inductive write_outcome := written | unencodable.

Section Writing.

(** The characters that the encoding of the text file can represent; with
    UTF-8 these are all but the surrogates. *)
Variable encodable : char -> bool.

(** [fh.write(line)] for each line in turn, [text] being what the file holds
    so far. A line with a character that cannot be encoded raises
    [UnicodeEncodeError]: nothing of that line is written, no later line is,
    and the lines before it stay in the file. *)
Fixpoint write_rows (rows : list str) (text : str) : write_outcome * str :=
  match rows with
  | [] => (written, text)
  | line :: rows' =>
      if forallb encodable line then write_rows rows' (text ++ line)
      else (unencodable, text)
  end.

(** The lines that the [with] block of [export_to_csv] writes: the header,
    then a line per record. *)
Definition csv_rows (self : AddressBook.t) : list str :=
  csv.writerow header :: map (fun rec => csv.writerow (row rec)) (iter self).

(** The [with] block of [export_to_csv] on the file just opened, which is
    empty: how it ends and the text that it leaves in the file. *)
Definition export_body (self : AddressBook.t) : write_outcome * str :=
  write_rows (csv_rows self) [].

(** [export_to_csv], on a path that [open] can open for writing. *)
Definition export_to_csv (filename : str) (self : AddressBook.t)
    (texts : textfiles) : write_outcome * textfiles :=
  let '(o, text) := export_body self in
  (o, <[filename := text]> texts).

End Writing.

End Book.

(** ** [load], whatever [open] answers *)

Section LoadOpened.

Variable unpickle : bytes -> result (dict.t Record.t).

(** [AddressBook.load] from what [open(filename, "rb")] gives: the contents
    of the file, or the exception that [open] raises, which is
    [FileNotFoundError] for a missing file and another [OSError] for a
    directory or for a file that may not be read. *)
Definition load_opened (opened : result bytes) (self : AddressBook.t)
  : result unit * AddressBook.t :=
  match (contents <- opened ;; AddressBook.pickle_load unpickle contents) with
  | Ok d => (Ok tt, AddressBook.mk d)
  | Raise e =>
      if caught_by [FileNotFoundError; PickleError] e
      then (Ok tt, AddressBook.mk dict.empty)
      else (Raise e, self)
  end.

End LoadOpened.

(** ** [class AddressBookController] *)

(** The calls that the [UserView] of a controller receives. The view is
    taken to return from every call. *)
Inductive view_call :=
| prompt (message : str)
| show_message (message : str)
| display_contacts (records : list Record.t)
| display_help.

Module Controller.

(** What a command can raise: the exceptions met so far, and [KeyError]. *)
Inductive raised :=
| Std (e : exn)
| KeyError (key : str).

Inductive outcome (A : Type) :=
| Return (a : A)
| Raises (x : raised).
Arguments Return {A} a.
Arguments Raises {A} x.

(** The controller with what it acts on: its book, the calls its view has
    received (latest last), its [running] flag, and the files. *)
Record t := mk {
  book : AddressBook.t;
  view : list view_call;
  running : bool;
  files : filesystem;
  texts : Book.textfiles
}.

Definition with_book (self : t) (b : AddressBook.t) : t :=
  mk b (view self) (running self) (files self) (texts self).

(** [self.view.<call>] *)
Definition call (c : view_call) (self : t) : t :=
  mk (book self) (view self ++ [c]) (running self) (files self) (texts self).

(** The record found under [name], an object of the book, in a new state. *)
Definition update (name : str) (record : Record.t) (self : t) : t :=
  with_book self
    (AddressBook.mk (dict.setitem (AddressBook.data (book self)) name record)).

Definition action (A : Type) : Type := t -> outcome A * t.

(** A handler gets the date of the day it is called on and its arguments;
    it returns [None] or a text. *)
Definition handler : Type := date.t -> list str -> action (option str).

Definition ValueError_ (message : str) : raised :=
  Std (Exn ValueError (Some message)).

(** [UnicodeEncodeError] is a [ValueError]: every [except] clause of the
    program treats it as one, and this model knows it by that class, with a
    message worded by the codec. *)
Definition UnicodeEncodeError : raised := Std (Exn ValueError None).

(** [e[key]] on an entry of [get_upcoming_birthdays]. *)
Definition getitem (e : dict.t str) (key : str) : outcome str :=
  match dict.get e key with
  | Some v => Return v
  | None => Raises (KeyError key)
  end.

(** [[f"{e['name']}: {e['birthday']}" for e in upcoming]] *)
Fixpoint birthday_lines (upcoming : list (dict.t str)) : outcome (list str) :=
  match upcoming with
  | [] => Return []
  | e :: upcoming' =>
      match getitem e (py "name") with
      | Raises x => Raises x
      | Return n =>
          match getitem e (py "birthday") with
          | Raises x => Raises x
          | Return b =>
              match birthday_lines upcoming' with
              | Raises x => Raises x
              | Return lines => Return ((n ++ py ": " ++ b) :: lines)
              end
          end
      end
  end.

Section Commands.

(** [str(e)] for an exception that the runtime has worded, the letter case
    table behind [str.lower], [pickle.dumps], and the characters that the
    encoding of text files can represent. *)
Variable runtime_str : exn -> str.
Variable lower : str -> str.
Variable pickle_dumps : dict.t Record.t -> bytes.
Variable encodable : char -> bool.

Definition str_of_exn (e : exn) : str :=
  match exn_msg e with
  | Some message => message
  | None => runtime_str e
  end.

(** The decorator [input_error]. *)
Definition input_error (func : list str -> action (option str)) : handler :=
  fun _ args self =>
    match func args self with
    | (Return v, self') => (Return v, self')
    | (Raises (Std e), self') =>
        if issubclass (exn_cls e) ValueError then
          (Return (Some (str_of_exn e)), self')
        else if issubclass (exn_cls e) IndexError then
          (Return (Some (py "Please provide all necessary arguments.")), self')
        else
          (Return (Some (py "An unexpected error occurred: " ++ str_of_exn e)),
           self')
    | (Raises (KeyError _), self') =>
        (Return (Some (py "Contact not found.")), self')
    end.

Definition cmd_hello : handler := fun _ _ self =>
  (Return None, call (show_message (py "How can I help you?")) self).

Definition add_body (args : list str) : action (option str) := fun self =>
  match args with
  | name :: phone :: rest =>
      let email := match rest with e :: _ => e | [] => [] end in
      match AddressBook.find name (book self) with
      | None =>
          match Record.init name (Some phone) email with
          | Raise e => (Raises (Std e), self)
          | Ok record =>
              (Return None,
               call (show_message (py "Contact added."))
                 (with_book self (AddressBook.add_record record (book self))))
          end
      | Some record =>
          match Record.add_phone phone record with
          | (Raise e, record') => (Raises (Std e), update name record' self)
          | (Ok _, record') =>
              let record'' :=
                match email with
                | [] => record'
                | _ => Record.mk (Record.name record') (Record.phones record')
                         email (Record.birthday record')
                end in
              (Return None,
               call (show_message (py "Contact updated."))
                 (update name record'' self))
          end
      end
  | _ => (Raises (ValueError_ (py "Usage: add <name> <phone> [email]")), self)
  end.

Definition cmd_add : handler := input_error add_body.

Definition change_body (args : list str) : action (option str) := fun self =>
  match args with
  | [name; old_phone; new_phone] =>
      match AddressBook.find name (book self) with
      | Some rec =>
          match Record.edit_phone old_phone new_phone rec with
          | (Raise e, rec') => (Raises (Std e), update name rec' self)
          | (Ok msg, rec') =>
              (Return None, call (show_message msg) (update name rec' self))
          end
      | None =>
          (Raises (ValueError_ (py "Contact " ++ name ++ py " not found.")), self)
      end
  | _ =>
      (Raises (ValueError_ (py "Usage: change <name> <old_phone> <new_phone>")),
       self)
  end.

Definition cmd_change : handler := input_error change_body.

Definition phone_body (args : list str) : action (option str) := fun self =>
  match args with
  | [name] =>
      match AddressBook.find name (book self) with
      | Some (Record.mk _ (p :: ps) _ _) =>
          (Return None,
           call (show_message
                   (name ++ py ": " ++ Str.join (py ", ") (map value (p :: ps))))
             self)
      | _ => (Raises (ValueError_ (py "No phone found for " ++ name ++ py ".")), self)
      end
  | _ => (Raises (ValueError_ (py "Usage: phone <name>")), self)
  end.

Definition cmd_phone : handler := input_error phone_body.

Definition cmd_all : handler := fun _ _ self =>
  (Return None, call (display_contacts (Book.iter (book self))) self).

Definition add_birthday_body (args : list str) : action (option str) :=
  fun self =>
  match args with
  | [name; bday] =>
      match AddressBook.find name (book self) with
      | Some rec =>
          match Record.add_birthday bday rec with
          | (Raise e, rec') => (Raises (Std e), update name rec' self)
          | (Ok _, rec') =>
              (Return None,
               call (show_message (py "Birthday added.")) (update name rec' self))
          end
      | None =>
          (Raises (ValueError_ (py "Contact " ++ name ++ py " not found.")), self)
      end
  | _ => (Raises (ValueError_ (py "Usage: add-birthday <name> <DD.MM.YYYY>")), self)
  end.

Definition cmd_add_birthday : handler := input_error add_birthday_body.

Definition show_birthday_body (args : list str) : action (option str) :=
  fun self =>
  match args with
  | [name] =>
      match AddressBook.find name (book self) with
      | Some (Record.mk _ _ _ (Some b)) =>
          (Return None,
           call (show_message (name ++ py "'s birthday is " ++ value b)) self)
      | _ =>
          (Raises (ValueError_ (py "No birthday found for " ++ name ++ py ".")),
           self)
      end
  | _ => (Raises (ValueError_ (py "Usage: show-birthday <name>")), self)
  end.

Definition cmd_show_birthday : handler := input_error show_birthday_body.

Definition cmd_birthdays : handler := fun today _ self =>
  match AddressBook.get_upcoming_birthdays today (book self) with
  | Raise e => (Raises (Std e), self)
  | Ok [] =>
      (Return None,
       call (show_message (py "No upcoming birthdays in the next week.")) self)
  | Ok upcoming =>
      match birthday_lines upcoming with
      | Raises x => (Raises x, self)
      | Return lines =>
          (Return None, call (show_message (Str.join [10%N] lines)) self)
      end
  end.

Definition cmd_export : handler := fun _ _ self =>
  match Book.export_to_csv encodable (py "contacts.csv") (book self)
          (texts self) with
  | (Book.written, texts') =>
      (Return None,
       call (show_message (py "Contacts exported to contacts.csv"))
         (mk (book self) (view self) (running self) (files self) texts'))
  | (Book.unencodable, texts') =>
      (Raises UnicodeEncodeError,
       mk (book self) (view self) (running self) (files self) texts')
  end.

Definition cmd_help : handler := fun _ _ self =>
  (Return None, call display_help self).

Definition cmd_exit : handler := fun _ _ self =>
  let saved :=
    mk (book self) (view self) (running self)
      (AddressBook.save pickle_dumps None (book self) (files self))
      (texts self) in
  let shown := call (show_message (py "Data saved. Bye!")) saved in
  (Return None,
   mk (book shown) (view shown) false (files shown) (texts shown)).

(** [self.commands] *)
Definition commands : dict.t handler :=
  [(py "hello", cmd_hello); (py "add", cmd_add); (py "change", cmd_change);
   (py "phone", cmd_phone); (py "all", cmd_all);
   (py "add-birthday", cmd_add_birthday);
   (py "show-birthday", cmd_show_birthday); (py "birthdays", cmd_birthdays);
   (py "export", cmd_export); (py "help", cmd_help); (py "exit", cmd_exit);
   (py "close", cmd_exit)].

Definition parse_input (raw : str) : str * list str :=
  match Str.split (Str.strip raw) with
  | [] => ([], [])
  | part :: parts => (lower part, parts)
  end.

(** The [while self.running] loop of [run]. Each line that [prompt] returns
    comes with the date of the day it is typed on; when no line is left,
    [input] raises [EOFError]. The lines not read are returned as well. *)
Fixpoint run_loop (inputs : list (str * date.t)) (self : t)
  : outcome unit * t * list (str * date.t) :=
  if running self then
    match inputs with
    | [] =>
        (Raises (Std (Exn EOFError None)), call (prompt (py "> ")) self, [])
    | (cmd_line, today) :: inputs' =>
        let self := call (prompt (py "> ")) self in
        let '(cmd, args) := parse_input cmd_line in
        match dict.get commands cmd with
        | Some handle =>
            match handle today args self with
            | (Return _, self') => run_loop inputs' self'
            | (Raises x, self') => (Raises x, self', inputs')
            end
        | None =>
            match Str.strip cmd with
            | [] => run_loop inputs' self
            | _ =>
                run_loop inputs'
                  (call (show_message
                           (py "Unknown command. Type 'help' for options."))
                     self)
            end
        end
    end
  else (Return tt, self, inputs).

Definition run (inputs : list (str * date.t)) (self : t)
  : outcome unit * t * list (str * date.t) :=
  run_loop inputs (call display_help self).

(** [AddressBookController(book, view)] with a view that has received no
    call yet. *)
Definition init (book_ : AddressBook.t) (files_ : filesystem)
    (texts_ : Book.textfiles) : t :=
  mk book_ [] true files_ texts_.

Variable unpickle : bytes -> result (dict.t Record.t).

(** [main()], as long as no [KeyboardInterrupt] arrives: a new book loads
    the snapshot and the controller runs on it. When [load] raises, no line
    is read. *)
Definition main (inputs : list (str * date.t)) (files_ : filesystem)
    (texts_ : Book.textfiles) : outcome unit * t * list (str * date.t) :=
  match AddressBook.load unpickle None AddressBook.init files_ with
  | (Ok _, model) => run inputs (init model files_ texts_)
  | (Raise e, model) => (Raises (Std e), init model files_ texts_, inputs)
  end.

End Commands.

End Controller.

(** ** src/main.py: the contact list demo *)

Module Main.

Import Controller.

(** What the console sees: a line printed, or the prompt of an [input]. *)
Inductive console :=
| print (line : str)
| input (message : str).

Definition contact (name phone : str) : dict.t str :=
  dict.setitem (dict.setitem dict.empty (py "name") name) (py "phone") phone.

(** The list [contacts] that the script starts with. *)
Definition contacts0 : list (dict.t str) :=
  [contact [1030; 1074; 1072; 1085]%N (py "123-456");
   contact [1052; 1072; 1088; 1110; 1103]%N (py "987-654")].

Definition prompt_command : str :=
  [1042; 1074; 1077; 1076; 1110; 1090; 1100; 32; 1082; 1086; 1084; 1072; 1085;
   1076; 1091; 58; 32]%N.

Definition prompt_name : str :=
  [1042; 1074; 1077; 1076; 1110; 1090; 1100; 32; 1110; 1084; 39; 1103; 32;
   1082; 1086; 1085; 1090; 1072; 1082; 1090; 1091; 58; 32]%N.

Definition prompt_phone : str :=
  [1042; 1074; 1077; 1076; 1110; 1090; 1100; 32; 1090; 1077; 1083; 1077; 1092;
   1086; 1085; 32; 1082; 1086; 1085; 1090; 1072; 1082; 1090; 1091; 58; 32]%N.

Definition unknown_command : str :=
  [1053; 1077; 1074; 1110; 1076; 1086; 1084; 1072; 32; 1082; 1086; 1084; 1072;
   1085; 1076; 1072; 46; 32; 1057; 1087; 1088; 1086; 1073; 1091; 1081; 1090;
   1077; 32; 1097; 1077; 32; 1088; 1072; 1079; 46]%N.

Definition contacts_header : str :=
  [1057; 1087; 1080; 1089; 1086; 1082; 32; 1082; 1086; 1085; 1090; 1072; 1082;
   1090; 1110; 1074; 58]%N.

Definition help_lines : list str :=
  [[1044; 1086; 1089; 1090; 1091; 1087; 1085; 1110; 32; 1082; 1086; 1084; 1072;
    1085; 1076; 1080; 58]%N;
   py "1. add - " ++ [1044; 1086; 1076; 1072; 1090; 1080; 32; 1082; 1086; 1085;
                      1090; 1072; 1082; 1090]%N;
   py "2. list - " ++ [1055; 1086; 1082; 1072; 1079; 1072; 1090; 1080; 32; 1082;
                       1086; 1085; 1090; 1072; 1082; 1090; 1080]%N;
   py "3. exit - " ++ [1042; 1080; 1093; 1110; 1076; 32; 1079; 32; 1087; 1088;
                       1086; 1075; 1088; 1072; 1084; 1080]%N].

(** The [for contact in contacts] loop of [display_contacts]. *)
Fixpoint display_lines (contacts : list (dict.t str)) (out : list console)
  : outcome unit * list console :=
  match contacts with
  | [] => (Return tt, out)
  | c :: contacts' =>
      match getitem c (py "name") with
      | Raises x => (Raises x, out)
      | Return n =>
          match getitem c (py "phone") with
          | Raises x => (Raises x, out)
          | Return p =>
              display_lines contacts'
                (out ++ [print ([1030; 1084; 39; 1103; 58; 32]%N ++ n
                                ++ [44; 32; 1058; 1077; 1083; 1077; 1092; 1086;
                                    1085; 58; 32]%N ++ p)])
          end
      end
  end.

Definition display_contacts (contacts : list (dict.t str)) (out : list console)
  : outcome unit * list console :=
  display_lines contacts (out ++ [print contacts_header]).

Definition display_help (out : list console) : list console :=
  out ++ map print help_lines.

(** The [while True] loop of the script on the lines that [input] returns;
    when no line is left, [input] raises [EOFError]. It gives the outcome,
    the contacts, what the console has seen and the lines not read. *)
Fixpoint loop (inputs : list str) (contacts : list (dict.t str))
    (out : list console)
  : outcome unit * list (dict.t str) * list console * list str :=
  let out := display_help out ++ [input prompt_command] in
  match inputs with
  | [] => (Raises (Std (Exn EOFError None)), contacts, out, [])
  | command :: rest =>
      if str_eqb command (py "list") then
        match display_contacts contacts out with
        | (Return _, out') => loop rest contacts out'
        | (Raises x, out') => (Raises x, contacts, out', rest)
        end
      else if str_eqb command (py "add") then
        match rest with
        | [] =>
            (Raises (Std (Exn EOFError None)), contacts,
             out ++ [input prompt_name], [])
        | [name] =>
            (Raises (Std (Exn EOFError None)), contacts,
             out ++ [input prompt_name; input prompt_phone], [])
        | name :: phone :: rest' =>
            loop rest' (contacts ++ [contact name phone])
              (out ++ [input prompt_name; input prompt_phone])
        end
      else if str_eqb command (py "exit") then
        (Return tt, contacts, out, rest)
      else loop rest contacts (out ++ [print unknown_command])
  end.

Definition main (inputs : list str)
  : outcome unit * list (dict.t str) * list console * list str :=
  loop inputs contacts0 [].

End Main.

(** * Notions of the specification *)

(** ** Phone numbers *)

Definition is_separator (c : char) : bool :=
  (c =? chr "+")%N || (c =? chr "-")%N || (c =? chr " ")%N.

(** The text with every ['+'], ['-'] and space deleted. *)
Definition delete_separators (raw : str) : str :=
  List.filter (fun c => negb (is_separator c)) raw.

(** A text that consists solely of digits, in the sense of [str.isdigit]. *)
Definition all_digits (s : str) : Prop :=
  Forall (fun c => isdigit_char c = true) s.

(** The invariant of a stored phone value. *)
Definition canonical_phone (s : str) : Prop :=
  all_digits s /\ (length s = 10%nat \/ length s = 12%nat).

Definition has_separator (s : str) : Prop :=
  Exists (fun c => is_separator c = true) s.

(** ** Records and address books reached through their methods *)

Definition phones_canonical (r : Record.t) : Prop :=
  Forall (fun p => canonical_phone (value p)) (Record.phones r).

Inductive Record_reachable : Record.t -> Prop :=
| reach_init name phone email r :
    (Record.init name phone email = Ok r) -> Record_reachable r
| reach_add_phone r phone :
    Record_reachable r -> Record_reachable (snd (Record.add_phone phone r))
| reach_remove_phone r phone :
    Record_reachable r -> Record_reachable (snd (Record.remove_phone phone r))
| reach_edit_phone r old_phone new_phone :
    Record_reachable r ->
    Record_reachable (snd (Record.edit_phone old_phone new_phone r))
| reach_add_birthday r b :
    Record_reachable r -> Record_reachable (snd (Record.add_birthday b r)).

(** Every key of the mapping is the name of the record stored under it. *)
Definition keys_are_names (book : AddressBook.t) : Prop :=
  Forall (fun kv => fst kv = value (Record.name (snd kv)))
    (dict.items (AddressBook.data book)).

Inductive book_call :=
| call_add_record (record : Record.t)
| call_delete (name : str).

Definition do_call (book : AddressBook.t) (c : book_call) : AddressBook.t :=
  match c with
  | call_add_record record => AddressBook.add_record record book
  | call_delete name => AddressBook.delete name book
  end.

(** The book after a sequence of calls on a new [AddressBook()]. *)
Definition book_after (calls : list book_call) : AddressBook.t :=
  fold_left do_call calls AddressBook.init.

(** ** What a pattern consumes

    [consumes r p g g']: the pattern [r] can match exactly the text [p],
    taking the captured groups from [g] to [g']. *)

Inductive consumes : regex -> str -> groupdict -> groupdict -> Prop :=
| consumes_chr c g : consumes (Chr c) [c] g g
| consumes_range lo hi c g :
    in_range lo hi c = true -> consumes (Range lo hi) [c] g g
| consumes_digit c g :
    isdecimal_char c = true -> consumes Digit [c] g g
| consumes_cat r1 r2 p1 p2 g g1 g2 :
    consumes r1 p1 g g1 -> consumes r2 p2 g1 g2 ->
    consumes (Cat r1 r2) (p1 ++ p2) g g2
| consumes_alt_l r1 r2 p g g' :
    consumes r1 p g g' -> consumes (Alt r1 r2) p g g'
| consumes_alt_r r1 r2 p g g' :
    consumes r2 p g g' -> consumes (Alt r1 r2) p g g'
| consumes_group name r p g g' :
    consumes r p g g' -> consumes (Group name r) p g ((name, p) :: g').

(** ** Birthday texts *)

Definition dot : char := chr ".".

(** The texts of the day field: 30-31, 10-29, 01-09, 1-9, or a space and
    1-9. Only the second character of 10-29 may be any decimal character. *)
Definition day_field (t : str) : bool :=
  match t with
  | [a] => in_range (chr "1") (chr "9") a
  | [a; b] =>
      ((a =? chr "3")%N && in_range (chr "0") (chr "1") b)
      || (in_range (chr "1") (chr "2") a && isdecimal_char b)
      || ((a =? chr "0")%N && in_range (chr "1") (chr "9") b)
      || ((a =? chr " ")%N && in_range (chr "1") (chr "9") b)
  | _ => false
  end.

(** The texts of the month field: 10-12, 01-09, 1-9. *)
Definition month_field (t : str) : bool :=
  match t with
  | [a] => in_range (chr "1") (chr "9") a
  | [a; b] =>
      ((a =? chr "1")%N && in_range (chr "0") (chr "2") b)
      || ((a =? chr "0")%N && in_range (chr "1") (chr "9") b)
  | _ => false
  end.

(** The texts of the year field: exactly four decimal characters. *)
Definition year_field (t : str) : bool :=
  match t with
  | [a; b; c; d] =>
      isdecimal_char a && isdecimal_char b && isdecimal_char c && isdecimal_char d
  | _ => false
  end.

(** An existing date of the calendar, years 1 to 9999: February has 29 days
    in the years divisible by 4 that are not divisible by 100, or are
    divisible by 400. *)
Definition leap_year (y : Z) : Prop :=
  (4 | y) /\ (~ (100 | y) \/ (400 | y)).

Definition month_length (y m : Z) (n : Z) : Prop :=
  (m = 1 /\ n = 31) \/ (m = 2 /\ leap_year y /\ n = 29)
  \/ (m = 2 /\ ~ leap_year y /\ n = 28) \/ (m = 3 /\ n = 31)
  \/ (m = 4 /\ n = 30) \/ (m = 5 /\ n = 31) \/ (m = 6 /\ n = 30)
  \/ (m = 7 /\ n = 31) \/ (m = 8 /\ n = 31) \/ (m = 9 /\ n = 30)
  \/ (m = 10 /\ n = 31) \/ (m = 11 /\ n = 30) \/ (m = 12 /\ n = 31).

Definition calendar_date (y m d : Z) : Prop :=
  1 <= y <= 9999 /\ exists n, month_length y m n /\ 1 <= d <= n.

(** A text that is day.month.year in the reading of [strptime], denoting the
    calendar date [y]-[m]-[d]. *)
Definition day_month_year (raw : str) (y m d : Z) : Prop :=
  exists D M Y,
    raw = D ++ py "." ++ M ++ py "." ++ Y
    /\ day_field D = true /\ month_field M = true /\ year_field Y = true
    /\ int D = Ok d /\ int M = Ok m /\ int Y = Ok y
    /\ calendar_date y m d.

Definition ascii_digit (c : char) : bool := in_range (chr "0") (chr "9") c.

(** The exact literal format DD.MM.YYYY. *)
Definition DD_MM_YYYY (raw : str) : bool :=
  match raw with
  | [d1; d2; p1; m1; m2; p2; y1; y2; y3; y4] =>
      ascii_digit d1 && ascii_digit d2 && (p1 =? chr ".")%N
      && ascii_digit m1 && ascii_digit m2 && (p2 =? chr ".")%N
      && ascii_digit y1 && ascii_digit y2 && ascii_digit y3 && ascii_digit y4
  | _ => false
  end.

(** ** Dates and the birthday window *)

Definition valid_date (dt : date.t) : Prop :=
  calendar_date (date.year dt) (date.month dt) (date.day dt).

(** [f] holds of the [n] integers from [start] on. *)
Fixpoint all_from (f : Z -> bool) (start : Z) (n : nat) : bool :=
  match n with
  | O => true
  | S n' => f start && all_from f (start + 1) n'
  end.

(** What is checked of [_ord2ymd] on each day of the first 400 years. *)
Definition cycle_check (r : Z) : bool :=
  let '(y, m, d) := _ord2ymd (r + 1) in
  (_ymd2ord y m d =? r + 1) && (1 <=? y) && (y <=? 400)
  && (1 <=? m) && (m <=? 12) && (1 <=? d) && (d <=? _days_in_month y m)
  && ((145730 <? r) || (y <=? 399)).

(** The birthday's day and month in the year [y]. *)
Definition in_year (y : Z) (bd : date.t) : date.t :=
  date.mk y (date.month bd) (date.day bd).

(** The next occurrence of a birthday: its day and month in today's year,
    advanced one year when that date is before today. *)
Definition next_occurrence (today bd : date.t) : date.t :=
  if date.lt (in_year (date.year today) bd) today
  then in_year (date.year today + 1) bd
  else in_year (date.year today) bd.

(** Between 0 and 7 whole days from today, inclusive. *)
Definition in_window (today occ : date.t) : bool :=
  (0 <=? date.toordinal occ - date.toordinal today)
  && (date.toordinal occ - date.toordinal today <=? 7).

(** The records the query is to report. *)
Definition upcoming (today : date.t) (rec : Record.t) : bool :=
  match Record.birthday rec with
  | None => false
  | Some b =>
      match strptime (value b) with
      | Ok bd => in_window today (next_occurrence today bd)
      | Raise _ => false
      end
  end.

(** Saturday or Sunday. *)
Definition weekend (dt : date.t) : bool :=
  (date.weekday dt =? 5) || (date.weekday dt =? 6).

(** The entry reported for a record: the name, and the next occurrence of
    the birthday, moved to the following Monday when it is on a weekend. *)
Definition reported (today : date.t) (rec : Record.t) (e : dict.t str) : Prop :=
  exists b bd,
    (Record.birthday rec = Some b)
    /\ strptime (value b) = Ok bd
    /\ let occ := next_occurrence today bd in
       let shown :=
         if weekend occ
         then date.fromordinal (date.toordinal occ + (7 - date.weekday occ))
         else occ in
       e = [(py "name", value (Record.name rec));
            (py "birthday", strftime shown)]
       /\ valid_date occ /\ valid_date shown
       /\ (weekend occ = true ->
           date.toordinal shown = date.toordinal occ + (7 - date.weekday occ)
           /\ date.weekday shown = 0)
       /\ (1000 <= date.year today -> DD_MM_YYYY (strftime shown) = true).

(** [str_of_int] gives four digits on a year of four digits. *)
Definition four_digits (y : Z) : bool :=
  match str_of_int y with
  | [a; b; c; d] => ascii_digit a && ascii_digit b && ascii_digit c && ascii_digit d
  | _ => false
  end.

(** ** A codec to try [save] and [load] with

    Any pair of functions that restores what it has written can stand for
    [pickle]; this one writes a mapping as a run of zero bytes whose length
    is the code of the mapping. *)

#[global] Instance Field_eq_dec : EqDecision Field.
Proof. solve_decision. Defined.

#[global] Instance Field_countable : Countable Field.
Proof. apply (inj_countable' value mkField). intros []. reflexivity. Defined.

#[global] Instance Record_eq_dec : EqDecision Record.t.
Proof. solve_decision. Defined.

#[global] Instance Record_countable : Countable Record.t.
Proof.
  apply (inj_countable'
           (fun r =>
              (Record.name r, Record.phones r, Record.email r, Record.birthday r))
           (fun q => let '(n, p, e, b) := q in Record.mk n p e b)).
  intros []. reflexivity.
Defined.

Definition unary_dumps (d : dict.t Record.t) : bytes :=
  replicate (Pos.to_nat (encode d)) Byte.x00.

Definition unary_unpickle (contents : bytes) : result (dict.t Record.t) :=
  match decode (Pos.of_nat (length contents)) with
  | Some d => Ok d
  | None => Raise (Exn UnpicklingError None)
  end.

(** ** Notions for the rest of the program *)

(** How many phones of a list have the value [v]. *)
Definition count_value (v : str) (ps : list Phone) : nat :=
  length (List.filter (fun p => str_eqb (value p) v) ps).

(** A stored birthday reads as a date. *)
Definition birthday_valid (r : Record.t) : Prop :=
  forall b, Record.birthday r = Some b ->
    exists y m d, day_month_year (value b) y m d.

(** A word: a text that is not empty and holds no white space. *)
Definition word (w : str) : Prop :=
  w <> [] /\ Forall (fun c => isspace_char c = false) w.

(** The invariant of the book of a controller. *)
Definition record_ok (r : Record.t) : Prop :=
  phones_canonical r /\ birthday_valid r.

Definition book_ok (b : AddressBook.t) : Prop :=
  keys_are_names b
  /\ List.NoDup (dict.keys (AddressBook.data b))
  /\ Forall record_ok (dict.values (AddressBook.data b)).

(** What one command does to the book: nothing, or it adds a record made by
    [Record(name, phone, email)] under a name that was absent, or it changes
    the record found under a name, which keeps its name. *)
Inductive book_step (b : AddressBook.t) : AddressBook.t -> Prop :=
| step_none : book_step b b
| step_add name phone email record :
    AddressBook.find name b = None ->
    (Record.init name (Some phone) email = Ok record) ->
    book_step b (AddressBook.add_record record b)
| step_update name rec rec' :
    AddressBook.find name b = Some rec ->
    (Record.name rec' = Record.name rec) ->
    (record_ok rec -> record_ok rec') ->
    book_step b (AddressBook.mk (dict.setitem (AddressBook.data b) name rec')).

(** What the body of each decorated command does: it raises a [ValueError]
    with a message and leaves everything as it was, or it returns [None]
    after one step on the book and one message. *)
Definition body_cases (body : list str -> Controller.action (option str))
  : Prop :=
  forall args self,
    (exists m,
       body args self = (Controller.Raises (Controller.ValueError_ m), self))
    \/ (exists m b',
          body args self
          = (Controller.Return None,
             Controller.call (show_message m) (Controller.with_book self b'))
          /\ book_step (Controller.book self) b').

(** ** Stand-ins to run the controller with

    [str.lower] on the letters A to Z, and a wording for the messages that
    the runtime gives to its own exceptions. *)

Definition ascii_lower (s : str) : str :=
  map (fun c => if in_range 65%N 90%N c then (c + 32)%N else c) s.

Definition no_wording (e : exn) : str := [].

(** What UTF-8 can encode: every code point that is not a surrogate. *)
Definition utf8 (c : char) : bool := negb (in_range 55296%N 57343%N c).

(** ** The lines typed to the script of src/main.py

    [typed lines added]: [lines] are whole turns of the loop, none of them
    [exit], and [added] are the names and phones that they add, in order. A
    line [list] and a line that is no command add nothing; a line [add]
    takes the two lines after it as a name and a phone. *)
Inductive typed : list str -> list (str * str) -> Prop :=
| typed_nil : typed [] []
| typed_list lines added :
    typed lines added -> typed (py "list" :: lines) added
| typed_add name phone lines added :
    typed lines added ->
    typed (py "add" :: name :: phone :: lines) ((name, phone) :: added)
| typed_other command lines added :
    command <> py "list" -> command <> py "add" -> command <> py "exit" ->
    typed lines added -> typed (command :: lines) added.

(** * Tactics *)

Ltac inv_consumes :=
  repeat match goal with
    | H : consumes (Chr _) _ _ _ |- _ => inversion H; subst; clear H
    | H : consumes (Range _ _) _ _ _ |- _ => inversion H; subst; clear H
    | H : consumes Digit _ _ _ |- _ => inversion H; subst; clear H
    | H : consumes (Cat _ _) _ _ _ |- _ => inversion H; subst; clear H
    | H : consumes (Alt _ _) _ _ _ |- _ => inversion H; subst; clear H
    | H : consumes (Group _ _) _ _ _ |- _ => inversion H; subst; clear H
    end.

Ltac bool_to_prop :=
  repeat match goal with
    | H : (_ || _) = true |- _ => apply orb_true_iff in H as [H|H]
    | H : (_ && _) = true |- _ =>
        let H1 := fresh H in apply andb_true_iff in H as [H H1]
    | H : (_ =? _)%N = true |- _ => apply N.eqb_eq in H; subst
    end.

Ltac eval_index :=
  repeat match goal with
    | |- context [index ?t ?i] =>
        let v := eval vm_compute in (index t i) in change (index t i) with v
    end.

Ltac solve_conj :=
  solve [repeat match goal with |- _ /\ _ => split end;
         solve [reflexivity | assumption]].

Ltac pick_disjunct :=
  first [ solve_conj | left; solve_conj | right; pick_disjunct ].

Ltac absurd_dot :=
  first
    [ discriminate
    | match goal with
      | H : ?t = true |- _ =>
          lazymatch t with context [dot] => vm_compute in H; discriminate H end
      end ].


(** * Properties *)

(** ** Text *)

Lemma replace_nil_filter (old : char) (s : str) :
  replace old [] s = List.filter (fun c => negb (c =? old)%N) s.
Proof.
  unfold replace.
  induction s as [|c s IH]; simpl; [reflexivity|].
  rewrite IH. destruct (c =? old)%N; reflexivity.
Qed.

Lemma filter_twice {A} (f g : A -> bool) (l : list A) :
  List.filter f (List.filter g l) = List.filter (fun x => g x && f x) l.
Proof.
  induction l as [|x l IH]; simpl; [reflexivity|].
  destruct (g x); simpl; [destruct (f x)|]; rewrite IH; reflexivity.
Qed.

Lemma cleaned_delete_separators (v : str) :
  replace (chr " ") [] (replace (chr "-") [] (replace (chr "+") [] v))
  = delete_separators v.
Proof.
  rewrite !replace_nil_filter, !filter_twice.
  unfold delete_separators, is_separator.
  apply List.filter_ext. intros c.
  destruct (c =? chr "+")%N, (c =? chr "-")%N, (c =? chr " ")%N; reflexivity.
Qed.

Lemma isdigit_all_digits (s : str) :
  isdigit s = true <-> s <> [] /\ all_digits s.
Proof.
  unfold isdigit, all_digits. destruct s as [|c s].
  - split; [discriminate | intros [H _]; congruence].
  - rewrite forallb_forall, Forall_forall.
    split; [intros H; split; [discriminate|] | intros [_ H]];
      intros x Hx; apply H;
      first [exact Hx | apply list_elem_of_In; exact Hx | apply list_elem_of_In in Hx; exact Hx].
Qed.

Lemma len_length (s : str) (n : nat) : len s = Z.of_nat n <-> length s = n.
Proof. unfold len. lia. Qed.

Lemma separator_not_digit (c : char) : is_separator c = true -> isdigit_char c = false.
Proof.
  unfold is_separator. rewrite !orb_true_iff, !N.eqb_eq.
  intros [[-> | ->] | ->]; vm_compute; reflexivity.
Qed.

(** ** Phone *)

Lemma Phone_init_unfold (raw : str) :
  Phone.init raw =
  if isdigit (delete_separators raw)
     && (bool_decide (len (delete_separators raw) = 10)
         || bool_decide (len (delete_separators raw) = 12))
  then Ok (mkField (delete_separators raw))
  else Raise Phone.invalid.
Proof.
  unfold Phone.init. rewrite cleaned_delete_separators.
  destruct (isdigit _); simpl; [|reflexivity].
  destruct (_ || _); reflexivity.
Qed.

Lemma Phone_init_ok_iff (raw : str) :
  (exists p, Phone.init raw = Ok p) <-> canonical_phone (delete_separators raw).
Proof.
  rewrite Phone_init_unfold. unfold canonical_phone.
  set (cleaned := delete_separators raw).
  rewrite <- (len_length cleaned 10), <- (len_length cleaned 12).
  destruct (isdigit cleaned) eqn:Hd; simpl.
  - apply isdigit_all_digits in Hd as [_ Hd].
    destruct (bool_decide (len cleaned = 10)) eqn:H10;
      [apply bool_decide_eq_true in H10 | apply bool_decide_eq_false in H10];
      simpl.
    + split; [intros _; split; [assumption | left; exact H10] | eauto].
    + destruct (bool_decide (len cleaned = 12)) eqn:H12;
        [apply bool_decide_eq_true in H12 | apply bool_decide_eq_false in H12].
      * split; [intros _; split; [assumption | right; exact H12] | eauto].
      * split; [intros [p Hp]; discriminate | intros [_ [H | H]]; contradiction].
  - split; [intros [p Hp]; discriminate|].
    intros [Hall Hlen]. exfalso.
    assert (isdigit cleaned = true) as Hd'; [|congruence].
    apply isdigit_all_digits. split; [|assumption].
    intros ->. simpl in Hlen. destruct Hlen; discriminate.
Qed.

(** What a successful construction stores. *)
Lemma Phone_init_ok (raw : str) (p : Phone) :
  Phone.init raw = Ok p ->
  canonical_phone (delete_separators raw) /\ value p = delete_separators raw.
Proof.
  intros H. split; [apply Phone_init_ok_iff; eauto|].
  rewrite Phone_init_unfold in H.
  destruct (_ && _); [|discriminate]. injection H as <-. reflexivity.
Qed.

(** C4: construction of a [Phone] succeeds exactly when the text with every
    ['+'], ['-'] and space deleted consists solely of digits in the sense of
    [str.isdigit], which are the digits 0 to 9 and the other digit
    characters of Unicode, and has length 10 or 12, and the value stored is
    then that cleaned text. *)
Theorem Phone_init_spec (raw : str) (p : Phone) :
  Phone.init raw = Ok p <->
  all_digits (delete_separators raw)
  /\ (length (delete_separators raw) = 10%nat
      \/ length (delete_separators raw) = 12%nat)
  /\ value p = delete_separators raw.
Proof.
  split.
  - intros H. apply Phone_init_ok in H as [[Hd Hl] Hv]. auto.
  - intros (Hd & Hl & Hv).
    destruct (proj2 (Phone_init_ok_iff raw) (conj Hd Hl)) as [q Hq].
    rewrite Hq. f_equal.
    rewrite Phone_init_unfold in Hq. destruct (_ && _); [|discriminate].
    injection Hq as <-. destruct p as [v]; simpl in Hv. congruence.
Qed.

(** Every other text is rejected with the phone error. *)
Lemma Phone_init_invalid (raw : str) :
  ~ canonical_phone (delete_separators raw) -> Phone.init raw = Raise Phone.invalid.
Proof.
  intros Hn. rewrite Phone_init_unfold.
  destruct (_ && _) eqn:E; [|reflexivity].
  exfalso. apply Hn. apply Phone_init_ok_iff.
  rewrite Phone_init_unfold, E. eauto.
Qed.

Example Phone_init_ex1 :
  Phone.init (py "+38 050-123-45-67") = Ok (mkField (py "380501234567")).
Proof. vm_compute. reflexivity. Qed.

Example Phone_init_ex2 : Phone.init (py "12345") = Raise Phone.invalid.
Proof. vm_compute. reflexivity. Qed.

(** C4, as the claim has it, fails: ten times U+00B2, SUPERSCRIPT TWO, make
    a phone, and are stored, although none of them is one of the digits 0
    to 9. *)
Lemma Phone_init_accepts_superscript_two :
  Phone.init (replicate 10 178%N) = Ok (mkField (replicate 10 178%N))
  /\ delete_separators (replicate 10 178%N) = replicate 10 178%N
  /\ existsb ascii_digit (replicate 10 178%N) = false.
Proof. vm_compute. repeat split; reflexivity. Qed.

(** [isdigit] is about Unicode digits: ten times U+00B2, SUPERSCRIPT TWO,
    make a phone. *)
Example Phone_init_ex3 :
  Phone.init (replicate 10 178%N) = Ok (mkField (replicate 10 178%N)).
Proof. vm_compute. reflexivity. Qed.

(** ** Record *)

Lemma Phone_init_raises (raw : str) (e : exn) :
  Phone.init raw = Raise e -> e = Phone.invalid.
Proof.
  rewrite Phone_init_unfold. destruct (_ && _); [discriminate|].
  intros [= <-]. reflexivity.
Qed.

Lemma Phone_init_canonical (raw : str) (p : Phone) :
  Phone.init raw = Ok p -> canonical_phone (value p).
Proof.
  intros H. apply Phone_init_ok in H as [Hc ->]. exact Hc.
Qed.

Lemma old_not_found_not_invalid : Record.old_not_found <> Phone.invalid.
Proof. intros H. vm_compute in H. discriminate. Qed.

Lemma with_phones_same (self : Record.t) :
  (Record.with_phones self (Record.phones self) = self).
Proof. destruct self; reflexivity. Qed.

Lemma mkField_value (f : Field) : mkField (value f) = f.
Proof. destruct f; reflexivity. Qed.

(** What the loop of [edit_phone] does to the list it walks. *)
Lemma edit_phone_loop_spec (old_phone new_phone : str) (ps : list Phone) :
  match Record.edit_phone_loop old_phone new_phone ps with
  | (Ok msg, ps') =>
      exists before p after q,
        ps = before ++ p :: after
        /\ Forall (fun x => value x <> old_phone) before
        /\ value p = old_phone
        /\ Phone.init new_phone = Ok q
        /\ ps' = before ++ q :: after
  | (Raise e, ps') =>
      ps' = ps
      /\ (e = Record.old_not_found <->
          Forall (fun x => value x <> old_phone) ps)
  end.
Proof.
  induction ps as [|p rest IH]; simpl.
  - split; [reflexivity|]. split; [constructor | reflexivity].
  - unfold str_eqb. case_bool_decide as Hp.
    + destruct (Phone.init new_phone) as [q|e] eqn:Hq.
      * exists [], p, rest, q. rewrite mkField_value.
        repeat split; try assumption; constructor.
      * split; [reflexivity|]. apply Phone_init_raises in Hq as ->.
        split.
        -- intros H. symmetry in H. destruct (old_not_found_not_invalid H).
        -- intros H. inversion H; subst. contradiction.
    + destruct (Record.edit_phone_loop old_phone new_phone rest) as [[msg|e] rest'].
      * destruct IH as (before & p0 & after & q & -> & Hb & Hp0 & Hq & ->).
        exists (p :: before), p0, after, q.
        repeat split; try assumption. constructor; assumption.
      * destruct IH as [-> IH]. split; [reflexivity|].
        rewrite IH. split.
        -- intros H. constructor; assumption.
        -- intros H. inversion H; subst. assumption.
Qed.

(** With no phone of the old value, [edit_phone] raises and changes nothing. *)
Lemma edit_phone_not_found (self : Record.t) (old_phone new_phone : str) :
  Forall (fun p => value p <> old_phone) (Record.phones self) ->
  Record.edit_phone old_phone new_phone self = (Raise Record.old_not_found, self).
Proof.
  intros Hne. unfold Record.edit_phone.
  pose proof (edit_phone_loop_spec old_phone new_phone (Record.phones self)) as H.
  destruct (Record.edit_phone_loop old_phone new_phone (Record.phones self))
    as [[msg|e] ps'].
  - destruct H as (before & p & after & q & Hps & _ & Hp & _). exfalso.
    rewrite Hps in Hne. apply Forall_app in Hne as [_ Hne].
    inversion Hne; subst. contradiction.
  - destruct H as [-> H]. apply H in Hne as ->.
    rewrite with_phones_same. reflexivity.
Qed.

(** The loop of [edit_phone] on a list whose first phone with the old value
    is known. *)
Lemma edit_phone_loop_found (old_phone new_phone : str)
    (before : list Phone) (p : Phone) (after : list Phone) :
  Forall (fun x => value x <> old_phone) before ->
  value p = old_phone ->
  Record.edit_phone_loop old_phone new_phone (before ++ p :: after)
  = match Phone.init new_phone with
    | Ok q => (Ok (py "Phone updated."), before ++ q :: after)
    | Raise e => (Raise e, before ++ p :: after)
    end.
Proof.
  intros Hb Hp. induction Hb as [|x before Hx _ IH]; simpl.
  - unfold str_eqb. rewrite bool_decide_eq_true_2 by assumption.
    destruct (Phone.init new_phone) as [q|e]; [|reflexivity].
    rewrite mkField_value. reflexivity.
  - unfold str_eqb at 1. rewrite bool_decide_eq_false_2 by assumption.
    rewrite IH. destruct (Phone.init new_phone); reflexivity.
Qed.

(** C6: [edit_phone] reports that the old phone was not found exactly when no
    stored phone has the old value; when it succeeds, the first phone with the
    old value, and only it, now has the canonical form of the new value; and
    when it fails, for either reason, the record is as it was. It does
    succeed, with the message [Phone updated.], whenever some phone has the
    old value and the new text makes a phone; when some phone has the old
    value and the new text makes none, it fails with the phone error. *)
Theorem edit_phone_spec (self : Record.t) (old_phone new_phone : str) :
  let r := fst (Record.edit_phone old_phone new_phone self) in
  let self' := snd (Record.edit_phone old_phone new_phone self) in
  (r = Raise Record.old_not_found <->
   Forall (fun p => value p <> old_phone) (Record.phones self))
  /\ (forall msg, r = Ok msg ->
      exists before p after q,
        (Record.phones self = before ++ p :: after)
        /\ Forall (fun x => value x <> old_phone) before
        /\ value p = old_phone
        /\ Phone.init new_phone = Ok q
        /\ self' = Record.with_phones self (before ++ q :: after))
  /\ (forall e, r = Raise e -> self' = self)
  /\ (forall before p after q,
        (Record.phones self = before ++ p :: after) ->
        Forall (fun x => value x <> old_phone) before ->
        value p = old_phone ->
        Phone.init new_phone = Ok q ->
        r = Ok (py "Phone updated.")
        /\ self' = Record.with_phones self (before ++ q :: after))
  /\ (Exists (fun p => value p = old_phone) (Record.phones self) ->
      (forall q, Phone.init new_phone <> Ok q) ->
      r = Raise Phone.invalid).
Proof.
  unfold Record.edit_phone.
  pose proof (edit_phone_loop_spec old_phone new_phone (Record.phones self)) as H.
  pose proof (edit_phone_loop_found old_phone new_phone) as Hfound.
  destruct (Record.edit_phone_loop old_phone new_phone (Record.phones self))
    as [[msg|e] ps'] eqn:Hloop; simpl.
  - destruct H as (before & p & after & q & Hps & Hb & Hp & Hq & ->).
    split; [|split; [|split; [|split]]].
    + split; [discriminate|]. intros HF. exfalso.
      rewrite Hps in HF. apply Forall_app in HF as [_ HF].
      inversion HF; subst. contradiction.
    + intros _ _. exists before, p, after, q. repeat split; assumption.
    + discriminate.
    + intros before0 p0 after0 q0 Hps0 Hb0 Hp0 Hq0.
      rewrite Hps0, (Hfound before0 p0 after0 Hb0 Hp0), Hq0 in Hloop.
      injection Hloop as <- <-. split; reflexivity.
    + intros _ Hno. exfalso. exact (Hno q Hq).
  - destruct H as [-> H]. split; [|split; [|split; [|split]]].
    + rewrite <- H. split; [intros [= ->]; reflexivity | intros ->; reflexivity].
    + discriminate.
    + intros _ _. apply with_phones_same.
    + intros before0 p0 after0 q0 Hps0 Hb0 Hp0 Hq0. exfalso.
      rewrite Hps0, (Hfound before0 p0 after0 Hb0 Hp0), Hq0 in Hloop.
      discriminate.
    + intros Hex Hno. f_equal.
      apply Exists_exists in Hex as (p0 & Hin & Hp0).
      assert (exists before p after,
                Record.phones self = before ++ p :: after
                /\ Forall (fun x => value x <> old_phone) before
                /\ value p = old_phone) as (before & p & after & Hps & Hb & Hp).
      { clear -Hin Hp0. induction (Record.phones self) as [|x l IH];
          [destruct Hin|].
        destruct (decide (value x = old_phone)) as [Hx|Hx].
        - exists [], x, l. repeat split; [constructor | assumption].
        - destruct Hin as [->|Hin]; [contradiction|].
          destruct (IH Hin) as (before & p & after & -> & Hb & Hp).
          exists (x :: before), p, after.
          repeat split; [constructor; assumption | assumption]. }
      rewrite Hps, (Hfound before p after Hb Hp) in Hloop.
      destruct (Phone.init new_phone) as [q|e0] eqn:Hq;
        [exfalso; exact (Hno q eq_refl)|].
      assert (e0 = e) as <- by congruence.
      eapply Phone_init_raises; eassumption.
Qed.

(** On a record with two phones of the old value, the first one is
    rewritten. *)
Lemma edit_phone_spec_witness :
  let ann := Record.mk (Name.init (py "Ann"))
               [mkField (py "0501234567"); mkField (py "1234567890");
                mkField (py "1234567890")] [] None in
  fst (Record.edit_phone (py "1234567890") (py "098-765-43-21") ann)
  = Ok (py "Phone updated.")
  /\ snd (Record.edit_phone (py "1234567890") (py "098-765-43-21") ann)
     = Record.with_phones ann
         ([mkField (py "0501234567")] ++ mkField (py "0987654321")
          :: [mkField (py "1234567890")]).
Proof.
  intros ann.
  apply (edit_phone_spec ann (py "1234567890") (py "098-765-43-21"))
    with (p := mkField (py "1234567890")).
  - reflexivity.
  - repeat constructor; vm_compute; discriminate.
  - reflexivity.
  - vm_compute. reflexivity.
Defined.

Example edit_phone_ex1 :
  let r := Record.mk (Name.init (py "Ann")) [mkField (py "1234567890")] [] None in
  let r' := snd (Record.edit_phone (py "1234567890") (py "0987654321") r) in
  fst (Record.edit_phone (py "1234567890") (py "0987654321") r)
    = Ok (py "Phone updated.")
  /\ Record.find_phone (py "1234567890") r' = None
  /\ Record.edit_phone (py "0000000000") (py "0987654321") r
     = (Raise Record.old_not_found, r).
Proof. vm_compute. repeat split; reflexivity. Qed.

(** The phone invariant of a record. *)

Lemma phones_canonical_add_phone (r : Record.t) (phone : str) :
  phones_canonical r -> phones_canonical (snd (Record.add_phone phone r)).
Proof.
  unfold phones_canonical, Record.add_phone. intros H.
  destruct (Phone.init phone) as [p|e] eqn:Hp; simpl; [|assumption].
  apply Forall_app. split; [assumption|].
  constructor; [|constructor]. eapply Phone_init_canonical; eassumption.
Qed.

Lemma Forall_List_filter {A} (P : A -> Prop) (f : A -> bool) (l : list A) :
  Forall P l -> Forall P (List.filter f l).
Proof.
  induction 1 as [|x l Hx Hl IH]; simpl; [constructor|].
  destruct (f x); [constructor|]; assumption.
Qed.

Lemma phones_canonical_remove_phone (r : Record.t) (phone : str) :
  phones_canonical r -> phones_canonical (snd (Record.remove_phone phone r)).
Proof. unfold phones_canonical. simpl. apply Forall_List_filter. Qed.

Lemma phones_canonical_edit_phone (r : Record.t) (old_phone new_phone : str) :
  phones_canonical r ->
  phones_canonical (snd (Record.edit_phone old_phone new_phone r)).
Proof.
  intros H. unfold Record.edit_phone.
  pose proof (edit_phone_loop_spec old_phone new_phone (Record.phones r)) as Hl.
  destruct (Record.edit_phone_loop old_phone new_phone (Record.phones r))
    as [[msg|e] ps']; unfold phones_canonical in *; simpl.
  - destruct Hl as (before & p & after & q & Hps & _ & _ & Hq & ->).
    rewrite Hps in H.
    apply Forall_app in H as [Hb Ha]. apply Forall_app. split; [assumption|].
    inversion Ha; subst. constructor; [|assumption].
    eapply Phone_init_canonical; eassumption.
  - destruct Hl as [-> _]. assumption.
Qed.

Lemma phones_canonical_add_birthday (r : Record.t) (b : str) :
  phones_canonical r -> phones_canonical (snd (Record.add_birthday b r)).
Proof.
  unfold phones_canonical, Record.add_birthday.
  destruct (Birthday.init b); simpl; auto.
Qed.

Lemma phones_canonical_init (name : str) (phone : option str) (email : str)
    (r : Record.t) :
  (Record.init name phone email = Ok r) -> phones_canonical r.
Proof.
  unfold Record.init.
  set (r0 := Record.mk (Name.init name) [] email None).
  assert (phones_canonical r0) as H0 by constructor.
  destruct phone as [[|c s]|]; try (intros [= <-]; assumption).
  pose proof (phones_canonical_add_phone r0 (c :: s) H0) as H.
  destruct (Record.add_phone (c :: s) r0) as [[u|e] r']; [|discriminate].
  intros [= <-]. exact H.
Qed.

Lemma Record_reachable_canonical (r : Record.t) :
  Record_reachable r -> phones_canonical r.
Proof.
  induction 1;
    eauto using phones_canonical_init, phones_canonical_add_phone,
      phones_canonical_remove_phone, phones_canonical_edit_phone,
      phones_canonical_add_birthday.
Qed.

Lemma canonical_no_separator (v arg : str) :
  canonical_phone v -> has_separator arg -> v <> arg.
Proof.
  intros [Hd _] Hs ->. unfold has_separator, all_digits in *.
  apply Exists_exists in Hs as (c & Hc & Hsep).
  rewrite Forall_forall in Hd.
  apply separator_not_digit in Hsep. rewrite (Hd c Hc) in Hsep. discriminate.
Qed.

Lemma find_phone_in_none (arg : str) (ps : list Phone) :
  Forall (fun p => value p <> arg) ps -> Record.find_phone_in arg ps = None.
Proof.
  induction 1 as [|p ps Hp _ IH]; simpl; [reflexivity|].
  unfold str_eqb. rewrite bool_decide_eq_false_2; assumption.
Qed.

Lemma filter_keeps_all (arg : str) (ps : list Phone) :
  Forall (fun p => value p <> arg) ps ->
  List.filter (fun p => negb (str_eqb (value p) arg)) ps = ps.
Proof.
  induction 1 as [|p ps Hp _ IH]; simpl; [reflexivity|].
  unfold str_eqb at 1. rewrite bool_decide_eq_false_2; [|assumption].
  simpl. rewrite IH. reflexivity.
Qed.

(** C10: every phone of a record built and changed through its methods is a
    text of length 10 or 12 made only of digits in the sense of
    [str.isdigit], the digits 0 to 9 and the other digit characters of
    Unicode; hence a lookup argument that contains
    ['+'], ['-'] or a space matches no stored phone: [find_phone] returns
    [None], [remove_phone] changes nothing and [edit_phone] fails. *)
Theorem stored_phones_canonical (r : Record.t) (arg new_phone : str) :
  Record_reachable r ->
  has_separator arg ->
  phones_canonical r
  /\ Record.find_phone arg r = None
  /\ Record.remove_phone arg r = (Ok tt, r)
  /\ Record.edit_phone arg new_phone r = (Raise Record.old_not_found, r).
Proof.
  intros Hr Hs. pose proof (Record_reachable_canonical r Hr) as Hc.
  assert (Forall (fun p => value p <> arg) (Record.phones r)) as Hne.
  { unfold phones_canonical in Hc. rewrite Forall_forall in Hc.
    apply Forall_forall. intros p Hp.
    apply canonical_no_separator; [apply Hc|]; assumption. }
  split; [assumption|]. split; [|split].
  - apply find_phone_in_none. assumption.
  - unfold Record.remove_phone. rewrite filter_keeps_all by assumption.
    rewrite with_phones_same. reflexivity.
  - apply edit_phone_not_found. assumption.
Qed.

(** C10, as the claim has it, fails: [add_phone] stores ten times U+00B2,
    SUPERSCRIPT TWO, in a record built through its methods, and none of
    these characters is one of the digits 0 to 9. *)
Lemma stored_phone_of_superscript_two :
  let r := snd (Record.add_phone (replicate 10 178%N)
                  (Record.mk (Name.init (py "Ann")) [] [] None)) in
  Record_reachable r
  /\ Record.phones r = [mkField (replicate 10 178%N)]
  /\ existsb ascii_digit (replicate 10 178%N) = false.
Proof.
  intros r. split.
  - apply reach_add_phone. apply (reach_init (py "Ann") None []). reflexivity.
  - vm_compute. split; reflexivity.
Qed.

Lemma stored_phones_canonical_witness :
  let r := Record.mk (Name.init (py "Ann")) [mkField (py "380501234567")] [] None in
  phones_canonical r
  /\ Record.find_phone (py "+380501234567") r = None
  /\ Record.remove_phone (py "+380501234567") r = (Ok tt, r)
  /\ Record.edit_phone (py "+380501234567") (py "0987654321") r
     = (Raise Record.old_not_found, r).
Proof.
  apply stored_phones_canonical.
  - apply (reach_init (py "Ann") (Some (py "+38 050-123-45-67")) []).
    vm_compute. reflexivity.
  - apply Exists_cons_hd. vm_compute. reflexivity.
Defined.

(** ** dict *)

Section Dict.

Context {V : Type}.
Implicit Types (d : dict.t V) (k : str) (v : V).

Lemma dict_get_setitem_eq d k v : dict.get (dict.setitem d k v) k = Some v.
Proof.
  induction d as [|[k' v'] d IH]; simpl; unfold str_eqb.
  - rewrite bool_decide_eq_true_2; reflexivity.
  - case_bool_decide as E; simpl; unfold str_eqb.
    + rewrite bool_decide_eq_true_2; [reflexivity | assumption].
    + rewrite bool_decide_eq_false_2; assumption.
Qed.

Lemma dict_get_setitem_ne d k k' v :
  k' <> k -> dict.get (dict.setitem d k v) k' = dict.get d k'.
Proof.
  intros Hne. induction d as [|[k0 v0] d IH]; simpl; unfold str_eqb.
  - rewrite bool_decide_eq_false_2; [reflexivity | congruence].
  - case_bool_decide as E; simpl; unfold str_eqb.
    + subst k0. rewrite !bool_decide_eq_false_2 by congruence. reflexivity.
    + rewrite IH. reflexivity.
Qed.

Lemma dict_setitem_Forall (P : str * V -> Prop) d k v :
  Forall P d -> (forall k0, k0 = k -> P (k0, v)) -> Forall P (dict.setitem d k v).
Proof.
  intros Hd Hk. induction Hd as [|[k' v'] d Hx Hd IH]; simpl.
  - constructor; [apply Hk; reflexivity | constructor].
  - unfold str_eqb. case_bool_decide as E; constructor; auto.
Qed.

Lemma dict_pop_Forall (P : str * V -> Prop) d k :
  Forall P d -> Forall P (dict.pop d k).
Proof.
  induction 1 as [|[k' v'] d Hx Hd IH]; simpl; [constructor|].
  unfold str_eqb. case_bool_decide; [assumption | constructor; assumption].
Qed.

Lemma dict_keys_setitem d k v k0 :
  In k0 (dict.keys (dict.setitem d k v)) -> k0 = k \/ In k0 (dict.keys d).
Proof.
  induction d as [|[k' v'] d IH]; simpl.
  - intros [<-|[]]. left; reflexivity.
  - unfold str_eqb. case_bool_decide as E; simpl; [right; assumption|].
    intros [<-|H]; [right; left; reflexivity|].
    destruct (IH H) as [->|H']; [left; reflexivity | right; right; assumption].
Qed.

Lemma dict_keys_pop d k k0 :
  In k0 (dict.keys (dict.pop d k)) -> In k0 (dict.keys d).
Proof.
  induction d as [|[k' v'] d IH]; simpl; [auto|].
  unfold str_eqb. case_bool_decide as E; simpl; [auto|].
  intros [<-|H]; [left; reflexivity | right; auto].
Qed.

Lemma dict_setitem_NoDup d k v :
  List.NoDup (dict.keys d) -> List.NoDup (dict.keys (dict.setitem d k v)).
Proof.
  induction d as [|[k' v'] d IH]; simpl; intros Hnd.
  - constructor; [intros [] | constructor].
  - apply List.NoDup_cons_iff in Hnd as [Hk' Hnd].
    unfold str_eqb. case_bool_decide as E; simpl.
    + constructor; assumption.
    + constructor; [|auto].
      intros H. apply dict_keys_setitem in H as [->|H]; contradiction.
Qed.

Lemma dict_pop_NoDup d k :
  List.NoDup (dict.keys d) -> List.NoDup (dict.keys (dict.pop d k)).
Proof.
  induction d as [|[k' v'] d IH]; simpl; intros Hnd; [assumption|].
  apply List.NoDup_cons_iff in Hnd as [Hk' Hnd].
  unfold str_eqb. case_bool_decide as E; simpl; [assumption|].
  constructor; [|auto].
  intros H. apply dict_keys_pop in H. contradiction.
Qed.

End Dict.

(** ** AddressBook: keys and names *)

Lemma add_record_keys_are_names (record : Record.t) (book : AddressBook.t) :
  keys_are_names book -> keys_are_names (AddressBook.add_record record book).
Proof.
  unfold keys_are_names, AddressBook.add_record, dict.items. simpl. intros H.
  apply dict_setitem_Forall; [assumption|]. intros k0 ->. reflexivity.
Qed.

Lemma delete_keys_are_names (name : str) (book : AddressBook.t) :
  keys_are_names book -> keys_are_names (AddressBook.delete name book).
Proof.
  unfold keys_are_names, AddressBook.delete, dict.items. simpl.
  apply dict_pop_Forall.
Qed.

Lemma do_calls_invariant (calls : list book_call) (book : AddressBook.t) :
  keys_are_names book /\ List.NoDup (dict.keys (AddressBook.data book)) ->
  keys_are_names (fold_left do_call calls book)
  /\ List.NoDup (dict.keys (AddressBook.data (fold_left do_call calls book))).
Proof.
  revert book. induction calls as [|c calls IH]; intros book [Hk Hn]; simpl.
  - split; assumption.
  - apply IH. destruct c as [record|name]; simpl.
    + split; [apply add_record_keys_are_names; assumption|].
      apply dict_setitem_NoDup. assumption.
    + split; [apply delete_keys_are_names; assumption|].
      apply dict_pop_NoDup. assumption.
Qed.

(** C7: in every address book obtained from a new one by [add_record] and
    [delete], the keys are unique and each is the name of its record;
    [add_record] stores the record under its name, whatever was there, and
    leaves the entry of every other name as it was; [add_record] and [delete]
    keep keys equal to names. *)
Theorem add_record_spec (calls : list book_call) (record : Record.t)
    (other gone : str) :
  other <> value (Record.name record) ->
  let book := book_after calls in
  keys_are_names book
  /\ List.NoDup (dict.keys (AddressBook.data book))
  /\ AddressBook.find (value (Record.name record))
       (AddressBook.add_record record book) = Some record
  /\ AddressBook.find other (AddressBook.add_record record book)
     = AddressBook.find other book
  /\ keys_are_names (AddressBook.add_record record book)
  /\ keys_are_names (AddressBook.delete gone book).
Proof.
  intros Hne book.
  destruct (do_calls_invariant calls AddressBook.init) as [Hk Hn].
  { split; constructor. }
  fold (book_after calls) in Hk, Hn. fold book in Hk, Hn.
  repeat split; try assumption.
  - apply dict_get_setitem_eq.
  - unfold AddressBook.find, AddressBook.add_record. simpl.
    apply dict_get_setitem_ne. assumption.
  - apply add_record_keys_are_names. assumption.
  - apply delete_keys_are_names. assumption.
Qed.

Lemma add_record_spec_witness :
  let ann := Record.mk (Name.init (py "Ann")) [mkField (py "1234567890")] [] None in
  let ann' := Record.mk (Name.init (py "Ann")) [] (py "ann@example.org") None in
  let bob := Record.mk (Name.init (py "Bob")) [] [] None in
  let book := book_after [call_add_record ann; call_add_record bob] in
  keys_are_names book
  /\ List.NoDup (dict.keys (AddressBook.data book))
  /\ AddressBook.find (py "Ann") (AddressBook.add_record ann' book) = Some ann'
  /\ AddressBook.find (py "Bob") (AddressBook.add_record ann' book)
     = AddressBook.find (py "Bob") book
  /\ keys_are_names (AddressBook.add_record ann' book)
  /\ keys_are_names (AddressBook.delete (py "Bob") book).
Proof.
  intros ann ann' bob.
  apply (add_record_spec [call_add_record ann; call_add_record bob] ann'
           (py "Bob") (py "Bob")).
  vm_compute. discriminate.
Defined.

(** ** The matcher against what a pattern consumes *)

Lemma one_char_some {A} (p : char -> bool) (s : str) (k : str -> option A) (a : A) :
  one_char p s k = Some a ->
  exists c s', s = c :: s' /\ p c = true /\ k s' = Some a.
Proof.
  destruct s as [|c s']; simpl; [discriminate|].
  destruct (p c) eqn:E; [|discriminate]. eauto.
Qed.

Lemma take_consumed (p s' : str) :
  take (length (p ++ s') - length s') (p ++ s') = p.
Proof.
  rewrite length_app.
  replace (length p + length s' - length s')%nat with (length p) by lia.
  apply take_app_length.
Qed.

(** Whatever [rmatch] returns comes from its continuation, called after a
    text that the pattern consumes. *)
Lemma rmatch_sound {A} (r : regex) :
  forall (s : str) (g : groupdict) (k : str -> groupdict -> option A) (a : A),
    rmatch r s g k = Some a ->
    exists p s' g', s = p ++ s' /\ consumes r p g g' /\ k s' g' = Some a.
Proof.
  induction r as [c|lo hi| |r1 IH1 r2 IH2|r1 IH1 r2 IH2|name r1 IH1];
    intros s g k a H; simpl in H.
  - apply one_char_some in H as (x & s' & -> & Hx & Hk).
    apply N.eqb_eq in Hx as ->.
    exists [c], s', g. split; [reflexivity|]. split; [constructor | assumption].
  - apply one_char_some in H as (x & s' & -> & Hx & Hk).
    exists [x], s', g. split; [reflexivity|]. split; [constructor|]; assumption.
  - apply one_char_some in H as (x & s' & -> & Hx & Hk).
    exists [x], s', g. split; [reflexivity|]. split; [constructor|]; assumption.
  - apply IH1 in H as (p1 & s1 & g1 & -> & H1 & H).
    apply IH2 in H as (p2 & s2 & g2 & -> & H2 & H).
    exists (p1 ++ p2), s2, g2. rewrite <- app_assoc.
    split; [reflexivity|]. split; [econstructor; eassumption | assumption].
  - destruct (rmatch r1 s g k) as [a1|] eqn:E1.
    + injection H as ->. apply IH1 in E1 as (p & s' & g' & -> & Hc & Hk).
      exists p, s', g'. split; [reflexivity|].
      split; [apply consumes_alt_l|]; assumption.
    + apply IH2 in H as (p & s' & g' & -> & Hc & Hk).
      exists p, s', g'. split; [reflexivity|].
      split; [apply consumes_alt_r|]; assumption.
  - apply IH1 in H as (p & s' & g' & -> & Hc & Hk).
    rewrite take_consumed in Hk.
    exists p, s', ((name, p) :: g'). split; [reflexivity|].
    split; [constructor|]; assumption.
Qed.

(** [rmatch] finds a result whenever the pattern consumes a prefix after
    which the continuation succeeds. *)
Lemma rmatch_complete {A} (r : regex) (p : str) (g g' : groupdict) :
  consumes r p g g' ->
  forall (s' : str) (k : str -> groupdict -> option A),
    is_Some (k s' g') -> is_Some (rmatch r (p ++ s') g k).
Proof.
  induction 1 as [c g|lo hi c g Hc|c g Hc|r1 r2 p1 p2 g g1 g2 _ IH1 _ IH2
                 |r1 r2 p g g' _ IH|r1 r2 p g g' _ IH|name r p g g' _ IH];
    intros s' k Hk; simpl.
  - rewrite N.eqb_refl. assumption.
  - rewrite Hc. assumption.
  - rewrite Hc. assumption.
  - rewrite <- app_assoc. apply IH1. apply IH2. assumption.
  - destruct (IH s' k Hk) as [a Ha]. rewrite Ha. eauto.
  - destruct (rmatch r1 (p ++ s') g k); [eauto|]. apply IH. assumption.
  - apply IH. rewrite take_consumed. assumption.
Qed.

(** ** The fields of the pattern for ["%d.%m.%Y"] *)

Lemma consumes_directive_d (D : str) (g g' : groupdict) :
  consumes directive_d D g g' <-> day_field D = true /\ g' = (py "d", D) :: g.
Proof.
  unfold directive_d. split.
  - intros H. inv_consumes; (split; [|reflexivity]); simpl;
      repeat match goal with H : _ = true |- _ => rewrite H; clear H end;
      rewrite ?orb_true_r; reflexivity.
  - intros [H ->]. constructor.
    destruct D as [|a [|b [|c D]]]; simpl in H; try discriminate.
    + do 3 apply consumes_alt_r. apply consumes_alt_l. constructor. assumption.
    + bool_to_prop.
      * apply consumes_alt_l. eapply (consumes_cat _ _ [_] [_]); constructor; assumption.
      * apply consumes_alt_r, consumes_alt_l.
        eapply (consumes_cat _ _ [_] [_]); constructor; assumption.
      * do 2 apply consumes_alt_r. apply consumes_alt_l.
        eapply (consumes_cat _ _ [_] [_]); constructor; assumption.
      * do 4 apply consumes_alt_r.
        eapply (consumes_cat _ _ [_] [_]); constructor; assumption.
Qed.

Lemma consumes_directive_m (M : str) (g g' : groupdict) :
  consumes directive_m M g g' <-> month_field M = true /\ g' = (py "m", M) :: g.
Proof.
  unfold directive_m. split.
  - intros H. inv_consumes; (split; [|reflexivity]); simpl;
      repeat match goal with H : _ = true |- _ => rewrite H; clear H end;
      rewrite ?orb_true_r; reflexivity.
  - intros [H ->]. constructor.
    destruct M as [|a [|b [|c M]]]; simpl in H; try discriminate.
    + do 2 apply consumes_alt_r. constructor. assumption.
    + bool_to_prop.
      * apply consumes_alt_l. eapply (consumes_cat _ _ [_] [_]); constructor; assumption.
      * apply consumes_alt_r, consumes_alt_l.
        eapply (consumes_cat _ _ [_] [_]); constructor; assumption.
Qed.

Lemma consumes_directive_Y (Y : str) (g g' : groupdict) :
  consumes directive_Y Y g g' <-> year_field Y = true /\ g' = (py "Y", Y) :: g.
Proof.
  unfold directive_Y. split.
  - intros H. inv_consumes. split; [|reflexivity]. simpl.
    repeat match goal with H : _ = true |- _ => rewrite H; clear H end.
    reflexivity.
  - intros [H ->]. constructor.
    destruct Y as [|a [|b [|c [|d [|e Y]]]]]; simpl in H; try discriminate.
    bool_to_prop.
    eapply (consumes_cat _ _ [_] [_; _; _]); [constructor; assumption|].
    eapply (consumes_cat _ _ [_] [_; _]); [constructor; assumption|].
    eapply (consumes_cat _ _ [_] [_]); constructor; assumption.
Qed.

Lemma consumes_format_regex (p : str) (g' : groupdict) :
  consumes format_regex p [] g' <->
  exists D M Y,
    p = D ++ py "." ++ M ++ py "." ++ Y
    /\ day_field D = true /\ month_field M = true /\ year_field Y = true
    /\ g' = [(py "Y", Y); (py "m", M); (py "d", D)].
Proof.
  unfold format_regex. split.
  - intros H. inv_consumes.
    repeat match goal with
      | H : consumes directive_d _ _ _ |- _ =>
          apply consumes_directive_d in H as [? ->]
      | H : consumes directive_m _ _ _ |- _ =>
          apply consumes_directive_m in H as [? ->]
      | H : consumes directive_Y _ _ _ |- _ =>
          apply consumes_directive_Y in H as [? ->]
      end.
    eexists _, _, _. repeat split; eassumption.
  - intros (D & M & Y & -> & HD & HM & HY & ->).
    econstructor; [apply consumes_directive_d; split; [eassumption|reflexivity]|].
    eapply (consumes_cat _ _ [_]); [apply consumes_chr|].
    econstructor; [apply consumes_directive_m; split; [eassumption|reflexivity]|].
    eapply (consumes_cat _ _ [_]); [apply consumes_chr|].
    apply consumes_directive_Y. split; [assumption|reflexivity].
Qed.

(** ** Calendar dates *)

Lemma is_leap_spec (y : Z) : _is_leap y = true <-> leap_year y.
Proof.
  unfold _is_leap, leap_year.
  rewrite andb_true_iff, orb_true_iff, negb_true_iff, !Z.eqb_eq, Z.eqb_neq.
  rewrite <- !Z.mod_divide by lia. tauto.
Qed.

Lemma is_leap_false (y : Z) : _is_leap y = false <-> ~ leap_year y.
Proof.
  rewrite <- is_leap_spec. destruct (_is_leap y); split; congruence.
Qed.

Lemma days_in_month_spec (y m n : Z) :
  1 <= m <= 12 -> (_days_in_month y m = n <-> month_length y m n).
Proof.
  intros Hm. unfold month_length.
  assert (m = 1 \/ m = 2 \/ m = 3 \/ m = 4 \/ m = 5 \/ m = 6 \/ m = 7 \/ m = 8
          \/ m = 9 \/ m = 10 \/ m = 11 \/ m = 12) as Hcases by lia.
  unfold _days_in_month.
  destruct (_is_leap y) eqn:Hl;
    [apply is_leap_spec in Hl | apply is_leap_false in Hl];
    repeat (destruct Hcases as [->|Hcases]); try subst m; simpl; eval_index;
    (split; [intros <-; pick_disjunct | intuition lia]).
Qed.

Lemma date_new_spec (y m d : Z) (dt : date.t) :
  date.new y m d = Ok dt <-> calendar_date y m d /\ dt = date.mk y m d.
Proof.
  unfold date.new, date._check_date_fields, calendar_date, MINYEAR, MAXYEAR.
  destruct ((1 <=? y) && (y <=? 9999)) eqn:Hy; simpl.
  2:{ split; [discriminate|]. intros [[Hr _] _]. exfalso.
      apply andb_false_iff in Hy as [Hy|Hy]; lia. }
  apply andb_true_iff in Hy as [Hy1 Hy2].
  destruct ((1 <=? m) && (m <=? 12)) eqn:Hm; simpl.
  2:{ split; [discriminate|]. intros [[_ (n & Hn & _)] _]. exfalso.
      apply andb_false_iff in Hm. unfold month_length in Hn.
      destruct Hm as [Hm|Hm]; intuition lia. }
  apply andb_true_iff in Hm as [Hm1 Hm2].
  assert (1 <= m <= 12) as Hm by lia.
  destruct ((1 <=? d) && (d <=? _days_in_month y m)) eqn:Hd; simpl.
  - apply andb_true_iff in Hd as [Hd1 Hd2]. split.
    + intros [= <-]. split; [|reflexivity]. split; [lia|].
      exists (_days_in_month y m). split; [|lia].
      apply days_in_month_spec; [assumption | reflexivity].
    + intros [_ ->]. reflexivity.
  - split; [discriminate|]. intros [[_ (n & Hn & Hdn)] _]. exfalso.
    apply days_in_month_spec in Hn; [|assumption].
    apply andb_false_iff in Hd as [Hd|Hd]; lia.
Qed.

Lemma date_new_raises (y m d : Z) (e : exn) :
  date.new y m d = Raise e -> e = Exn ValueError None.
Proof.
  unfold date.new, date._check_date_fields.
  repeat (destruct (negb _); simpl; [intros [= <-]; reflexivity|]).
  discriminate.
Qed.

(** ** [strptime] *)

Lemma split_at_dot (D D' R R' : str) :
  ~ In dot D -> ~ In dot D' ->
  D ++ dot :: R = D' ++ dot :: R' -> D = D' /\ R = R'.
Proof.
  revert D'. induction D as [|a D IH]; intros [|a' D'] HD HD' H; simpl in *.
  - injection H as ->. split; reflexivity.
  - injection H as <- _. exfalso. apply HD'. left; reflexivity.
  - injection H as -> _. exfalso. apply HD. left; reflexivity.
  - injection H as -> H.
    destruct (IH D') as [-> ->]; [tauto | tauto | assumption | split; reflexivity].
Qed.

Lemma day_field_no_dot (D : str) : day_field D = true -> ~ In dot D.
Proof.
  destruct D as [|a [|b [|c D]]]; simpl; try discriminate; intros H HI;
    repeat (destruct HI as [->|HI]); try contradiction;
    repeat (first [apply orb_true_iff in H as [H|H]
                  | let H' := fresh in apply andb_true_iff in H as [H H']]);
    absurd_dot.
Qed.

Lemma month_field_no_dot (M : str) : month_field M = true -> ~ In dot M.
Proof.
  destruct M as [|a [|b [|c M]]]; simpl; try discriminate; intros H HI;
    repeat (destruct HI as [->|HI]); try contradiction;
    repeat (first [apply orb_true_iff in H as [H|H]
                  | let H' := fresh in apply andb_true_iff in H as [H H']]);
    absurd_dot.
Qed.

Lemma year_field_length (Y : str) : year_field Y = true -> length Y = 4%nat.
Proof.
  destruct Y as [|a [|b [|c [|d [|e Y]]]]]; simpl; try discriminate. reflexivity.
Qed.

(** A text has at most one reading as day.month.year followed by a rest. *)
Lemma day_month_year_unique (D M Y D' M' Y' rest : str) :
  day_field D = true -> month_field M = true -> year_field Y = true ->
  day_field D' = true -> month_field M' = true -> year_field Y' = true ->
  D ++ py "." ++ M ++ py "." ++ Y = (D' ++ py "." ++ M' ++ py "." ++ Y') ++ rest ->
  D = D' /\ M = M' /\ Y = Y' /\ rest = [].
Proof.
  intros HD HM HY HD' HM' HY' H.
  change (py ".") with [dot] in H. simpl in H.
  rewrite <- !app_assoc in H. simpl in H. rewrite <- !app_assoc in H. simpl in H.
  apply split_at_dot in H as [<- H]; auto using day_field_no_dot.
  apply split_at_dot in H as [<- H]; auto using month_field_no_dot.
  apply year_field_length in HY, HY'.
  assert (length Y = length (Y' ++ rest)) as Hlen by (rewrite H; reflexivity).
  rewrite length_app in Hlen.
  destruct rest; [|simpl in Hlen; lia].
  rewrite app_nil_r in H. auto.
Qed.

Lemma group_found_dict (D M Y : str) :
  group [(py "Y", Y); (py "m", M); (py "d", D)] (py "d") = D
  /\ group [(py "Y", Y); (py "m", M); (py "d", D)] (py "m") = M
  /\ group [(py "Y", Y); (py "m", M); (py "d", D)] (py "Y") = Y.
Proof.
  simpl. unfold str_eqb.
  repeat split;
    repeat first
      [ rewrite bool_decide_eq_true_2 by reflexivity
      | rewrite bool_decide_eq_false_2 by (vm_compute; discriminate) ];
    reflexivity.
Qed.

(** The first match of the pattern, when the text is day.month.year. *)
Lemma re_match_day_month_year (D M Y : str) :
  day_field D = true -> month_field M = true -> year_field Y = true ->
  re_match format_regex (D ++ py "." ++ M ++ py "." ++ Y)
  = Some (len (D ++ py "." ++ M ++ py "." ++ Y),
          [(py "Y", Y); (py "m", M); (py "d", D)]).
Proof.
  intros HD HM HY. set (raw := D ++ py "." ++ M ++ py "." ++ Y).
  assert (consumes format_regex raw [] [(py "Y", Y); (py "m", M); (py "d", D)])
    as Hc.
  { apply consumes_format_regex. exists D, M, Y. auto. }
  unfold re_match.
  pose proof (rmatch_complete (A := Z * groupdict) _ _ _ _ Hc []
                (fun s' g => Some (len raw - len s', g))) as Hsome.
  rewrite app_nil_r in Hsome.
  destruct Hsome as [[e fd] Hm]; [eauto|].
  rewrite Hm.
  apply rmatch_sound in Hm as (p & s' & g' & Hraw & Hp & Hk).
  apply consumes_format_regex in Hp as (D' & M' & Y' & -> & HD' & HM' & HY' & ->).
  destruct (day_month_year_unique D M Y D' M' Y' s') as (<- & <- & <- & ->);
    try assumption.
  injection Hk as <- <-. unfold len. simpl. f_equal. f_equal. lia.
Qed.

(** The pattern matches the whole text only if it is day.month.year. *)
Lemma re_match_whole (raw : str) (found_dict : groupdict) :
  re_match format_regex raw = Some (len raw, found_dict) ->
  exists D M Y,
    raw = D ++ py "." ++ M ++ py "." ++ Y
    /\ day_field D = true /\ month_field M = true /\ year_field Y = true
    /\ found_dict = [(py "Y", Y); (py "m", M); (py "d", D)].
Proof.
  unfold re_match. intros H.
  apply rmatch_sound in H as (p & s' & g' & Hraw & Hp & Hk).
  injection Hk as Hlen <-.
  assert (s' = []) as -> by (destruct s'; [reflexivity | unfold len in Hlen; simpl in Hlen; lia]).
  rewrite app_nil_r in Hraw. subst p.
  apply consumes_format_regex in Hp. exact Hp.
Qed.

Lemma int_raises (t : str) (e : exn) : int t = Raise e -> e = Exn ValueError None.
Proof.
  unfold int. destruct (strip t); [intros [= <-]; reflexivity|].
  destruct (digits_value _ _); [discriminate | intros [= <-]; reflexivity].
Qed.

Lemma strptime_raises (raw : str) (e : exn) :
  strptime raw = Raise e -> e = Exn ValueError None.
Proof.
  unfold strptime, _strptime.
  destruct (re_match format_regex raw) as [[end_ found_dict]|];
    [|intros [= <-]; reflexivity].
  destruct (negb _); [intros [= <-]; reflexivity|].
  destruct (int (group found_dict (py "d"))) as [d|e1] eqn:Hd; simpl;
    [|intros [= <-]; eapply int_raises; eassumption].
  destruct (int (group found_dict (py "m"))) as [m|e1] eqn:Hm; simpl;
    [|intros [= <-]; eapply int_raises; eassumption].
  destruct (int (group found_dict (py "Y"))) as [y|e1] eqn:Hy; simpl;
    [|intros [= <-]; eapply int_raises; eassumption].
  destruct (date.new y m d) as [dt|e1] eqn:Hn; simpl.
  - rewrite Hn. discriminate.
  - intros [= <-]. eapply date_new_raises; eassumption.
Qed.

(** [strptime] returns a date exactly for the texts that read as
    day.month.year and denote an existing calendar date. *)
Lemma strptime_spec (raw : str) (dt : date.t) :
  strptime raw = Ok dt <->
  exists y m d, day_month_year raw y m d /\ dt = date.mk y m d.
Proof.
  unfold strptime, _strptime, day_month_year. split.
  - destruct (re_match format_regex raw) as [[end_ found_dict]|] eqn:Hre;
      [|discriminate].
    destruct (len raw =? end_) eqn:Hlen; simpl; [|discriminate].
    apply Z.eqb_eq in Hlen. subst end_.
    apply re_match_whole in Hre as (D & M & Y & -> & HD & HM & HY & ->).
    destruct (group_found_dict D M Y) as (Hgd & Hgm & HgY).
    unfold str in *. rewrite Hgd, Hgm, HgY. clear Hgd Hgm HgY.
    destruct (int D) as [d|] eqn:Hd; simpl; [|discriminate].
    destruct (int M) as [m|] eqn:Hm; simpl; [|discriminate].
    destruct (int Y) as [y|] eqn:Hy; simpl; [|discriminate].
    destruct (date.new y m d) as [dt'|] eqn:Hn; simpl; [|discriminate].
    rewrite Hn. intros [= <-].
    apply date_new_spec in Hn as [Hc ->].
    exists y, m, d. split; [|reflexivity].
    exists D, M, Y. solve_conj.
  - intros (y & m & d & (D & M & Y & -> & HD & HM & HY & Hd & Hm & Hy & Hc) & ->).
    rewrite (re_match_day_month_year D M Y HD HM HY).
    rewrite Z.eqb_refl. cbn [negb].
    destruct (group_found_dict D M Y) as (Hgd & Hgm & HgY).
    unfold str in *. rewrite Hgd, Hgm, HgY. clear Hgd Hgm HgY.
    rewrite Hd, Hm, Hy. cbn [bind].
    assert (date.new y m d = Ok (date.mk y m d)) as Hn
      by (apply date_new_spec; split; [assumption | reflexivity]).
    rewrite Hn. cbn [bind]. exact Hn.
Qed.

(** ** Birthday *)

(** C5, as the code has it: construction of a [Birthday] succeeds exactly
    for the texts day.month.year in the reading of [strptime] (a day of one
    or two characters, a month of one or two characters, a year of four
    decimal characters) that denote an existing calendar date, and the value
    stored is then the text itself. *)
Theorem Birthday_init_spec (raw : str) (b : Birthday) :
  Birthday.init raw = Ok b <->
  (exists y m d, day_month_year raw y m d) /\ value b = raw.
Proof.
  unfold Birthday.init. split.
  - destruct (strptime raw) as [dt|e] eqn:Hs.
    + intros [= <-]. split; [|reflexivity].
      apply strptime_spec in Hs as (y & m & d & H & _). eauto.
    + destruct (caught_by _ e); discriminate.
  - intros [(y & m & d & H) Hv].
    assert (strptime raw = Ok (date.mk y m d)) as ->
      by (apply strptime_spec; eauto).
    destruct b as [v]. simpl in Hv. subst v. reflexivity.
Qed.

(** Any other text is rejected with the date error. *)
Lemma Birthday_init_invalid (raw : str) :
  ~ (exists y m d, day_month_year raw y m d) ->
  Birthday.init raw = Raise Birthday.invalid.
Proof.
  intros Hn. unfold Birthday.init.
  destruct (strptime raw) as [dt|e] eqn:Hs.
  - exfalso. apply Hn. apply strptime_spec in Hs as (y & m & d & H & _). eauto.
  - apply strptime_raises in Hs as ->. reflexivity.
Qed.

(** C5, as the claim has it, fails: a day and a month of one digit are
    accepted although the text is not in the format DD.MM.YYYY. *)
Lemma Birthday_init_accepts_short_fields :
  Birthday.init (py "1.1.2024") = Ok (mkField (py "1.1.2024"))
  /\ DD_MM_YYYY (py "1.1.2024") = false.
Proof. vm_compute. split; reflexivity. Qed.

Example Birthday_init_ex1 :
  Birthday.init (py "31.02.2024") = Raise Birthday.invalid.
Proof. vm_compute. reflexivity. Qed.

Example Birthday_init_ex2 :
  Birthday.init (py "15.06.1990") = Ok (mkField (py "15.06.1990")).
Proof. vm_compute. reflexivity. Qed.

Example Birthday_init_ex3 :
  Birthday.init (py "29.02.1900") = Raise Birthday.invalid
  /\ Birthday.init (py "01.01.0000") = Raise Birthday.invalid
  /\ Birthday.init (py "01.01.20240") = Raise Birthday.invalid.
Proof. vm_compute. repeat split; reflexivity. Qed.

(** ** Dates written exactly as DD.MM.YYYY *)

Lemma ascii_digit_cases (c : char) :
  ascii_digit c = true ->
  In c [48; 49; 50; 51; 52; 53; 54; 55; 56; 57]%N.
Proof.
  unfold ascii_digit, in_range. change (chr "0") with 48%N.
  change (chr "9") with 57%N.
  rewrite andb_true_iff, !N.leb_le. simpl. lia.
Qed.

Lemma ascii_digit_isdecimal (c : char) :
  ascii_digit c = true -> isdecimal_char c = true.
Proof.
  intros H. apply ascii_digit_cases in H. simpl in H.
  repeat (destruct H as [<-|H]; [vm_compute; reflexivity|]). destruct H.
Qed.

Lemma ascii_day_field (c1 c2 : char) (d : Z) :
  ascii_digit c1 = true -> ascii_digit c2 = true ->
  int [c1; c2] = Ok d -> 1 <= d <= 31 -> day_field [c1; c2] = true.
Proof.
  intros H1 H2 Hd Hr.
  apply ascii_digit_cases in H1, H2. simpl in H1, H2.
  repeat (destruct H1 as [<-|H1]); try contradiction;
    repeat (destruct H2 as [<-|H2]); try contradiction;
    vm_compute in Hd; injection Hd as <-;
    first [vm_compute; reflexivity | lia].
Qed.

Lemma ascii_month_field (c1 c2 : char) (m : Z) :
  ascii_digit c1 = true -> ascii_digit c2 = true ->
  int [c1; c2] = Ok m -> 1 <= m <= 12 -> month_field [c1; c2] = true.
Proof.
  intros H1 H2 Hm Hr.
  apply ascii_digit_cases in H1, H2. simpl in H1, H2.
  repeat (destruct H1 as [<-|H1]); try contradiction;
    repeat (destruct H2 as [<-|H2]); try contradiction;
    vm_compute in Hm; injection Hm as <-;
    first [vm_compute; reflexivity | lia].
Qed.

Lemma calendar_date_ranges (y m d : Z) :
  calendar_date y m d -> 1 <= m <= 12 /\ 1 <= d <= 31.
Proof.
  intros [_ (n & Hn & Hd)]. unfold month_length in Hn. intuition lia.
Qed.

(** The direction of C5 that holds as the claim has it: an existing date
    written exactly as DD.MM.YYYY is accepted and stored verbatim. *)
Lemma Birthday_init_exact_format (raw : str) (y m d : Z) :
  DD_MM_YYYY raw = true ->
  int (take 2 raw) = Ok d ->
  int (take 2 (drop 3 raw)) = Ok m ->
  int (drop 6 raw) = Ok y ->
  calendar_date y m d ->
  Birthday.init raw = Ok (mkField raw).
Proof.
  intros Hfmt Hd Hm Hy Hc.
  destruct raw as [|d1 [|d2 [|p1 [|m1 [|m2 [|p2 [|y1 [|y2 [|y3 [|y4 [|x raw]]]]]]]]]]];
    try discriminate.
  simpl in Hfmt, Hd, Hm, Hy.
  repeat match goal with
    | H : (_ && _) = true |- _ =>
        let H' := fresh "Hf" in apply andb_true_iff in H as [H H']
    end.
  repeat match goal with
    | H : (_ =? chr ".")%N = true |- _ => apply N.eqb_eq in H; subst
    end.
  destruct (calendar_date_ranges y m d Hc) as [Hmr Hdr].
  assert (strptime [d1; d2; chr "."; m1; m2; chr "."; y1; y2; y3; y4]
          = Ok (date.mk y m d)) as Hs.
  { apply strptime_spec. exists y, m, d. split; [|reflexivity].
    exists [d1; d2], [m1; m2], [y1; y2; y3; y4].
    split; [reflexivity|].
    split; [eapply ascii_day_field; eassumption|].
    split; [eapply ascii_month_field; eassumption|].
    split; [simpl; rewrite !ascii_digit_isdecimal by assumption; reflexivity|].
    auto. }
  unfold Birthday.init. rewrite Hs. reflexivity.
Qed.

Example Birthday_init_exact_format_ex :
  Birthday.init (py "29.02.2024") = Ok (mkField (py "29.02.2024")).
Proof.
  apply (Birthday_init_exact_format _ 2024 2 29);
    try (vm_compute; reflexivity).
  split; [lia|]. exists 29. split; [|lia].
  right; left. split; [reflexivity|]. split; [|reflexivity].
  split; [exists 506; reflexivity|].
  left. intros [k Hk]. lia.
Qed.

(** ** [strptime], [date] and [strftime] on examples *)

Example strptime_examples :
  strptime (py "15.06.1990") = Ok (date.mk 1990 6 15)
  /\ strptime (py " 1.1.2024") = Ok (date.mk 2024 1 1)
  /\ strptime (py "31.02.2024") = Raise (Exn ValueError None)
  /\ strptime (py "01.01.20240") = Raise (Exn ValueError None)
  /\ strptime (py "001.01.2024") = Raise (Exn ValueError None)
  /\ strptime (py "01.01.999") = Raise (Exn ValueError None).
Proof. vm_compute. repeat split; reflexivity. Qed.

(** U+0665 is ARABIC-INDIC DIGIT FIVE: [\d] matches it and [int] reads it. *)
Example strptime_unicode_digit :
  strptime (py "1" ++ [1637%N] ++ py ".01.2024") = Ok (date.mk 2024 1 15)
  /\ strptime ([1637%N] ++ py ".01.2024") = Raise (Exn ValueError None).
Proof. vm_compute. split; reflexivity. Qed.

Example date_examples :
  date.weekday (date.mk 2024 6 10) = 0
  /\ date.weekday (date.mk 2024 6 15) = 5
  /\ date.add_days (date.mk 2024 6 15) 2 = Ok (date.mk 2024 6 17)
  /\ date.add_days (date.mk 9999 12 31) 1 = Raise (Exn OverflowError None)
  /\ date.sub_days (date.mk 2024 6 14) (date.mk 2024 6 10) = 4
  /\ date.replace_year (date.mk 2000 2 29) 2023 = Raise (Exn ValueError None)
  /\ date.toordinal (date.mk 9999 12 31) = _MAXORDINAL.
Proof. vm_compute. repeat split; reflexivity. Qed.

Example strftime_examples :
  strftime (date.mk 2024 6 7) = py "07.06.2024"
  /\ strftime (date.mk 999 1 1) = py "01.01.999".
Proof. vm_compute. split; reflexivity. Qed.

(** ** Ordinals and dates *)

Lemma all_from_spec (f : Z -> bool) (n : nat) :
  forall start, all_from f start n = true ->
  forall x, start <= x < start + Z.of_nat n -> f x = true.
Proof.
  induction n as [|n IH]; intros start H x Hx; [lia|].
  simpl in H. apply andb_true_iff in H as [H0 H1].
  destruct (Z.eq_dec x start) as [->|Hne]; [assumption|].
  apply (IH (start + 1)); [assumption | lia].
Qed.

Lemma cycle_checked : all_from cycle_check 0 (Z.to_nat _DI400Y) = true.
Proof. vm_compute. reflexivity. Qed.

Lemma is_leap_shift (y q : Z) : _is_leap (y + 400 * q) = _is_leap y.
Proof.
  unfold _is_leap.
  replace (y + 400 * q) with (y + (100 * q) * 4) at 1 by lia.
  replace (y + 400 * q) with (y + (4 * q) * 100) at 1 by lia.
  replace (y + 400 * q) with (y + q * 400) by lia.
  rewrite !Z.mod_add by lia. reflexivity.
Qed.

Lemma days_before_year_shift (y q : Z) :
  _days_before_year (y + 400 * q) = _days_before_year y + _DI400Y * q.
Proof.
  unfold _days_before_year, _DI400Y. cbv zeta.
  replace (y + 400 * q - 1) with (y - 1 + 400 * q) by lia.
  replace ((y - 1 + 400 * q) / 4) with ((y - 1) / 4 + 100 * q)
    by (replace (y - 1 + 400 * q) with (y - 1 + (100 * q) * 4) by lia;
        rewrite Z.div_add by lia; reflexivity).
  replace ((y - 1 + 400 * q) / 100) with ((y - 1) / 100 + 4 * q)
    by (replace (y - 1 + 400 * q) with (y - 1 + (4 * q) * 100) by lia;
        rewrite Z.div_add by lia; reflexivity).
  replace ((y - 1 + 400 * q) / 400) with ((y - 1) / 400 + q)
    by (replace (y - 1 + 400 * q) with (y - 1 + q * 400) by lia;
        rewrite Z.div_add by lia; reflexivity).
  lia.
Qed.

Lemma ymd2ord_shift (y m d q : Z) :
  _ymd2ord (y + 400 * q) m d = _ymd2ord y m d + _DI400Y * q.
Proof.
  unfold _ymd2ord, _days_before_month.
  rewrite days_before_year_shift, is_leap_shift. lia.
Qed.

Lemma days_in_month_shift (y m q : Z) :
  _days_in_month (y + 400 * q) m = _days_in_month y m.
Proof. unfold _days_in_month. rewrite is_leap_shift. reflexivity. Qed.

(** [_ord2ymd] repeats every 400 years. *)
Lemma ord2ymd_shift (o : Z) :
  _ord2ymd o =
  let '(y, m, d) := _ord2ymd ((o - 1) mod _DI400Y + 1) in
  (y + 400 * ((o - 1) / _DI400Y), m, d).
Proof.
  unfold _ord2ymd. cbv zeta.
  replace ((o - 1) mod _DI400Y + 1 - 1) with ((o - 1) mod _DI400Y) by lia.
  assert (0 <= (o - 1) mod _DI400Y < _DI400Y) as Hr
    by (apply Z.mod_pos_bound; unfold _DI400Y; lia).
  rewrite (Z.mod_small ((o - 1) mod _DI400Y) _DI400Y) by assumption.
  rewrite (Z.div_small ((o - 1) mod _DI400Y) _DI400Y) by assumption.
  set (r := (o - 1) mod _DI400Y). set (q := (o - 1) / _DI400Y).
  destruct (_ || _); [f_equal; f_equal; lia|].
  destruct (_ <? _); f_equal; f_equal; lia.
Qed.

(** [_ord2ymd] inverts [_ymd2ord] and yields existing dates. *)
Lemma ord2ymd_spec (o : Z) :
  1 <= o <= _MAXORDINAL ->
  let '(y, m, d) := _ord2ymd o in
  _ymd2ord y m d = o
  /\ 1 <= y <= 9999 /\ 1 <= m <= 12 /\ 1 <= d <= _days_in_month y m.
Proof.
  intros Ho. rewrite ord2ymd_shift.
  assert (0 <= (o - 1) mod _DI400Y < _DI400Y) as Hr
    by (apply Z.mod_pos_bound; unfold _DI400Y; lia).
  pose proof (Z.div_mod (o - 1) _DI400Y) as Hdm.
  set (r := (o - 1) mod _DI400Y) in *. set (q := (o - 1) / _DI400Y) in *.
  pose proof (all_from_spec _ _ _ cycle_checked r) as Hc.
  unfold cycle_check in Hc.
  destruct (_ord2ymd (r + 1)) as [[y m] d].
  rewrite Z2Nat.id in Hc by (unfold _DI400Y; lia).
  specialize (Hc ltac:(lia)).
  repeat (apply andb_true_iff in Hc as [Hc ?]).
  rewrite ymd2ord_shift, days_in_month_shift.
  unfold _DI400Y, _MAXORDINAL in *.
  assert (0 <= q <= 24) as Hq by lia.
  assert (q = 24 -> y <= 399) as Hlast.
  { intros ->. match goal with H : (_ || _) = true |- _ =>
      apply orb_true_iff in H as [H|H] end; lia. }
  lia.
Qed.

Lemma fromordinal_spec (o : Z) :
  1 <= o <= _MAXORDINAL ->
  date.toordinal (date.fromordinal o) = o /\ valid_date (date.fromordinal o).
Proof.
  intros Ho. pose proof (ord2ymd_spec o Ho) as H.
  unfold date.fromordinal, date.toordinal, valid_date.
  destruct (_ord2ymd o) as [[y m] d]. simpl.
  destruct H as (Hord & Hy & Hm & Hd).
  split; [assumption|]. split; [assumption|].
  exists (_days_in_month y m). split; [|assumption].
  apply days_in_month_spec; [assumption | reflexivity].
Qed.

Lemma valid_date_fields (dt : date.t) :
  valid_date dt ->
  1 <= date.year dt <= 9999 /\ 1 <= date.month dt <= 12
  /\ 1 <= date.day dt <= _days_in_month (date.year dt) (date.month dt).
Proof.
  intros [Hy (n & Hn & Hd)]. split; [assumption|].
  assert (1 <= date.month dt <= 12) as Hm
    by (unfold month_length in Hn; intuition lia).
  split; [assumption|].
  apply days_in_month_spec in Hn; [|assumption]. lia.
Qed.

Lemma days_before_year_succ (y : Z) :
  _days_before_year (y + 1)
  = _days_before_year y + (if _is_leap y then 366 else 365).
Proof.
  unfold _days_before_year, _is_leap.
  replace (y + 1 - 1) with y by lia.
  destruct (y mod 4 =? 0) eqn:H4; destruct (y mod 100 =? 0) eqn:H100;
    destruct (y mod 400 =? 0) eqn:H400; simpl;
    rewrite ?Z.eqb_eq, ?Z.eqb_neq in *;
    Z.div_mod_to_equations; lia.
Qed.

Lemma days_before_year_mono (y y' : Z) :
  y <= y' -> _days_before_year y <= _days_before_year y'.
Proof.
  intros H. unfold _days_before_year. Z.div_mod_to_equations. lia.
Qed.

(** The ordinal of a date lies within its year. *)
Lemma toordinal_bounds (dt : date.t) :
  valid_date dt ->
  _days_before_year (date.year dt) < date.toordinal dt
  <= _days_before_year (date.year dt + 1).
Proof.
  intros H. apply valid_date_fields in H as (_ & Hm & Hd).
  unfold date.toordinal, _ymd2ord. rewrite days_before_year_succ.
  destruct dt as [y m d]. simpl in *.
  unfold _days_before_month, _days_in_month in *.
  assert (m = 1 \/ m = 2 \/ m = 3 \/ m = 4 \/ m = 5 \/ m = 6 \/ m = 7 \/ m = 8
          \/ m = 9 \/ m = 10 \/ m = 11 \/ m = 12) as Hcases by lia.
  destruct (_is_leap y);
    repeat (destruct Hcases as [->|Hcases]); try subst m; simpl in *;
    repeat match goal with
      | H : context [index ?t ?i] |- _ =>
          let v := eval vm_compute in (index t i) in
          change (index t i) with v in H
      end;
    eval_index; lia.
Qed.

Lemma weekday_range (dt : date.t) : 0 <= date.weekday dt < 7.
Proof. unfold date.weekday. apply Z.mod_pos_bound. lia. Qed.

Lemma weekend_ge_5 (dt : date.t) : weekend dt = (5 <=? date.weekday dt).
Proof.
  unfold weekend. pose proof (weekday_range dt).
  destruct (5 <=? date.weekday dt) eqn:E;
    [apply Z.leb_le in E | apply Z.leb_gt in E].
  - apply orb_true_iff. rewrite !Z.eqb_eq. lia.
  - apply orb_false_iff. rewrite !Z.eqb_neq. lia.
Qed.

(** [date.lt] is the order of the ordinals. *)

Lemma days_before_month_step (y m m' : Z) :
  1 <= m -> m < m' -> m' <= 12 ->
  _days_before_month y m + _days_in_month y m <= _days_before_month y m'.
Proof.
  intros H1 H2 H3. unfold _days_before_month, _days_in_month.
  assert (In m [1; 2; 3; 4; 5; 6; 7; 8; 9; 10; 11]) as Hm by (simpl; lia).
  assert (In m' [2; 3; 4; 5; 6; 7; 8; 9; 10; 11; 12]) as Hm' by (simpl; lia).
  simpl in Hm, Hm'.
  destruct (_is_leap y);
    repeat (destruct Hm as [<-|Hm]); try contradiction;
    repeat (destruct Hm' as [<-|Hm']); try contradiction;
    try lia; simpl; eval_index; lia.
Qed.

Lemma date_eq_of_not_lt (a b : date.t) :
  date.lt a b = false -> date.lt b a = false -> a = b.
Proof.
  unfold date.lt. destruct a as [y m d], b as [y' m' d']. simpl.
  intros E1 E2.
  apply orb_false_iff in E1 as [E1a E1b]. apply orb_false_iff in E2 as [E2a E2b].
  apply Z.ltb_ge in E1a, E2a. assert (y' = y) as -> by lia.
  rewrite Z.eqb_refl in E1b, E2b. simpl in E1b, E2b.
  apply orb_false_iff in E1b as [E1b E1c].
  apply orb_false_iff in E2b as [E2b E2c].
  apply Z.ltb_ge in E1b, E2b. assert (m' = m) as -> by lia.
  rewrite Z.eqb_refl in E1c, E2c. simpl in E1c, E2c.
  apply Z.ltb_ge in E1c, E2c. f_equal. lia.
Qed.

Lemma toordinal_lt (a b : date.t) :
  valid_date a -> valid_date b ->
  (date.lt a b = true <-> date.toordinal a < date.toordinal b).
Proof.
  intros Ha Hb.
  assert (forall a b, valid_date a -> valid_date b ->
            date.lt a b = true -> date.toordinal a < date.toordinal b) as Hlt.
  { clear. intros a b Ha Hb H. unfold date.lt in H.
    pose proof (toordinal_bounds a Ha) as Hba.
    pose proof (toordinal_bounds b Hb) as Hbb.
    apply valid_date_fields in Ha as (_ & Hma & Hda).
    apply valid_date_fields in Hb as (_ & Hmb & Hdb).
    apply orb_true_iff in H as [H|H].
    - apply Z.ltb_lt in H.
      pose proof (days_before_year_mono (date.year a + 1) (date.year b)
                    ltac:(lia)). lia.
    - apply andb_true_iff in H as [Hy H]. apply Z.eqb_eq in Hy.
      unfold date.toordinal, _ymd2ord. rewrite <- Hy in *.
      apply orb_true_iff in H as [H|H].
      + apply Z.ltb_lt in H.
        pose proof (days_before_month_step (date.year a) (date.month a)
                      (date.month b) ltac:(lia) H ltac:(lia)). lia.
      + apply andb_true_iff in H as [Hm H]. apply Z.eqb_eq in Hm.
        apply Z.ltb_lt in H. rewrite Hm. lia. }
  split; [apply Hlt; assumption|].
  intros Hord. destruct (date.lt a b) eqn:E; [reflexivity|]. exfalso.
  destruct (date.lt b a) eqn:E'.
  - apply Hlt in E'; [lia | assumption | assumption].
  - assert (a = b) as -> by (apply date_eq_of_not_lt; assumption). lia.
Qed.

(** Distinct dates have distinct ordinals, so [fromordinal] also inverts
    [toordinal]. *)
Lemma fromordinal_toordinal (dt : date.t) :
  valid_date dt -> date.fromordinal (date.toordinal dt) = dt.
Proof.
  intros Hv.
  pose proof (toordinal_bounds dt Hv) as Hb.
  pose proof (valid_date_fields dt Hv) as (Hy & _ & _).
  pose proof (days_before_year_mono 1 (date.year dt) ltac:(lia)) as H1.
  pose proof (days_before_year_mono (date.year dt + 1) 10000 ltac:(lia)) as H2.
  replace (_days_before_year 1) with 0 in H1 by (vm_compute; reflexivity).
  replace (_days_before_year 10000) with _MAXORDINAL in H2
    by (vm_compute; reflexivity).
  destruct (fromordinal_spec (date.toordinal dt) ltac:(lia)) as [Ho Hv'].
  remember (date.fromordinal (date.toordinal dt)) as dt' eqn:Hdt'.
  clear Hdt'.
  destruct (date.lt dt' dt) eqn:E1.
  { apply toordinal_lt in E1; [lia | assumption | assumption]. }
  destruct (date.lt dt dt') eqn:E2.
  { apply toordinal_lt in E2; [lia | assumption | assumption]. }
  apply date_eq_of_not_lt; assumption.
Qed.

(** The next occurrence of a birthday is today or later. *)
Lemma next_occurrence_not_before (today bd : date.t) :
  valid_date today -> valid_date (next_occurrence today bd) ->
  0 <= date.toordinal (next_occurrence today bd) - date.toordinal today.
Proof.
  intros Hv Hvo. unfold next_occurrence in *.
  destruct (date.lt (in_year (date.year today) bd) today) eqn:E.
  - pose proof (toordinal_bounds today Hv).
    pose proof (toordinal_bounds _ Hvo). simpl in *. lia.
  - destruct (Z_lt_le_dec
                (date.toordinal (in_year (date.year today) bd))
                (date.toordinal today)) as [Hlt|]; [|lia].
    apply toordinal_lt in Hlt; [congruence | assumption | assumption].
Qed.

(** ** Formatting a date *)

Lemma four_digits_checked : all_from four_digits 1000 (Z.to_nat 9000) = true.
Proof. vm_compute. reflexivity. Qed.

Lemma ascii_digit_digit_char (k : Z) :
  0 <= k <= 9 -> ascii_digit (digit_char k) = true.
Proof.
  intros Hk.
  assert (k = 0 \/ k = 1 \/ k = 2 \/ k = 3 \/ k = 4 \/ k = 5 \/ k = 6 \/ k = 7
          \/ k = 8 \/ k = 9) as H by lia.
  repeat (destruct H as [->|H]); try subst k; vm_compute; reflexivity.
Qed.

Lemma ascii_digit_zfill2 (n : Z) :
  0 <= n < 100 ->
  ascii_digit (digit_char (n / 10)) = true
  /\ ascii_digit (digit_char (n mod 10)) = true.
Proof.
  intros Hn. split; apply ascii_digit_digit_char; Z.div_mod_to_equations; lia.
Qed.

Lemma strftime_DD_MM_YYYY (dt : date.t) :
  valid_date dt -> 1000 <= date.year dt -> DD_MM_YYYY (strftime dt) = true.
Proof.
  intros Hv Hy. apply valid_date_fields in Hv as (Hy' & Hm & Hd).
  assert (date.day dt <= 31) as Hd31.
  { unfold _days_in_month in Hd.
    assert (index _DAYS_IN_MONTH (date.month dt) <= 31) as Hi.
    { assert (date.month dt = 1 \/ date.month dt = 2 \/ date.month dt = 3
              \/ date.month dt = 4 \/ date.month dt = 5 \/ date.month dt = 6
              \/ date.month dt = 7 \/ date.month dt = 8 \/ date.month dt = 9
              \/ date.month dt = 10 \/ date.month dt = 11 \/ date.month dt = 12)
        as Hc by lia.
      repeat (destruct Hc as [->|Hc]); try rewrite Hc; vm_compute; discriminate. }
    destruct (_ && _); lia. }
  pose proof (all_from_spec _ _ _ four_digits_checked (date.year dt)) as H4.
  rewrite Z2Nat.id in H4 by lia. specialize (H4 ltac:(lia)).
  unfold four_digits in H4. unfold strftime, zfill2.
  destruct (str_of_int (date.year dt)) as [|a [|b [|c [|d [|e l]]]]];
    try discriminate.
  destruct (ascii_digit_zfill2 (date.day dt) ltac:(lia)) as [Hd1 Hd2].
  destruct (ascii_digit_zfill2 (date.month dt) ltac:(lia)) as [Hm1 Hm2].
  change (py ".") with [dot]. simpl.
  rewrite Hd1, Hd2, Hm1, Hm2.
  change (dot =? chr ".")%N with true. simpl. exact H4.
Qed.

(** ** The loop of [get_upcoming_birthdays] *)

Lemma replace_year_ok (bd : date.t) (y : Z) (t : date.t) :
  date.replace_year bd y = Ok t -> t = in_year y bd /\ valid_date t.
Proof.
  unfold date.replace_year. intros H.
  apply date_new_spec in H as [Hc ->]. split; [reflexivity | exact Hc].
Qed.

Lemma monday_after (a : Z) : (a + (7 - a mod 7)) mod 7 = 0.
Proof.
  replace (a + (7 - a mod 7)) with ((a / 7 + 1) * 7)
    by (pose proof (Z.div_mod a 7); lia).
  apply Z.mod_mul. lia.
Qed.

Lemma add_days_ok (dt : date.t) (k : Z) (shown : date.t) :
  date.add_days dt k = Ok shown ->
  shown = date.fromordinal (date.toordinal dt + k)
  /\ date.toordinal shown = date.toordinal dt + k
  /\ valid_date shown.
Proof.
  unfold date.add_days.
  destruct (_ && _) eqn:E; [|discriminate]. intros [= <-].
  apply andb_true_iff in E as [E1 E2].
  apply Z.ltb_lt in E1. apply Z.leb_le in E2.
  split; [reflexivity|]. apply fromordinal_spec. lia.
Qed.

Lemma entry_literal (n s : str) :
  dict.setitem (dict.setitem dict.empty (py "name") n) (py "birthday") s
  = [(py "name", n); (py "birthday", s)].
Proof.
  vm_compute. reflexivity.
Qed.

Lemma entry_name (n s : str) :
  dict.get [(py "name", n); (py "birthday", s)] (py "name") = Some n.
Proof.
  vm_compute. reflexivity.
Qed.

Lemma next_occurrence_year (today bd : date.t) :
  date.year today <= date.year (next_occurrence today bd).
Proof.
  unfold next_occurrence. destruct (date.lt _ _); simpl; lia.
Qed.

(** The end of a round of the loop, once the next occurrence [occ] of the
    birthday is known. *)
Lemma upcoming_tail_spec (today occ : date.t) (n : str)
    (acc res : list (dict.t str)) :
  valid_date occ ->
  date.year today <= date.year occ ->
  (if (0 <=? date.sub_days occ today) && (date.sub_days occ today <=? 7)
   then
     bday_this_year <-
       (if 5 <=? date.weekday occ
        then date.add_days occ (7 - date.weekday occ)
        else Ok occ) ;;
     Ok (acc
         ++ [dict.setitem (dict.setitem dict.empty (py "name") n)
               (py "birthday") (strftime bday_this_year)])
   else Ok acc) = Ok res ->
  (in_window today occ = false /\ res = acc)
  \/ (in_window today occ = true
      /\ let shown :=
           if weekend occ
           then date.fromordinal (date.toordinal occ + (7 - date.weekday occ))
           else occ in
         res = acc ++ [[(py "name", n); (py "birthday", strftime shown)]]
         /\ valid_date shown
         /\ (weekend occ = true ->
             date.toordinal shown = date.toordinal occ + (7 - date.weekday occ)
             /\ date.weekday shown = 0)
         /\ (1000 <= date.year today -> DD_MM_YYYY (strftime shown) = true)).
Proof.
  intros Hv Hy. unfold date.sub_days. fold (in_window today occ).
  destruct (in_window today occ) eqn:Hw; [|intros [= <-]; left; auto].
  rewrite <- weekend_ge_5. right. split; [reflexivity|]. cbv zeta.
  destruct (weekend occ) eqn:Hwe.
  - destruct (date.add_days occ (7 - date.weekday occ)) as [shown|] eqn:Ha;
      [|discriminate].
    cbn [bind] in H. injection H as <-.
    apply add_days_ok in Ha as (Hs & Hord & Hvs). rewrite <- Hs.
    rewrite ?entry_literal.
    split; [reflexivity|]. split; [assumption|]. split.
    + intros _. split; [assumption|].
      unfold date.weekday at 1. rewrite Hord. unfold date.weekday.
      replace (date.toordinal occ + (7 - (date.toordinal occ + 6) mod 7) + 6)
        with (date.toordinal occ + 6 + (7 - (date.toordinal occ + 6) mod 7))
        by lia.
      apply monday_after.
    + intros H1000. apply strftime_DD_MM_YYYY; [assumption|].
      pose proof (toordinal_bounds occ Hv) as Ho.
      pose proof (toordinal_bounds shown Hvs) as Hsh.
      pose proof (weekday_range occ) as Hwd.
      destruct (Z_lt_le_dec (date.year shown) 1000) as [Hlt|]; [|assumption].
      exfalso.
      pose proof (days_before_year_mono (date.year shown + 1) 1000 ltac:(lia)).
      pose proof (days_before_year_mono 1000 (date.year occ) ltac:(lia)).
      lia.
  - cbn [bind] in H. injection H as <-. rewrite ?entry_literal.
    split; [reflexivity|]. split; [assumption|]. split; [discriminate|].
    intros H1000. apply strftime_DD_MM_YYYY; [assumption | lia].
Qed.

Lemma upcoming_tail_reported (today : date.t) (rec : Record.t) (b : Birthday)
    (bd : date.t) (acc res : list (dict.t str)) :
  (Record.birthday rec = Some b) ->
  strptime (value b) = Ok bd ->
  valid_date (next_occurrence today bd) ->
  (let occ := next_occurrence today bd in
   if (0 <=? date.sub_days occ today) && (date.sub_days occ today <=? 7)
   then
     bday_this_year <-
       (if 5 <=? date.weekday occ
        then date.add_days occ (7 - date.weekday occ)
        else Ok occ) ;;
     Ok (acc
         ++ [dict.setitem
               (dict.setitem dict.empty (py "name") (value (Record.name rec)))
               (py "birthday") (strftime bday_this_year)])
   else Ok acc) = Ok res ->
  (upcoming today rec = false /\ res = acc)
  \/ (upcoming today rec = true
      /\ exists e, res = acc ++ [e] /\ reported today rec e).
Proof.
  intros Hb Hbd Hv H. cbv zeta in H.
  apply upcoming_tail_spec in H;
    [|assumption | apply next_occurrence_year].
  unfold upcoming, reported. rewrite Hb, Hbd.
  destruct H as [H|(Hw & He & Hvs & Hmon & Hfmt)]; [left; exact H|].
  right. split; [assumption|]. eexists. split; [exact He|].
  exists b, bd. split; [reflexivity|]. split; [exact Hbd|].
  cbv zeta. split; [reflexivity|]. auto.
Qed.

(** One round of the loop either leaves [upcoming] alone, for a record that
    is not to be reported, or appends the entry of a record that is. *)
Lemma upcoming_step_spec (today : date.t) (rec : Record.t)
    (acc res : list (dict.t str)) :
  AddressBook.upcoming_step today rec acc = Ok res ->
  (upcoming today rec = false /\ res = acc)
  \/ (upcoming today rec = true
      /\ exists e, res = acc ++ [e] /\ reported today rec e).
Proof.
  unfold AddressBook.upcoming_step.
  destruct (Record.birthday rec) as [b|] eqn:Hb;
    [|intros [= <-]; left; unfold upcoming; rewrite Hb; auto].
  destruct (strptime (value b)) as [bd|] eqn:Hbd; [|discriminate].
  cbn [bind].
  destruct (date.replace_year bd (date.year today)) as [t1|] eqn:H1;
    [|discriminate].
  cbn [bind]. apply replace_year_ok in H1 as [-> Hv1].
  destruct (date.lt (in_year (date.year today) bd) today) eqn:Hlt.
  - destruct (date.replace_year _ _) as [t2|] eqn:H2; [|discriminate].
    cbn [bind]. apply replace_year_ok in H2 as [-> Hv2]. intros H.
    assert (next_occurrence today bd = in_year (date.year today + 1) bd) as Hno
      by (unfold next_occurrence; rewrite Hlt; reflexivity).
    apply (upcoming_tail_reported today rec b bd); try assumption;
      rewrite Hno; assumption.
  - cbn [bind]. intros H.
    assert (next_occurrence today bd = in_year (date.year today) bd) as Hno
      by (unfold next_occurrence; rewrite Hlt; reflexivity).
    apply (upcoming_tail_reported today rec b bd); try assumption;
      rewrite Hno; assumption.
Qed.

Lemma upcoming_loop_spec (today : date.t) (recs : list Record.t) :
  forall acc res,
    AddressBook.upcoming_loop today recs acc = Ok res ->
    exists entries,
      res = acc ++ entries
      /\ Forall2 (reported today) (List.filter (upcoming today) recs) entries.
Proof.
  induction recs as [|rec recs IH]; intros acc res H; simpl in H.
  - injection H as <-. exists []. rewrite app_nil_r. split; constructor.
  - destruct (AddressBook.upcoming_step today rec acc) as [acc'|] eqn:Hstep;
      [|discriminate].
    cbn [bind] in H. apply IH in H as (entries & -> & HF).
    apply upcoming_step_spec in Hstep as [[Hu ->]|(Hu & e & -> & He)]; simpl;
      rewrite Hu.
    + exists entries. auto.
    + exists (e :: entries). rewrite <- app_assoc. split; [reflexivity|].
      constructor; assumption.
Qed.

Lemma reported_name (today : date.t) (rec : Record.t) (e : dict.t str) :
  reported today rec e ->
  dict.get e (py "name") = Some (value (Record.name rec)).
Proof.
  intros (b & bd & _ & _ & -> & _). apply entry_name.
Qed.

(** C1: the entries returned by [get_upcoming_birthdays] are those of the
    records whose birthday has its next occurrence between 0 and 7 days from
    today, one entry per such record and in the order of the book; a record
    without a birthday is not among them. *)
Theorem get_upcoming_birthdays_window (today : date.t) (book : AddressBook.t)
    (res : list (dict.t str)) :
  AddressBook.get_upcoming_birthdays today book = Ok res ->
  map (fun e => dict.get e (py "name")) res
  = map (fun rec => Some (value (Record.name rec)))
      (List.filter (upcoming today) (dict.values (AddressBook.data book)))
  /\ forall rec, Record.birthday rec = None -> upcoming today rec = false.
Proof.
  unfold AddressBook.get_upcoming_birthdays. intros H.
  apply upcoming_loop_spec in H as (entries & -> & HF). simpl.
  split.
  - induction HF as [|rec e recs es He _ IH]; simpl; [reflexivity|].
    rewrite (reported_name today rec e He), IH. reflexivity.
  - intros rec Hb. unfold upcoming. rewrite Hb. reflexivity.
Qed.

(** C2: each record that is reported comes with the next occurrence of its
    birthday, or, when that is a Saturday or a Sunday, with the date
    [7 - weekday] days later, which is a Monday; the date is written with the
    format ["%d.%m.%Y"], which is DD.MM.YYYY from the year 1000 on. *)
Theorem get_upcoming_birthdays_dates (today : date.t) (book : AddressBook.t)
    (res : list (dict.t str)) :
  AddressBook.get_upcoming_birthdays today book = Ok res ->
  Forall2 (reported today)
    (List.filter (upcoming today) (dict.values (AddressBook.data book))) res.
Proof.
  unfold AddressBook.get_upcoming_birthdays. intros H.
  apply upcoming_loop_spec in H as (entries & -> & HF). exact HF.
Qed.

Lemma get_upcoming_birthdays_window_witness :
  let today := date.mk 2024 6 10 in
  let ann := Record.mk (Name.init (py "Ann")) [] [] (Some (mkField (py "14.06.1990"))) in
  let bob := Record.mk (Name.init (py "Bob")) [] [] (Some (mkField (py "15.06.1990"))) in
  let cid := Record.mk (Name.init (py "Cid")) [mkField (py "1234567890")] [] None in
  let dan := Record.mk (Name.init (py "Dan")) [] [] (Some (mkField (py "1.1.2000"))) in
  let book := book_after [call_add_record ann; call_add_record bob;
                          call_add_record cid; call_add_record dan] in
  let res := [[(py "name", py "Ann"); (py "birthday", py "14.06.2024")];
              [(py "name", py "Bob"); (py "birthday", py "17.06.2024")]] in
  map (fun e => dict.get e (py "name")) res
  = map (fun rec => Some (value (Record.name rec)))
      (List.filter (upcoming today) (dict.values (AddressBook.data book)))
  /\ forall rec, Record.birthday rec = None -> upcoming today rec = false.
Proof.
  intros today ann bob cid dan book res.
  apply (get_upcoming_birthdays_window today book res).
  vm_compute. reflexivity.
Defined.

Lemma get_upcoming_birthdays_dates_witness :
  let today := date.mk 2024 6 10 in
  let ann := Record.mk (Name.init (py "Ann")) [] [] (Some (mkField (py "14.06.1990"))) in
  let bob := Record.mk (Name.init (py "Bob")) [] [] (Some (mkField (py "15.06.1990"))) in
  let book := book_after [call_add_record ann; call_add_record bob] in
  Forall2 (reported today)
    (List.filter (upcoming today) (dict.values (AddressBook.data book)))
    [[(py "name", py "Ann"); (py "birthday", py "14.06.2024")];
     [(py "name", py "Bob"); (py "birthday", py "17.06.2024")]].
Proof.
  intros today ann bob book.
  apply (get_upcoming_birthdays_dates today book).
  vm_compute. reflexivity.
Defined.

(** ** When [get_upcoming_birthdays] returns *)

Lemma calendar_date_other_year (y0 y m d : Z) :
  calendar_date y0 m d -> ~ (m = 2 /\ d = 29) -> 1 <= y <= 9999 ->
  calendar_date y m d.
Proof.
  intros [_ (n & Hn & Hd)] Hfeb Hy. split; [assumption|].
  unfold month_length in *.
  destruct (_is_leap y) eqn:Hl;
    [apply is_leap_spec in Hl | apply is_leap_false in Hl].
  - destruct Hn as [Hn|[Hn|[Hn|Hn]]].
    + exists n. split; [left; assumption | assumption].
    + exists 29. split; [right; left; tauto | lia].
    + exists 29. split; [right; left; tauto | lia].
    + exists n. split; [do 3 right; assumption | assumption].
  - destruct Hn as [Hn|[Hn|[Hn|Hn]]].
    + exists n. split; [left; assumption | assumption].
    + exists 28. split; [right; right; left; tauto | lia].
    + exists 28. split; [right; right; left; tauto | lia].
    + exists n. split; [do 3 right; assumption | assumption].
Qed.

Lemma strptime_valid (raw : str) (bd : date.t) :
  strptime raw = Ok bd -> valid_date bd.
Proof.
  intros H. apply strptime_spec in H as (y & m & d & (D & M & Y & H) & ->).
  unfold valid_date. simpl. tauto.
Qed.

Lemma upcoming_step_returns (today : date.t) (rec : Record.t)
    (acc : list (dict.t str)) :
  valid_date today -> date.year today < 9999 ->
  (forall b, Record.birthday rec = Some b ->
     exists bd, strptime (value b) = Ok bd
                /\ ~ (date.month bd = 2 /\ date.day bd = 29)) ->
  exists acc', AddressBook.upcoming_step today rec acc = Ok acc'.
Proof.
  intros Hv Hy Hrec. unfold AddressBook.upcoming_step.
  destruct (Record.birthday rec) as [b|]; [|eauto].
  destruct (Hrec b eq_refl) as (bd & Hbd & Hfeb). rewrite Hbd. cbn [bind].
  pose proof (strptime_valid _ _ Hbd) as Hvbd.
  pose proof (valid_date_fields today Hv) as (Hyt & _ & _).
  assert (forall y, 1 <= y <= 9999 ->
            date.new y (date.month bd) (date.day bd) = Ok (in_year y bd)
            /\ valid_date (in_year y bd)) as Hnew.
  { intros y Hyr.
    assert (calendar_date y (date.month bd) (date.day bd)) as Hc
      by (eapply calendar_date_other_year; eassumption).
    split; [apply date_new_spec; split; [assumption | reflexivity] | exact Hc]. }
  unfold date.replace_year.
  destruct (Hnew (date.year today) ltac:(lia)) as [-> Hv1]. cbn [bind].
  assert (exists occ,
            (if date.lt (in_year (date.year today) bd) today
             then date.new (date.year today + 1)
                    (date.month (in_year (date.year today) bd))
                    (date.day (in_year (date.year today) bd))
             else Ok (in_year (date.year today) bd)) = Ok occ
            /\ valid_date occ) as (occ & -> & Hvo).
  { destruct (date.lt _ _); [|eauto]. simpl.
    destruct (Hnew (date.year today + 1) ltac:(lia)) as [-> Hv2]. eauto. }
  cbn [bind]. cbv zeta.
  destruct ((0 <=? date.sub_days occ today) && (date.sub_days occ today <=? 7))
    eqn:Hw; [|eauto].
  destruct (5 <=? date.weekday occ) eqn:Hwd; [|cbn [bind]; eauto].
  unfold date.add_days.
  apply andb_true_iff in Hw as [_ Hw]. apply Z.leb_le in Hw.
  apply Z.leb_le in Hwd. unfold date.sub_days in Hw.
  pose proof (weekday_range occ) as Hr.
  pose proof (toordinal_bounds today Hv) as Ht.
  pose proof (toordinal_bounds occ Hvo) as Ho.
  pose proof (valid_date_fields occ Hvo) as (Hyo & _ & _).
  pose proof (days_before_year_mono (date.year today + 1) 9999 ltac:(lia)) as H1.
  pose proof (days_before_year_mono 1 (date.year occ) ltac:(lia)) as H2.
  replace (_days_before_year 9999) with 3651694 in H1
    by (vm_compute; reflexivity).
  replace (_days_before_year 1) with 0 in H2 by (vm_compute; reflexivity).
  unfold _MAXORDINAL.
  destruct (_ && _) eqn:E; [cbn [bind]; eauto|].
  exfalso. apply andb_false_iff in E as [E|E];
    [apply Z.ltb_ge in E | apply Z.leb_gt in E]; lia.
Qed.

(** The query returns a list when today is before the year 9999 and every
    birthday on record is a valid one other than 29 February. *)
Lemma get_upcoming_birthdays_returns (today : date.t) (book : AddressBook.t) :
  valid_date today -> date.year today < 9999 ->
  (forall rec b,
     In rec (dict.values (AddressBook.data book)) ->
     (Record.birthday rec = Some b) ->
     exists bd, strptime (value b) = Ok bd
                /\ ~ (date.month bd = 2 /\ date.day bd = 29)) ->
  exists res, AddressBook.get_upcoming_birthdays today book = Ok res.
Proof.
  intros Hv Hy. unfold AddressBook.get_upcoming_birthdays.
  generalize (@nil (dict.t str)) as acc.
  induction (dict.values (AddressBook.data book)) as [|rec recs IH];
    intros acc Hall; simpl; [eauto|].
  destruct (upcoming_step_returns today rec acc Hv Hy) as [acc' ->].
  { intros b Hb. apply (Hall rec b); [left; reflexivity | assumption]. }
  cbn [bind]. apply IH. intros rec' b Hin. apply Hall. right. assumption.
Qed.

(** ** 29 February *)

Lemma feb29_not_leap (y : Z) (dt : date.t) :
  ~ leap_year y -> date.new y 2 29 <> Ok dt.
Proof.
  intros Hl H. apply date_new_spec in H as [[_ (n & Hn & Hd)] _].
  unfold month_length in Hn. intuition lia.
Qed.

Lemma upcoming_step_feb29 (today : date.t) (rec : Record.t) (b : Birthday)
    (bd : date.t) (acc : list (dict.t str)) :
  (Record.birthday rec = Some b) ->
  strptime (value b) = Ok bd ->
  date.month bd = 2 -> date.day bd = 29 ->
  ~ leap_year (date.year today)
  \/ (date.lt (in_year (date.year today) bd) today = true
      /\ ~ leap_year (date.year today + 1)) ->
  exists e, AddressBook.upcoming_step today rec acc = Raise e.
Proof.
  intros Hb Hbd Hm Hd Hleap. unfold AddressBook.upcoming_step.
  rewrite Hb, Hbd. cbn [bind]. unfold date.replace_year. rewrite Hm, Hd.
  destruct (date.new (date.year today) 2 29) as [t1|e] eqn:H1;
    [|cbn [bind]; eauto].
  destruct Hleap as [Hleap|[Hlt Hleap]];
    [destruct (feb29_not_leap _ _ Hleap H1)|].
  apply date_new_spec in H1 as [_ ->]. cbn [bind].
  unfold in_year in Hlt. rewrite Hm, Hd in Hlt. rewrite Hlt. simpl date.month.
  simpl date.day.
  destruct (date.new (date.year today + 1) 2 29) as [t2|e] eqn:H2;
    [|cbn [bind]; eauto].
  destruct (feb29_not_leap _ _ Hleap H2).
Qed.

Lemma upcoming_loop_raises (today : date.t) (rec : Record.t)
    (recs : list Record.t) :
  In rec recs ->
  (forall acc, exists e, AddressBook.upcoming_step today rec acc = Raise e) ->
  forall acc, exists e, AddressBook.upcoming_loop today recs acc = Raise e.
Proof.
  intros Hin Hraise. induction recs as [|r recs IH]; [destruct Hin|].
  intros acc. simpl.
  destruct (AddressBook.upcoming_step today r acc) as [acc'|e] eqn:Hstep;
    [|cbn [bind]; eauto].
  cbn [bind]. destruct Hin as [->|Hin]; [|apply IH; assumption].
  destruct (Hraise acc) as [e He]. congruence.
Qed.

(** C3: when the book holds a record whose birthday is 29 February, the
    query raises as soon as a year that the birthday is moved to, today's
    year or, for a birthday already passed, the year after, is not a leap
    year. *)
Theorem get_upcoming_birthdays_feb29 (today : date.t) (book : AddressBook.t)
    (rec : Record.t) (b : Birthday) (bd : date.t) :
  In rec (dict.values (AddressBook.data book)) ->
  (Record.birthday rec = Some b) ->
  strptime (value b) = Ok bd ->
  date.month bd = 2 -> date.day bd = 29 ->
  ~ leap_year (date.year today)
  \/ (date.lt (in_year (date.year today) bd) today = true
      /\ ~ leap_year (date.year today + 1)) ->
  exists e, AddressBook.get_upcoming_birthdays today book = Raise e.
Proof.
  intros Hin Hb Hbd Hm Hd Hleap. unfold AddressBook.get_upcoming_birthdays.
  apply (upcoming_loop_raises today rec); [assumption|].
  intros acc. eapply upcoming_step_feb29; eassumption.
Qed.

Lemma get_upcoming_birthdays_feb29_witness :
  let today := date.mk 2023 2 25 in
  let eve := Record.mk (Name.init (py "Eve")) [] [] (Some (mkField (py "29.02.2000"))) in
  let book := book_after [call_add_record eve] in
  exists e, AddressBook.get_upcoming_birthdays today book = Raise e.
Proof.
  intros today eve book.
  apply (get_upcoming_birthdays_feb29 today book eve (mkField (py "29.02.2000"))
           (date.mk 2000 2 29)).
  - left. reflexivity.
  - reflexivity.
  - vm_compute. reflexivity.
  - reflexivity.
  - reflexivity.
  - left. apply is_leap_false. vm_compute. reflexivity.
Defined.

Example feb29_examples :
  AddressBook.get_upcoming_birthdays (date.mk 2023 2 25)
    (book_after
       [call_add_record
          (Record.mk (Name.init (py "Eve")) [] []
             (Some (mkField (py "29.02.2000"))))])
  = Raise (Exn ValueError None)
  /\ AddressBook.get_upcoming_birthdays (date.mk 2024 3 1)
       (book_after
          [call_add_record
             (Record.mk (Name.init (py "Eve")) [] []
                (Some (mkField (py "29.02.2000"))))])
     = Raise (Exn ValueError None)
  /\ AddressBook.get_upcoming_birthdays (date.mk 2024 2 25)
       (book_after
          [call_add_record
             (Record.mk (Name.init (py "Eve")) [] []
                (Some (mkField (py "29.02.2000"))))])
     = Ok [[(py "name", py "Eve"); (py "birthday", py "29.02.2024")]].
Proof. vm_compute. repeat split; reflexivity. Qed.

(** ** Saving and loading *)

Section Persistence.

Variable pickle_dumps : dict.t Record.t -> bytes.
Variable unpickle : bytes -> result (dict.t Record.t).

Local Abbreviation pickle_load := (AddressBook.pickle_load unpickle).
Local Abbreviation save := (AddressBook.save pickle_dumps).
Local Abbreviation load := (AddressBook.load unpickle).

(** What [load] does with each outcome of opening and unpickling. *)
Lemma load_spec (filename : option str) (self : AddressBook.t) (fs : filesystem) :
  load filename self fs =
  match fs !! AddressBook.filename_or_default filename with
  | None => (Ok tt, AddressBook.mk dict.empty)
  | Some contents =>
      match pickle_load contents with
      | Ok d => (Ok tt, AddressBook.mk d)
      | Raise e =>
          if issubclass (exn_cls e) FileNotFoundError
             || issubclass (exn_cls e) PickleError
          then (Ok tt, AddressBook.mk dict.empty)
          else (Raise e, self)
      end
  end.
Proof.
  unfold AddressBook.load, AddressBook.open_rb.
  destruct (fs !! AddressBook.filename_or_default filename) as [contents|];
    [|reflexivity].
  cbn [bind]. destruct (pickle_load contents) as [d|e]; [reflexivity|].
  unfold caught_by. simpl. rewrite orb_false_r. reflexivity.
Qed.

(** A missing snapshot gives an empty book. *)
Lemma load_missing (filename : option str) (self : AddressBook.t) (fs : filesystem) :
  fs !! AddressBook.filename_or_default filename = None ->
  load filename self fs = (Ok tt, AddressBook.mk dict.empty).
Proof. intros H. rewrite load_spec, H. reflexivity. Qed.

(** So does a snapshot on which the unpickler raises a [PickleError]. *)
Lemma load_pickle_error (filename : option str) (self : AddressBook.t)
    (fs : filesystem) (contents : bytes) (e : exn) :
  fs !! AddressBook.filename_or_default filename = Some contents ->
  pickle_load contents = Raise e ->
  issubclass (exn_cls e) PickleError = true ->
  load filename self fs = (Ok tt, AddressBook.mk dict.empty).
Proof.
  intros H He Hc. rewrite load_spec, H, He, Hc, orb_true_r. reflexivity.
Qed.

(** C8 fails on an empty snapshot: the unpickler raises [EOFError], which
    is not among the exceptions that [load] catches, and [load] raises. *)
Lemma load_empty_snapshot_raises :
  load None AddressBook.init {[AddressBook.FILENAME := []]}
  = (Raise (Exn EOFError None), AddressBook.init).
Proof.
  rewrite load_spec.
  change (AddressBook.filename_or_default None) with AddressBook.FILENAME.
  unfold filesystem. rewrite lookup_singleton_eq. reflexivity.
Qed.

(** Any exception of the unpickler outside [PickleError] leaves [load] the
    same way. *)
Lemma load_other_error (filename : option str) (self : AddressBook.t)
    (fs : filesystem) (contents : bytes) (e : exn) :
  fs !! AddressBook.filename_or_default filename = Some contents ->
  pickle_load contents = Raise e ->
  issubclass (exn_cls e) FileNotFoundError = false ->
  issubclass (exn_cls e) PickleError = false ->
  load filename self fs = (Raise e, self).
Proof.
  intros H He Hc1 Hc2. rewrite load_spec, H, He, Hc1, Hc2. reflexivity.
Qed.

(** [pickle]'s contract: what was dumped is what is loaded. *)
Hypothesis pickle_roundtrip : forall d, pickle_load (pickle_dumps d) = Ok d.

(** C9: after [save] to a target, [load] from the same target, into any
    book, returns normally with the saved mapping: the same records under
    the same names and in the same order, each with its name, its phones in
    order, its email and its birthday. *)
Theorem save_load_roundtrip (filename : option str) (book other : AddressBook.t)
    (fs : filesystem) :
  load filename other (save filename book fs) = (Ok tt, book).
Proof.
  rewrite load_spec. unfold AddressBook.save, filesystem in *.
  rewrite lookup_insert_eq, pickle_roundtrip. destruct book. reflexivity.
Qed.

End Persistence.

Lemma unary_roundtrip (d : dict.t Record.t) :
  AddressBook.pickle_load unary_unpickle (unary_dumps d) = Ok d.
Proof.
  assert (AddressBook.pickle_load unary_unpickle (unary_dumps d)
          = unary_unpickle (unary_dumps d)) as ->.
  { unfold AddressBook.pickle_load, unary_dumps.
    destruct (Pos2Nat.is_succ (encode d)) as [n ->]. reflexivity. }
  unfold unary_unpickle, unary_dumps.
  rewrite length_replicate, Pos2Nat.id, decode_encode. reflexivity.
Qed.

Lemma save_load_roundtrip_witness :
  let ann := Record.mk (Name.init (py "Ann")) [mkField (py "1234567890")] [] None in
  let bob := Record.mk (Name.init (py "Bob"))
               [mkField (py "1234567890"); mkField (py "380501234567")] []
               (Some (mkField (py "15.06.1990"))) in
  let cid := Record.mk (Name.init (py "Cid")) [] (py "cid@example.org")
               (Some (mkField (py "1.1.2000"))) in
  let book := book_after [call_add_record ann; call_add_record bob;
                          call_add_record cid] in
  AddressBook.load unary_unpickle None AddressBook.init
    (AddressBook.save unary_dumps None book ∅)
  = (Ok tt, book).
Proof.
  intros ann bob cid book.
  apply (save_load_roundtrip unary_dumps unary_unpickle unary_roundtrip).
Defined.

(** ** The query on the examples of the specification *)

Example get_upcoming_birthdays_friday :
  AddressBook.get_upcoming_birthdays (date.mk 2024 6 10)
    (book_after
       [call_add_record
          (Record.mk (Name.init (py "Ann")) [] []
             (Some (mkField (py "14.06.1990"))))])
  = Ok [[(py "name", py "Ann"); (py "birthday", py "14.06.2024")]].
Proof. vm_compute. reflexivity. Qed.

Example get_upcoming_birthdays_saturday :
  AddressBook.get_upcoming_birthdays (date.mk 2024 6 10)
    (book_after
       [call_add_record
          (Record.mk (Name.init (py "Bob")) [] []
             (Some (mkField (py "15.06.1990"))))])
  = Ok [[(py "name", py "Bob"); (py "birthday", py "17.06.2024")]].
Proof. vm_compute. reflexivity. Qed.

(** A birthday early in January is reported at the end of December. *)
Example get_upcoming_birthdays_new_year :
  AddressBook.get_upcoming_birthdays (date.mk 2024 12 28)
    (book_after
       [call_add_record
          (Record.mk (Name.init (py "Cid")) [] []
             (Some (mkField (py "2.1.1985"))))])
  = Ok [[(py "name", py "Cid"); (py "birthday", py "02.01.2025")]].
Proof. vm_compute. reflexivity. Qed.

(** * The rest of the program *)

(** ** Record: phones and birthday *)

Lemma find_phone_in_app (v : str) (ps qs : list Phone) :
  Record.find_phone_in v (ps ++ qs) =
  match Record.find_phone_in v ps with
  | Some p => Some p
  | None => Record.find_phone_in v qs
  end.
Proof.
  induction ps as [|p ps IH]; simpl; [reflexivity|].
  destruct (str_eqb (value p) v); [reflexivity | exact IH].
Qed.

Lemma find_phone_in_value (v : str) (ps : list Phone) (p : Phone) :
  Record.find_phone_in v ps = Some p -> value p = v /\ In p ps.
Proof.
  induction ps as [|q ps IH]; simpl; [discriminate|].
  unfold str_eqb. case_bool_decide as E.
  - intros [= <-]. split; [assumption | left; reflexivity].
  - intros H. destruct (IH H). split; [assumption | right; assumption].
Qed.

(** X1: [add_phone] on a text that makes a phone puts the canonical value
    last, after the phones there were, and leaves the rest of the record
    alone; [find_phone] then finds that value. On any other text it raises
    the phone error and the record is as before. *)
Theorem add_phone_outcome (phone : str) (self : Record.t) :
  let c := delete_separators phone in
  (canonical_phone c
   /\ Record.add_phone phone self
      = (Ok tt, Record.with_phones self (Record.phones self ++ [mkField c]))
   /\ exists q,
        Record.find_phone c (snd (Record.add_phone phone self)) = Some q
        /\ value q = c)
  \/ (~ canonical_phone c
      /\ Record.add_phone phone self = (Raise Phone.invalid, self)).
Proof.
  intros c. unfold Record.add_phone.
  destruct (Phone.init phone) as [p|e] eqn:Hp.
  - left. apply Phone_init_ok in Hp as [Hc Hv]. fold c in Hc, Hv.
    destruct p as [v]. simpl in Hv. subst v.
    split; [assumption|]. split; [reflexivity|].
    simpl. unfold Record.find_phone. simpl. rewrite find_phone_in_app.
    destruct (Record.find_phone_in c (Record.phones self)) as [q|] eqn:Hq.
    + exists q. split; [reflexivity|].
      apply find_phone_in_value in Hq as [Hq _]. exact Hq.
    + exists (mkField c). simpl. unfold str_eqb.
      rewrite bool_decide_eq_true_2 by reflexivity. split; reflexivity.
  - right. pose proof (Phone_init_raises _ _ Hp) as ->. split; [|reflexivity].
    intros Hc. apply Phone_init_ok_iff in Hc as [p Hp']. congruence.
Qed.

Lemma find_phone_in_filter_ne (v other : str) (ps : list Phone) :
  other <> v ->
  Record.find_phone_in other
    (List.filter (fun p => negb (str_eqb (value p) v)) ps)
  = Record.find_phone_in other ps.
Proof.
  intros Hne. induction ps as [|p ps IH]; simpl; [reflexivity|].
  unfold str_eqb at 1. case_bool_decide as E; simpl.
  - unfold str_eqb at 2. rewrite bool_decide_eq_false_2 by congruence. exact IH.
  - destruct (str_eqb (value p) other); [reflexivity | exact IH].
Qed.

Lemma filter_removed_none (v : str) (ps : list Phone) :
  Forall (fun p => value p <> v)
    (List.filter (fun p => negb (str_eqb (value p) v)) ps).
Proof.
  induction ps as [|p ps IH]; simpl; [constructor|].
  unfold str_eqb at 1. case_bool_decide as E; simpl;
    [assumption | constructor; assumption].
Qed.

(** X2: [remove_phone] never raises; afterwards [find_phone] does not find
    the value removed, however many phones had it, and finds every other
    value as before; removing the same value again changes nothing. *)
Theorem remove_phone_outcome (phone : str) (self : Record.t) :
  let self' := snd (Record.remove_phone phone self) in
  fst (Record.remove_phone phone self) = Ok tt
  /\ Record.find_phone phone self' = None
  /\ (forall other, other <> phone ->
        Record.find_phone other self' = Record.find_phone other self)
  /\ Record.remove_phone phone self' = (Ok tt, self').
Proof.
  simpl. split; [reflexivity|]. split; [|split].
  - apply find_phone_in_none. apply filter_removed_none.
  - intros other Hne. unfold Record.find_phone. simpl.
    apply find_phone_in_filter_ne. assumption.
  - unfold Record.remove_phone. simpl.
    rewrite (filter_keeps_all phone
               (List.filter (fun p => negb (str_eqb (value p) phone))
                  (Record.phones self)))
      by apply filter_removed_none.
    reflexivity.
Qed.

Lemma count_value_app (v : str) (ps qs : list Phone) :
  count_value v (ps ++ qs) = (count_value v ps + count_value v qs)%nat.
Proof.
  unfold count_value. rewrite List.filter_app, length_app. reflexivity.
Qed.

Lemma count_value_none (v : str) (ps : list Phone) :
  Forall (fun p => value p <> v) ps -> count_value v ps = 0%nat.
Proof.
  unfold count_value. induction 1 as [|p ps Hp _ IH]; simpl; [reflexivity|].
  unfold str_eqb at 1. rewrite bool_decide_eq_false_2 by assumption. exact IH.
Qed.

Lemma count_value_cons (v : str) (p : Phone) (ps : list Phone) :
  count_value v (p :: ps)
  = ((if str_eqb (value p) v then 1 else 0) + count_value v ps)%nat.
Proof.
  unfold count_value. simpl. destruct (str_eqb (value p) v); reflexivity.
Qed.

(** X3: when [edit_phone] succeeds the record has as many phones as before;
    if the new value differs from the old one, exactly one phone fewer has
    the old value and one more the new value, so that an old value held by
    two phones is still found afterwards. *)
Theorem edit_phone_counts (old_phone new_phone : str) (self : Record.t)
    (msg : str) :
  fst (Record.edit_phone old_phone new_phone self) = Ok msg ->
  let self' := snd (Record.edit_phone old_phone new_phone self) in
  let c := delete_separators new_phone in
  msg = py "Phone updated."
  /\ length (Record.phones self') = length (Record.phones self)
  /\ (c <> old_phone ->
      S (count_value old_phone (Record.phones self'))
      = count_value old_phone (Record.phones self)
      /\ count_value c (Record.phones self')
         = S (count_value c (Record.phones self)))
  /\ (c = old_phone -> self' = self).
Proof.
  unfold Record.edit_phone.
  pose proof (edit_phone_loop_spec old_phone new_phone (Record.phones self)) as H.
  assert (forall ps, fst (Record.edit_phone_loop old_phone new_phone ps) = Ok msg ->
            msg = py "Phone updated.") as Hmsg.
  { clear. induction ps as [|p ps IH]; simpl; [discriminate|].
    destruct (str_eqb (value p) old_phone).
    - destruct (Phone.init new_phone); simpl; [congruence | discriminate].
    - destruct (Record.edit_phone_loop old_phone new_phone ps) as [r ps'].
      simpl in *. exact IH. }
  specialize (Hmsg (Record.phones self)).
  destruct (Record.edit_phone_loop old_phone new_phone (Record.phones self))
    as [[m|e] ps']; simpl; [|discriminate].
  intros [= ->]. split; [apply Hmsg; reflexivity|].
  destruct H as (before & p & after & q & Hps & Hb & Hp & Hq & ->).
  apply Phone_init_ok in Hq as [_ Hq].
  rewrite Hps. rewrite !length_app. simpl. split; [reflexivity|].
  rewrite !count_value_app, !count_value_cons, Hp, Hq.
  unfold str_eqb. split.
  - intros Hne. rewrite (bool_decide_eq_true_2 (old_phone = old_phone)) by reflexivity.
    rewrite (bool_decide_eq_true_2
               (delete_separators new_phone = delete_separators new_phone))
      by reflexivity.
    rewrite (bool_decide_eq_false_2 (delete_separators new_phone = old_phone))
      by assumption.
    rewrite (bool_decide_eq_false_2 (old_phone = delete_separators new_phone))
      by congruence.
    split; lia.
  - intros Heq. destruct self as [n phs em bd]. simpl in *. subst phs.
    unfold Record.with_phones. simpl. f_equal. f_equal.
    destruct p as [vp], q as [vq]. simpl in *. congruence.
Qed.

Lemma edit_phone_counts_witness :
  let self := Record.mk (Name.init (py "Ann"))
                [mkField (py "1234567890"); mkField (py "1234567890")] [] None in
  let self' := snd (Record.edit_phone (py "1234567890") (py "0987654321") self) in
  py "Phone updated." = py "Phone updated."
  /\ length (Record.phones self') = length (Record.phones self)
  /\ (delete_separators (py "0987654321") <> py "1234567890" ->
      S (count_value (py "1234567890") (Record.phones self'))
      = count_value (py "1234567890") (Record.phones self)
      /\ count_value (delete_separators (py "0987654321")) (Record.phones self')
         = S (count_value (delete_separators (py "0987654321"))
                (Record.phones self)))
  /\ (delete_separators (py "0987654321") = py "1234567890" -> self' = self).
Proof.
  intros self self'.
  apply (edit_phone_counts (py "1234567890") (py "0987654321") self
           (py "Phone updated.")).
  vm_compute. reflexivity.
Defined.

Lemma Birthday_init_ok (raw : str) (b : Birthday) :
  Birthday.init raw = Ok b ->
  b = mkField raw /\ exists y m d, day_month_year raw y m d.
Proof.
  unfold Birthday.init. destruct (strptime raw) as [dt|e] eqn:Hs.
  - intros [= <-]. split; [reflexivity|].
    apply strptime_spec in Hs as (y & m & d & H & _). eauto.
  - destruct (caught_by _ e); discriminate.
Qed.

Lemma Birthday_init_raises (raw : str) (e : exn) :
  Birthday.init raw = Raise e ->
  e = Birthday.invalid /\ ~ exists y m d, day_month_year raw y m d.
Proof.
  intros H. split.
  - unfold Birthday.init in H. destruct (strptime raw) as [dt|e'] eqn:Hs;
      [discriminate|].
    apply strptime_raises in Hs as ->. simpl in H. congruence.
  - intros (y & m & d & Hd).
    assert (strptime raw = Ok (date.mk y m d)) as Hs
      by (apply strptime_spec; eauto).
    unfold Birthday.init in H. rewrite Hs in H. discriminate.
Qed.

(** X4: [add_birthday] on a text that reads as a date stores that text,
    replacing the birthday there was, and touches nothing else; on any other
    text it raises the date error and the record, with its earlier birthday,
    is as before. *)
Theorem add_birthday_outcome (b : str) (self : Record.t) :
  ((exists y m d, day_month_year b y m d)
   /\ Record.add_birthday b self
      = (Ok tt, Record.with_birthday self (Some (mkField b))))
  \/ (~ (exists y m d, day_month_year b y m d)
      /\ Record.add_birthday b self = (Raise Birthday.invalid, self)).
Proof.
  unfold Record.add_birthday.
  destruct (Birthday.init b) as [bd|e] eqn:Hb.
  - left. apply Birthday_init_ok in Hb as [-> H]. auto.
  - right. apply Birthday_init_raises in Hb as [-> H]. auto.
Qed.

(** X5: [Record(name, phone, email)] keeps the name and the email as they
    are given, even empty, and has no birthday; without a phone, or with an
    empty one, it has no phones; with any other phone text it is built
    exactly when the text makes a phone, which is then its only phone. *)
Theorem Record_init_outcome (name : str) (phone : option str) (email : str) :
  match phone with
  | None | Some [] =>
      Record.init name phone email = Ok (Record.mk (mkField name) [] email None)
  | Some p =>
      (canonical_phone (delete_separators p)
       /\ Record.init name phone email
          = Ok (Record.mk (mkField name) [mkField (delete_separators p)]
                  email None))
      \/ (~ canonical_phone (delete_separators p)
          /\ Record.init name phone email = Raise Phone.invalid)
  end.
Proof.
  destruct phone as [[|c p]|]; try reflexivity.
  unfold Record.init, Record.add_phone.
  destruct (Phone.init (c :: p)) as [q|e] eqn:Hq.
  - left. apply Phone_init_ok in Hq as [Hc Hv]. split; [assumption|].
    destruct q as [v]. simpl in Hv. subst v. reflexivity.
  - right. pose proof (Phone_init_raises _ _ Hq) as ->. split; [|reflexivity].
    intros Hc. apply Phone_init_ok_iff in Hc as [q' Hq']. congruence.
Qed.

Lemma Record_reachable_birthday (r : Record.t) :
  Record_reachable r -> birthday_valid r.
Proof.
  induction 1 as [name phone email r Hinit|r phone _ IH|r phone _ IH
                 |r old_phone new_phone _ IH|r b0 _ IH].
  - intros b Hb. exfalso. unfold Record.init in Hinit.
    destruct phone as [[|c s]|]; try (injection Hinit as <-; discriminate).
    unfold Record.add_phone in Hinit.
    destruct (Phone.init (c :: s)); [|discriminate].
    injection Hinit as <-. discriminate.
  - unfold Record.add_phone. destruct (Phone.init phone); exact IH.
  - exact IH.
  - unfold Record.edit_phone.
    destruct (Record.edit_phone_loop _ _ _). exact IH.
  - unfold Record.add_birthday.
    destruct (Birthday.init b0) as [bd|e] eqn:Hb; [|exact IH].
    apply Birthday_init_ok in Hb as [-> Hd].
    intros b' [= <-]. exact Hd.
Qed.

(** X6: the birthday of a record built and changed through its methods,
    when it has one, reads as a date, so [strptime] parses it again. *)
Theorem stored_birthday_valid (r : Record.t) (b : Birthday) :
  Record_reachable r ->
  (Record.birthday r = Some b) ->
  (exists y m d, day_month_year (value b) y m d)
  /\ exists bd, strptime (value b) = Ok bd.
Proof.
  intros H Hb.
  destruct (Record_reachable_birthday r H b Hb) as (y & m & d & Hd).
  split; [eauto|]. exists (date.mk y m d). apply strptime_spec. eauto.
Qed.

Lemma stored_birthday_valid_witness :
  let r := Record.mk (Name.init (py "Ann")) [] [] (Some (mkField (py "1.6.1990"))) in
  (exists y m d, day_month_year (py "1.6.1990") y m d)
  /\ exists bd, strptime (py "1.6.1990") = Ok bd.
Proof.
  intros r.
  apply (stored_birthday_valid r (mkField (py "1.6.1990"))); [|reflexivity].
  apply (reach_add_birthday (Record.mk (Name.init (py "Ann")) [] [] None)
           (py "1.6.1990")).
  apply (reach_init (py "Ann") None []). reflexivity.
Defined.

(** ** AddressBook: lookup, deletion and order *)

Section DictMore.

Context {V : Type}.
Implicit Types (d : dict.t V) (k : str) (v : V).

Lemma dict_get_none_keys d k : dict.get d k = None <-> ~ In k (dict.keys d).
Proof.
  induction d as [|[k' v'] d IH]; simpl; [tauto|].
  unfold str_eqb. case_bool_decide as E.
  - split; [discriminate | intros H; exfalso; apply H; left; assumption].
  - rewrite IH. tauto.
Qed.

Lemma dict_get_pop_eq d k :
  List.NoDup (dict.keys d) -> dict.get (dict.pop d k) k = None.
Proof.
  induction d as [|[k' v'] d IH]; simpl; intros Hnd; [reflexivity|].
  apply List.NoDup_cons_iff in Hnd as [Hk Hnd].
  unfold str_eqb. case_bool_decide as E; simpl.
  - subst k'. apply dict_get_none_keys. assumption.
  - unfold str_eqb. rewrite bool_decide_eq_false_2 by assumption. auto.
Qed.

Lemma dict_get_pop_ne d k k' :
  k' <> k -> dict.get (dict.pop d k) k' = dict.get d k'.
Proof.
  intros Hne. induction d as [|[k0 v0] d IH]; simpl; [reflexivity|].
  unfold str_eqb. case_bool_decide as E; simpl.
  - subst k0. rewrite bool_decide_eq_false_2 by congruence. reflexivity.
  - unfold str_eqb. rewrite IH. reflexivity.
Qed.

Lemma dict_pop_absent d k : dict.get d k = None -> dict.pop d k = d.
Proof.
  induction d as [|[k' v'] d IH]; simpl; [reflexivity|].
  unfold str_eqb. case_bool_decide as E; [discriminate|].
  intros H. rewrite IH by assumption. reflexivity.
Qed.

Lemma dict_setitem_new d k v :
  dict.get d k = None -> dict.setitem d k v = d ++ [(k, v)].
Proof.
  induction d as [|[k' v'] d IH]; simpl; [reflexivity|].
  unfold str_eqb. case_bool_decide as E; [discriminate|].
  intros H. rewrite IH by assumption. reflexivity.
Qed.

Lemma dict_setitem_existing d k v old :
  dict.get d k = Some old ->
  exists before after,
    d = before ++ (k, old) :: after
    /\ dict.setitem d k v = before ++ (k, v) :: after
    /\ dict.get before k = None.
Proof.
  induction d as [|[k' v'] d IH]; simpl; [discriminate|].
  unfold str_eqb. case_bool_decide as E.
  - intros [= ->]. subst k'. exists [], d. auto.
  - intros H. destruct (IH H) as (before & after & -> & -> & Hb).
    exists ((k', v') :: before), after. simpl. unfold str_eqb.
    rewrite bool_decide_eq_false_2 by assumption. auto.
Qed.

Lemma dict_setitem_same d k v : dict.get d k = Some v -> dict.setitem d k v = d.
Proof.
  induction d as [|[k' v'] d IH]; simpl; [discriminate|].
  unfold str_eqb. case_bool_decide as E.
  - intros [= ->]. reflexivity.
  - intros H. rewrite IH by assumption. reflexivity.
Qed.

Lemma dict_keys_setitem_existing d k v :
  is_Some (dict.get d k) -> dict.keys (dict.setitem d k v) = dict.keys d.
Proof.
  induction d as [|[k' v'] d IH]; simpl; [intros [? [=]]|].
  unfold str_eqb. case_bool_decide as E; simpl; [reflexivity|].
  intros H. rewrite IH by assumption. reflexivity.
Qed.

End DictMore.

(** X7: in a book obtained from a new one by [add_record] and [delete],
    [delete] leaves no record under the name, leaves every other name as it
    was, and changes nothing at all when the name is absent. *)
Theorem delete_outcome (calls : list book_call) (name other : str) :
  other <> name ->
  let book := book_after calls in
  AddressBook.find name (AddressBook.delete name book) = None
  /\ AddressBook.find other (AddressBook.delete name book)
     = AddressBook.find other book
  /\ (AddressBook.find name book = None -> AddressBook.delete name book = book).
Proof.
  intros Hne book.
  destruct (do_calls_invariant calls AddressBook.init) as [_ Hn];
    [split; constructor|].
  fold (book_after calls) in Hn. fold book in Hn.
  unfold AddressBook.find, AddressBook.delete. simpl.
  split; [apply dict_get_pop_eq; assumption|].
  split; [apply dict_get_pop_ne; assumption|].
  intros H. rewrite dict_pop_absent by assumption.
  destruct book; reflexivity.
Qed.

Lemma delete_outcome_witness :
  let ann := Record.mk (Name.init (py "Ann")) [] [] None in
  let bob := Record.mk (Name.init (py "Bob")) [] [] None in
  let book := book_after [call_add_record ann; call_add_record bob] in
  AddressBook.find (py "Ann") (AddressBook.delete (py "Ann") book) = None
  /\ AddressBook.find (py "Bob") (AddressBook.delete (py "Ann") book)
     = AddressBook.find (py "Bob") book
  /\ (AddressBook.find (py "Ann") book = None ->
      AddressBook.delete (py "Ann") book = book).
Proof.
  intros ann bob.
  apply (delete_outcome [call_add_record ann; call_add_record bob]
           (py "Ann") (py "Bob")).
  vm_compute. discriminate.
Defined.

(** X8: [add_record] under a name that the book does not have puts the
    record last in the order in which the book is iterated; under a name
    that it has, the record takes the place of the one it replaces and the
    order of the others is kept. *)
Theorem add_record_order (record : Record.t) (book : AddressBook.t) :
  let name := value (Record.name record) in
  (AddressBook.find name book = None ->
   Book.iter (AddressBook.add_record record book) = Book.iter book ++ [record])
  /\ (forall old, AddressBook.find name book = Some old ->
      exists before after,
        Book.iter book = before ++ old :: after
        /\ Book.iter (AddressBook.add_record record book)
           = before ++ record :: after).
Proof.
  intros name. unfold AddressBook.find, AddressBook.add_record, Book.iter.
  simpl. fold name. split.
  - intros H. rewrite dict_setitem_new by assumption.
    unfold dict.values. rewrite map_app. reflexivity.
  - intros old H.
    destruct (dict_setitem_existing _ _ record _ H) as (before & after & -> & -> & _).
    exists (dict.values before), (dict.values after).
    unfold dict.values. rewrite !map_app. split; reflexivity.
Qed.

(** ** The dates that the query reports *)

Lemma entry_birthday (n s : str) :
  dict.get [(py "name", n); (py "birthday", s)] (py "birthday") = Some s.
Proof. vm_compute. reflexivity. Qed.

Lemma weekend_cases (dt : date.t) :
  (weekend dt = true /\ (date.weekday dt = 5 \/ date.weekday dt = 6))
  \/ (weekend dt = false /\ 0 <= date.weekday dt <= 4).
Proof.
  unfold weekend. pose proof (weekday_range dt) as Hr.
  destruct (date.weekday dt =? 5) eqn:E5; [apply Z.eqb_eq in E5; left; auto|].
  destruct (date.weekday dt =? 6) eqn:E6; [apply Z.eqb_eq in E6; left; auto|].
  apply Z.eqb_neq in E5, E6. right. split; [reflexivity | lia].
Qed.

Lemma reported_weekday (today : date.t) (rec : Record.t) (e : dict.t str) :
  upcoming today rec = true -> reported today rec e ->
  exists shown,
    dict.get e (py "birthday") = Some (strftime shown)
    /\ valid_date shown
    /\ 0 <= date.weekday shown <= 4
    /\ 0 <= date.toordinal shown - date.toordinal today <= 9.
Proof.
  intros Hu (b & bd & Hb & Hbd & He & _ & Hvs & Hmon & _).
  unfold upcoming in Hu. rewrite Hb, Hbd in Hu.
  unfold in_window in Hu. apply andb_true_iff in Hu as [H0 H7].
  apply Z.leb_le in H0, H7.
  set (occ := next_occurrence today bd) in *.
  destruct (weekend_cases occ) as [[Hw Hwd]|[Hw Hwd]]; rewrite Hw in *.
  - destruct (Hmon eq_refl) as [Hord Hmonday].
    eexists. split; [rewrite He; apply entry_birthday|].
    split; [assumption|]. rewrite Hmonday, Hord. lia.
  - exists occ. split; [rewrite He; apply entry_birthday|].
    split; [assumption|]. lia.
Qed.

(** X9: every date that [get_upcoming_birthdays] reports is an existing date
    from Monday to Friday, today at the earliest and nine days from today at
    the latest. *)
Theorem reported_dates_are_weekdays (today : date.t) (book : AddressBook.t)
    (res : list (dict.t str)) :
  AddressBook.get_upcoming_birthdays today book = Ok res ->
  Forall
    (fun e =>
       exists shown,
         dict.get e (py "birthday") = Some (strftime shown)
         /\ valid_date shown
         /\ 0 <= date.weekday shown <= 4
         /\ 0 <= date.toordinal shown - date.toordinal today <= 9)
    res.
Proof.
  unfold AddressBook.get_upcoming_birthdays. intros H.
  apply upcoming_loop_spec in H as (entries & -> & HF). simpl.
  assert (Forall (fun rec => upcoming today rec = true)
            (List.filter (upcoming today)
               (dict.values (AddressBook.data book)))) as Hall.
  { apply Forall_forall. intros rec Hin.
    apply List.filter_In in Hin as [_ Hin]. exact Hin. }
  induction HF as [|rec e recs es He _ IH]; [constructor|].
  inversion Hall; subst.
  constructor; [eapply reported_weekday; eassumption | auto].
Qed.

Lemma reported_dates_are_weekdays_witness :
  let today := date.mk 2024 6 10 in
  let ann := Record.mk (Name.init (py "Ann")) [] [] (Some (mkField (py "16.06.1990"))) in
  let book := book_after [call_add_record ann] in
  Forall
    (fun e =>
       exists shown,
         dict.get e (py "birthday") = Some (strftime shown)
         /\ valid_date shown
         /\ 0 <= date.weekday shown <= 4
         /\ 0 <= date.toordinal shown - date.toordinal today <= 9)
    [[(py "name", py "Ann"); (py "birthday", py "17.06.2024")]].
Proof.
  intros today ann book.
  apply (reported_dates_are_weekdays today book).
  vm_compute. reflexivity.
Defined.

(** X10: the query returns a list, rather than raising, for every book whose
    records were built through their methods and have no birthday on
    29 February, on any day before the year 9999. *)
Theorem get_upcoming_birthdays_total (today : date.t) (book : AddressBook.t) :
  valid_date today -> date.year today < 9999 ->
  Forall Record_reachable (dict.values (AddressBook.data book)) ->
  (forall rec b bd,
     In rec (dict.values (AddressBook.data book)) ->
     (Record.birthday rec = Some b) -> strptime (value b) = Ok bd ->
     ~ (date.month bd = 2 /\ date.day bd = 29)) ->
  exists res, AddressBook.get_upcoming_birthdays today book = Ok res.
Proof.
  intros Hv Hy Hreach Hfeb.
  apply get_upcoming_birthdays_returns; [assumption | assumption|].
  intros rec b Hin Hb.
  rewrite Forall_forall in Hreach.
  assert (Record_reachable rec) as Hr by (apply Hreach, Hin).
  destruct (Record_reachable_birthday rec Hr b Hb) as (y & m & d & Hd).
  assert (strptime (value b) = Ok (date.mk y m d)) as Hs
    by (apply strptime_spec; eauto).
  exists (date.mk y m d). split; [assumption|]. eapply Hfeb; eassumption.
Qed.

Lemma get_upcoming_birthdays_total_witness :
  let today := date.mk 2024 6 10 in
  let ann := Record.mk (Name.init (py "Ann")) [] [] (Some (mkField (py "16.06.1990"))) in
  let book := book_after [call_add_record ann] in
  exists res, AddressBook.get_upcoming_birthdays today book = Ok res.
Proof.
  intros today ann book.
  apply (get_upcoming_birthdays_total today book).
  - split; [simpl; lia|]. exists 30. split; [|simpl; lia].
    unfold month_length. simpl. do 6 right. left. split; reflexivity.
  - simpl. lia.
  - change (dict.values (AddressBook.data book)) with [ann].
    constructor; [|constructor].
    apply (reach_add_birthday (Record.mk (Name.init (py "Ann")) [] [] None)
             (py "16.06.1990")).
    apply (reach_init (py "Ann") None []). reflexivity.
  - change (dict.values (AddressBook.data book)) with [ann].
    intros rec b bd [<-|[]] [= <-] Hs. vm_compute in Hs.
    injection Hs as <-. simpl. lia.
Defined.

(** ** More on loading *)

Section PersistenceMore.

Variable unpickle : bytes -> result (dict.t Record.t).

Local Abbreviation pickle_load := (AddressBook.pickle_load unpickle).
Local Abbreviation load := (AddressBook.load unpickle).

Lemma load_opened_spec (opened : result bytes) (self : AddressBook.t) :
  load_opened unpickle opened self =
  match (contents <- opened ;; pickle_load contents) with
  | Ok d => (Ok tt, AddressBook.mk d)
  | Raise e =>
      if issubclass (exn_cls e) FileNotFoundError
         || issubclass (exn_cls e) PickleError
      then (Ok tt, AddressBook.mk dict.empty)
      else (Raise e, self)
  end.
Proof.
  unfold load_opened.
  destruct (contents <- opened ;; pickle_load contents) as [d|e];
    [reflexivity|].
  unfold caught_by. simpl. rewrite orb_false_r. reflexivity.
Qed.

(** X11: whatever [open] answers, be it the contents of the file, the
    [FileNotFoundError] of a missing file or another [OSError], [load]
    never raises [FileNotFoundError] or a [PickleError]: it raises exactly
    the exceptions of [open] and of the unpickler that are neither, and then
    leaves the book as it was; when it returns, the book it gives does not
    depend on what the book held before. *)
Theorem load_outcome (opened : result bytes) (self : AddressBook.t) :
  (forall filename fs,
     load filename self fs
     = load_opened unpickle
         (AddressBook.open_rb fs (AddressBook.filename_or_default filename))
         self)
  /\ (forall e,
        fst (load_opened unpickle opened self) = Raise e <->
        issubclass (exn_cls e) FileNotFoundError = false
        /\ issubclass (exn_cls e) PickleError = false
        /\ (opened = Raise e
            \/ exists contents,
                 opened = Ok contents /\ pickle_load contents = Raise e))
  /\ (forall e,
        fst (load_opened unpickle opened self) = Raise e ->
        snd (load_opened unpickle opened self) = self)
  /\ (fst (load_opened unpickle opened self) = Ok tt ->
      forall other,
        load_opened unpickle opened other = load_opened unpickle opened self).
Proof.
  split; [reflexivity|].
  rewrite load_opened_spec.
  split; [|split].
  - intros e. split.
    + destruct opened as [contents|e0]; cbn [bind].
      * destruct (pickle_load contents) as [d|e'] eqn:Hl; [discriminate|].
        destruct (issubclass (exn_cls e') FileNotFoundError) eqn:H1;
          [discriminate|].
        destruct (issubclass (exn_cls e') PickleError) eqn:H2; [discriminate|].
        simpl. intros [= <-]. eauto 10.
      * destruct (issubclass (exn_cls e0) FileNotFoundError) eqn:H1;
          [discriminate|].
        destruct (issubclass (exn_cls e0) PickleError) eqn:H2; [discriminate|].
        simpl. intros [= <-]. auto.
    + intros (H1 & H2 & [->|(contents & -> & Hl)]); cbn [bind];
        rewrite ?Hl, H1, H2; reflexivity.
  - intros e. destruct (contents <- opened ;; pickle_load contents) as [d|e'];
      [discriminate|].
    destruct (issubclass (exn_cls e') FileNotFoundError || _);
      [discriminate | reflexivity].
  - intros H other. rewrite !load_opened_spec.
    destruct (contents <- opened ;; pickle_load contents) as [d|e'];
      [reflexivity|].
    destruct (issubclass (exn_cls e') FileNotFoundError || _);
      [reflexivity | discriminate].
Qed.

End PersistenceMore.

(** ** The CSV export *)

Lemma special_cases (c : char) :
  csv.special c = true -> (c = 44 \/ c = 34 \/ c = 13 \/ c = 10)%N.
Proof.
  unfold csv.special. rewrite !orb_true_iff, !N.eqb_eq.
  change (chr ",") with 44%N. change csv.quotechar with 34%N. tauto.
Qed.

Lemma range_not_special (lo hi c : char) :
  in_range lo hi c = true -> (45 <= lo)%N -> csv.special c = false.
Proof.
  unfold in_range. rewrite andb_true_iff, !N.leb_le. intros [Hlo _] H.
  destruct (csv.special c) eqn:E; [|reflexivity].
  apply special_cases in E. lia.
Qed.

Lemma digit_not_special (c : char) :
  isdigit_char c = true -> csv.special c = false.
Proof.
  intros H. destruct (csv.special c) eqn:E; [|reflexivity].
  apply special_cases in E.
  destruct E as [->|[->|[->| ->]]]; vm_compute in H; discriminate H.
Qed.

Lemma decimal_not_special (c : char) :
  isdecimal_char c = true -> csv.special c = false.
Proof.
  intros H. apply digit_not_special. unfold isdigit_char. rewrite H. reflexivity.
Qed.

Ltac not_special :=
  repeat constructor;
  first [ reflexivity
        | apply decimal_not_special; assumption
        | eapply range_not_special;
          [eassumption | apply N.leb_le; vm_compute; reflexivity] ].

Lemma day_field_plain (D : str) :
  day_field D = true -> Forall (fun c => csv.special c = false) D.
Proof.
  destruct D as [|a [|b [|? ?]]]; simpl; try discriminate;
    intros H; bool_to_prop; not_special.
Qed.

Lemma month_field_plain (M : str) :
  month_field M = true -> Forall (fun c => csv.special c = false) M.
Proof.
  destruct M as [|a [|b [|? ?]]]; simpl; try discriminate;
    intros H; bool_to_prop; not_special.
Qed.

Lemma year_field_plain (Y : str) :
  year_field Y = true -> Forall (fun c => csv.special c = false) Y.
Proof.
  destruct Y as [|a [|b [|c [|d [|? ?]]]]]; simpl; try discriminate;
    intros H; bool_to_prop; not_special.
Qed.

Lemma day_month_year_plain (raw : str) (y m d : Z) :
  day_month_year raw y m d -> Forall (fun c => csv.special c = false) raw.
Proof.
  intros (D & M & Y & -> & HD & HM & HY & _).
  repeat (apply Forall_app; split);
    auto using day_field_plain, month_field_plain, year_field_plain;
    not_special.
Qed.

Lemma field_plain (s : str) :
  Forall (fun c => csv.special c = false) s -> csv.field s = s.
Proof.
  intros H. unfold csv.field.
  assert (existsb csv.special s = false) as ->; [|reflexivity].
  induction H as [|c s Hc _ IH]; simpl; [reflexivity|].
  rewrite Hc, IH. reflexivity.
Qed.

Lemma join_Forall (P : char -> Prop) (sep : str) (parts : list str) :
  Forall P sep -> Forall (Forall P) parts -> Forall P (Str.join sep parts).
Proof.
  intros Hsep. induction 1 as [|x parts Hx Hparts IH]; simpl; [constructor|].
  destruct parts as [|x' parts']; [assumption|].
  apply Forall_app. split; [assumption|].
  apply Forall_app. split; [assumption | exact IH].
Qed.

Lemma phones_column_plain (rec : Record.t) :
  phones_canonical rec ->
  csv.field (Str.join (py "; ") (map value (Record.phones rec)))
  = Str.join (py "; ") (map value (Record.phones rec)).
Proof.
  intros H. apply field_plain, join_Forall; [not_special|].
  unfold phones_canonical in H. induction H as [|p ps [Hp _] _ IH]; simpl;
    constructor; [|exact IH].
  eapply List.Forall_impl; [|exact Hp]. intros c Hc. apply digit_not_special, Hc.
Qed.

Lemma birthday_column_plain (rec : Record.t) :
  birthday_valid rec ->
  csv.field (match Record.birthday rec with Some b => value b | None => [] end)
  = match Record.birthday rec with Some b => value b | None => [] end.
Proof.
  intros H. destruct (Record.birthday rec) as [b|] eqn:Hb; [|reflexivity].
  destruct (H b Hb) as (y & m & d & Hd).
  eapply field_plain, day_month_year_plain, Hd.
Qed.

Lemma writerow_row (rec : Record.t) :
  phones_canonical rec -> birthday_valid rec ->
  csv.writerow (Book.row rec)
  = csv.field (value (Record.name rec)) ++ py ","
    ++ Str.join (py "; ") (map value (Record.phones rec)) ++ py ","
    ++ csv.field (Record.email rec) ++ py ","
    ++ match Record.birthday rec with Some b => value b | None => [] end
    ++ [13; 10]%N.
Proof.
  intros Hp Hb. unfold Book.row.
  assert (forall a b c d : str,
            csv.writerow [a; b; c; d]
            = csv.field a ++ py "," ++ csv.field b ++ py ","
              ++ csv.field c ++ py "," ++ csv.field d ++ [13; 10]%N) as ->.
  { intros a b c d. unfold csv.writerow.
    destruct a; cbn [map Str.join]; rewrite <- !app_assoc; reflexivity. }
  rewrite phones_column_plain, birthday_column_plain by assumption.
  reflexivity.
Qed.

Section ExportFacts.

Variable encodable : char -> bool.

Lemma write_rows_all (rows : list str) (text : str) :
  Forall (fun l => forallb encodable l = true) rows ->
  Book.write_rows encodable rows text = (Book.written, text ++ concat rows).
Proof.
  intros H. revert text. induction H as [|l rows Hl _ IH]; intros text; simpl.
  - rewrite app_nil_r. reflexivity.
  - rewrite Hl, IH, <- app_assoc. reflexivity.
Qed.

Lemma write_rows_bad (before : list str) (bad : str) (after : list str)
    (text : str) :
  Forall (fun l => forallb encodable l = true) before ->
  forallb encodable bad = false ->
  Book.write_rows encodable (before ++ bad :: after) text
  = (Book.unencodable, text ++ concat before).
Proof.
  intros H Hbad. revert text.
  induction H as [|l rows Hl _ IH]; intros text; simpl.
  - rewrite Hbad, app_nil_r. reflexivity.
  - rewrite Hl, IH, <- app_assoc. reflexivity.
Qed.

(** X13: once [contacts.csv] is open, the export of a book of records built
    and changed through their methods writes the header line and then one
    line per record in the order of the book, every line ended by CR LF; in
    a line the phones, joined by a semicolon and a space, and the birthday
    are written as they are, and only the name and the email can be written
    between quotes. When every line can be encoded, all of them are written
    and the export returns; otherwise it raises [UnicodeEncodeError] at the
    first line that cannot, and the file is left with the lines before that
    one. *)
Theorem export_to_csv_text (book : AddressBook.t) :
  Forall Record_reachable (Book.iter book) ->
  let line := fun rec =>
    csv.field (value (Record.name rec)) ++ py ","
    ++ Str.join (py "; ") (map value (Record.phones rec))
    ++ py "," ++ csv.field (Record.email rec) ++ py ","
    ++ match Record.birthday rec with
       | Some b => value b
       | None => []
       end
    ++ [13; 10]%N in
  let lines :=
    (py "Name,Phones,Email,Birthday" ++ [13; 10]%N)
    :: map line (Book.iter book) in
  (Forall (fun l => forallb encodable l = true) lines ->
   Book.export_body encodable book = (Book.written, concat lines))
  /\ (forall before bad after,
        lines = before ++ bad :: after ->
        Forall (fun l => forallb encodable l = true) before ->
        forallb encodable bad = false ->
        Book.export_body encodable book = (Book.unencodable, concat before)).
Proof.
  intros H line lines.
  assert (Book.csv_rows book = lines) as Hrows.
  { unfold Book.csv_rows, lines. f_equal.
    induction H as [|rec recs Hrec _ IH]; cbn [map]; [reflexivity|].
    rewrite IH, writerow_row
      by auto using Record_reachable_canonical, Record_reachable_birthday.
    reflexivity. }
  unfold Book.export_body. rewrite Hrows. split.
  - intros Hall. rewrite write_rows_all by assumption. reflexivity.
  - intros before bad after -> Hb Hbad.
    rewrite write_rows_bad by assumption. reflexivity.
Qed.

End ExportFacts.

Lemma export_to_csv_text_witness :
  let ann := Record.mk (Name.init (py "Ann, A.")) [] [] None in
  let ann' := snd (Record.add_birthday (py "1.6.1990")
                     (snd (Record.add_phone (py "+38 050 123-45-67") ann))) in
  let eve := Record.mk (Name.init ([56448%N] ++ py "x")) [] [] None in
  let header := py "Name,Phones,Email,Birthday" ++ [13; 10]%N in
  Book.export_body utf8 (book_after [call_add_record ann'])
  = (Book.written,
     header ++ [34%N] ++ py "Ann, A." ++ [34%N]
     ++ py ",380501234567,,1.6.1990" ++ [13; 10]%N)
  /\ Book.export_body utf8
       (book_after [call_add_record ann'; call_add_record eve])
     = (Book.unencodable,
        header ++ [34%N] ++ py "Ann, A." ++ [34%N]
        ++ py ",380501234567,,1.6.1990" ++ [13; 10]%N).
Proof.
  intros ann ann' eve header.
  assert (Record_reachable ann') as Hann.
  { apply reach_add_birthday, reach_add_phone.
    apply (reach_init (py "Ann, A.") None []). reflexivity. }
  assert (Record_reachable eve) as Heve.
  { apply (reach_init ([56448%N] ++ py "x") None []). reflexivity. }
  assert (Forall Record_reachable
            (Book.iter (book_after [call_add_record ann']))) as H1.
  { change (Book.iter (book_after [call_add_record ann'])) with [ann'].
    constructor; [exact Hann | constructor]. }
  assert (Forall Record_reachable
            (Book.iter (book_after [call_add_record ann'; call_add_record eve])))
    as H2.
  { change (Book.iter (book_after [call_add_record ann'; call_add_record eve]))
      with [ann'; eve].
    constructor; [exact Hann|]. constructor; [exact Heve | constructor]. }
  split.
  - apply (proj1 (export_to_csv_text utf8 _ H1)).
    vm_compute. repeat constructor.
  - apply (proj2 (export_to_csv_text utf8 _ H2)
             [header;
              [34%N] ++ py "Ann, A." ++ [34%N]
              ++ py ",380501234567,,1.6.1990" ++ [13; 10]%N]
             ([56448%N] ++ py "x,,," ++ [13; 10]%N) []).
    + vm_compute. reflexivity.
    + vm_compute. repeat constructor.
    + vm_compute. reflexivity.
Defined.

(** ** Splitting a line into words *)

Lemma split_from_spaces (sp w : str) :
  Forall (fun c => isspace_char c = true) sp ->
  Str.split_from sp w = match w with [] => [] | _ => [rev w] end.
Proof.
  intros H. revert w. induction H as [|c sp Hc _ IH]; intros w; simpl;
    [reflexivity|].
  rewrite Hc. destruct w; rewrite IH; reflexivity.
Qed.

Lemma split_from_app_spaces (s sp w : str) :
  Forall (fun c => isspace_char c = true) sp ->
  Str.split_from (s ++ sp) w = Str.split_from s w.
Proof.
  intros H. revert w. induction s as [|c s IH]; intros w; simpl.
  - rewrite split_from_spaces by assumption. reflexivity.
  - destruct (isspace_char c); [destruct w|]; rewrite IH; reflexivity.
Qed.

Lemma split_from_spaces_app (sp s : str) :
  Forall (fun c => isspace_char c = true) sp ->
  Str.split_from (sp ++ s) [] = Str.split_from s [].
Proof.
  induction 1 as [|c sp Hc _ IH]; simpl; [reflexivity|].
  rewrite Hc. exact IH.
Qed.

Lemma split_from_word (u s w : str) :
  Forall (fun c => isspace_char c = false) u ->
  Str.split_from (u ++ s) w = Str.split_from s (rev u ++ w).
Proof.
  intros H. revert w. induction H as [|c u Hc _ IH]; intros w; simpl;
    [reflexivity|].
  rewrite Hc, IH, <- app_assoc. reflexivity.
Qed.

Lemma split_from_words (s w : str) :
  Forall (fun c => isspace_char c = false) w ->
  Forall word (Str.split_from s w).
Proof.
  assert (forall w, w <> [] -> Forall (fun c => isspace_char c = false) w ->
                    word (rev w)) as Hword.
  { intros w' Hne Hw. split.
    - intros E. apply Hne. rewrite <- (rev_involutive w'), E. reflexivity.
    - apply Forall_rev. exact Hw. }
  revert w. induction s as [|c s IH]; intros w Hw; simpl.
  - destruct w; [constructor|]. constructor; [|constructor].
    apply Hword; [discriminate | assumption].
  - destruct (isspace_char c) eqn:Hc.
    + destruct w; [apply IH; constructor|].
      constructor; [apply Hword; [discriminate | assumption]|].
      apply IH. constructor.
    + apply IH. constructor; assumption.
Qed.

Lemma lstrip_spec (s : str) :
  exists sp, s = sp ++ Str.lstrip s
             /\ Forall (fun c => isspace_char c = true) sp.
Proof.
  induction s as [|c s (sp & IH & Hsp)]; simpl; [exists []; auto|].
  destruct (isspace_char c) eqn:Hc.
  - exists (c :: sp). split; [simpl; congruence | constructor; assumption].
  - exists []. auto.
Qed.

Lemma rstrip_spec (s : str) :
  exists sp, s = Str.rstrip s ++ sp
             /\ Forall (fun c => isspace_char c = true) sp.
Proof.
  destruct (lstrip_spec (rev s)) as (sp & E & Hsp).
  exists (rev sp). split; [|apply Forall_rev; assumption].
  unfold Str.rstrip. rewrite <- rev_app_distr, <- E, rev_involutive.
  reflexivity.
Qed.

(** [strip()] before [split()] changes nothing. *)
Lemma split_strip (s : str) : Str.split (Str.strip s) = Str.split s.
Proof.
  unfold Str.split, Str.strip.
  destruct (lstrip_spec s) as (sp1 & E1 & H1).
  destruct (rstrip_spec (Str.lstrip s)) as (sp2 & E2 & H2).
  rewrite E1 at 2. rewrite split_from_spaces_app by assumption.
  rewrite E2 at 2. rewrite split_from_app_spaces by assumption.
  reflexivity.
Qed.

Lemma split_join (sep : str) (ws : list str) :
  sep <> [] -> Forall (fun c => isspace_char c = true) sep ->
  Forall word ws -> Str.split (Str.join sep ws) = ws.
Proof.
  intros Hne Hsep. unfold Str.split.
  assert (forall x, word x -> rev (rev x ++ []) = x) as Hrev
    by (intros x _; rewrite app_nil_r; apply rev_involutive).
  assert (forall x, word x -> rev x ++ [] <> []) as Hnn.
  { intros x [Hx _] E. rewrite app_nil_r in E. apply Hx.
    rewrite <- (rev_involutive x), E. reflexivity. }
  induction 1 as [|x ws Hx Hws IH]; [reflexivity|].
  simpl. destruct ws as [|y ws].
  - rewrite <- (app_nil_r x) at 1.
    rewrite split_from_word by apply Hx. simpl.
    specialize (Hnn x Hx). destruct (rev x ++ []) eqn:E; [congruence|].
    rewrite <- E, Hrev by assumption. reflexivity.
  - rewrite split_from_word by apply Hx.
    destruct sep as [|c sep]; [congruence|].
    inversion Hsep as [|? ? Hc Hsep']; subst.
    cbn [app Str.split_from]. rewrite Hc.
    specialize (Hnn x Hx). destruct (rev x ++ []) eqn:E; [congruence|].
    rewrite <- E, Hrev by assumption.
    rewrite split_from_spaces_app by assumption. rewrite IH. reflexivity.
Qed.

Lemma split_from_pending (s w : str) : w <> [] -> Str.split_from s w <> [].
Proof.
  revert w. induction s as [|a s IH]; intros w Hw; simpl.
  - destruct w; [congruence | discriminate].
  - destruct (isspace_char a).
    + destruct w; [congruence | discriminate].
    + apply IH. discriminate.
Qed.

Lemma split_nil (s : str) :
  Str.split s = [] -> Forall (fun c => isspace_char c = true) s.
Proof.
  unfold Str.split. induction s as [|c s IH]; simpl; [constructor|].
  destruct (isspace_char c) eqn:Hc.
  - intros H. constructor; auto.
  - intros H. exfalso. revert H. apply split_from_pending. discriminate.
Qed.

(** X14: the parts that [split()] gives are words: none is empty and none
    holds white space; there is no part at all exactly when the text is
    empty or all white space. *)
Theorem split_words (s : str) :
  Forall word (Str.split s)
  /\ (Str.split s = [] <-> Forall (fun c => isspace_char c = true) s).
Proof.
  split; [apply split_from_words; constructor|].
  split; [apply split_nil|].
  intros H. unfold Str.split. rewrite split_from_spaces by assumption.
  reflexivity.
Qed.

(** X15: joining words by a separator of white space and splitting the
    result gives the words back. *)
Theorem split_join_words (sep : str) (ws : list str) :
  sep <> [] -> Forall (fun c => isspace_char c = true) sep ->
  Forall word ws -> Str.split (Str.join sep ws) = ws.
Proof. apply split_join. Qed.

Lemma split_join_words_witness :
  Str.split (Str.join [32; 9]%N [py "add"; py "Ann"; py "0501234567"])
  = [py "add"; py "Ann"; py "0501234567"].
Proof.
  apply (split_join_words [32; 9]%N [py "add"; py "Ann"; py "0501234567"]).
  - discriminate.
  - repeat constructor.
  - repeat constructor; discriminate.
Defined.

(** ** The commands of the controller *)

Lemma with_book_same (self : Controller.t) :
  Controller.with_book self (Controller.book self) = self.
Proof. destruct self; reflexivity. Qed.

Lemma update_same (name : str) (rec : Record.t) (self : Controller.t) :
  AddressBook.find name (Controller.book self) = Some rec ->
  Controller.update name rec self = self.
Proof.
  intros H. unfold Controller.update. unfold AddressBook.find in H.
  rewrite dict_setitem_same by assumption.
  destruct self as [[d] ? ? ? ?]; reflexivity.
Qed.

Lemma Record_init_raises (name : str) (phone : option str) (email : str)
    (e : exn) :
  (Record.init name phone email = Raise e) -> e = Phone.invalid.
Proof.
  unfold Record.init, Record.add_phone.
  destruct phone as [[|c s]|]; try discriminate.
  destruct (Phone.init (c :: s)) eqn:Hp; [discriminate|].
  intros [= <-]. eapply Phone_init_raises; eassumption.
Qed.

Lemma Record_init_name (name : str) (phone : option str) (email : str)
    (r : Record.t) :
  (Record.init name phone email = Ok r) -> value (Record.name r) = name.
Proof.
  unfold Record.init, Record.add_phone.
  destruct phone as [[|c s]|]; try (intros [= <-]; reflexivity).
  destruct (Phone.init (c :: s)); [|discriminate].
  intros [= <-]. reflexivity.
Qed.

Lemma Record_init_birthday (name : str) (phone : option str) (email : str)
    (r : Record.t) :
  (Record.init name phone email = Ok r) -> Record.birthday r = None.
Proof.
  unfold Record.init, Record.add_phone.
  destruct phone as [[|c s]|]; try (intros [= <-]; reflexivity).
  destruct (Phone.init (c :: s)); [|discriminate].
  intros [= <-]. reflexivity.
Qed.

Lemma edit_phone_raises (old_phone new_phone : str) (rec rec' : Record.t)
    (e : exn) :
  Record.edit_phone old_phone new_phone rec = (Raise e, rec') ->
  rec' = rec /\ exists m, e = Exn ValueError (Some m).
Proof.
  unfold Record.edit_phone.
  assert (forall ps e' ps',
            Record.edit_phone_loop old_phone new_phone ps = (Raise e', ps') ->
            ps' = ps /\ exists m, e' = Exn ValueError (Some m)) as Hloop.
  { induction ps as [|p ps IH]; simpl; intros e' ps'.
    - intros [= <- <-]. split; [reflexivity | eexists; reflexivity].
    - destruct (str_eqb (value p) old_phone).
      + destruct (Phone.init new_phone) eqn:Hp; [discriminate|].
        intros [= <- <-]. apply Phone_init_raises in Hp as ->.
        split; [reflexivity | eexists; reflexivity].
      + destruct (Record.edit_phone_loop old_phone new_phone ps) as [r rest'].
        intros [= -> <-]. destruct (IH e' rest' eq_refl) as [-> Hm].
        split; [reflexivity | exact Hm]. }
  destruct (Record.edit_phone_loop old_phone new_phone (Record.phones rec))
    as [r ps] eqn:Hl.
  intros [= -> <-]. apply Hloop in Hl as [-> Hm].
  rewrite with_phones_same. split; [reflexivity | exact Hm].
Qed.

Lemma edit_phone_name (old_phone new_phone : str) (rec : Record.t) :
  Record.name (snd (Record.edit_phone old_phone new_phone rec)) = Record.name rec
  /\ Record.birthday (snd (Record.edit_phone old_phone new_phone rec))
     = Record.birthday rec.
Proof.
  unfold Record.edit_phone.
  destruct (Record.edit_phone_loop _ _ _). split; reflexivity.
Qed.

Lemma birthday_valid_ext (r r' : Record.t) :
  (Record.birthday r' = Record.birthday r) ->
  birthday_valid r -> birthday_valid r'.
Proof. unfold birthday_valid. intros ->. auto. Qed.

Lemma record_ok_ext (r r' : Record.t) :
  (Record.phones r' = Record.phones r) ->
  (Record.birthday r' = Record.birthday r) ->
  record_ok r -> record_ok r'.
Proof.
  unfold record_ok, phones_canonical, birthday_valid. intros -> ->. auto.
Qed.

Lemma record_ok_add_phone (phone : str) (r : Record.t) :
  record_ok r -> record_ok (snd (Record.add_phone phone r)).
Proof.
  intros [Hc Hb]. split; [apply phones_canonical_add_phone; assumption|].
  eapply birthday_valid_ext; [|exact Hb].
  unfold Record.add_phone. destruct (Phone.init phone); reflexivity.
Qed.

Lemma record_ok_edit_phone (old_phone new_phone : str) (r : Record.t) :
  record_ok r -> record_ok (snd (Record.edit_phone old_phone new_phone r)).
Proof.
  intros [Hc Hb]. split; [apply phones_canonical_edit_phone; assumption|].
  eapply birthday_valid_ext; [|exact Hb]. apply edit_phone_name.
Qed.

Lemma record_ok_add_birthday (b : str) (r : Record.t) :
  record_ok r -> record_ok (snd (Record.add_birthday b r)).
Proof.
  intros [Hc Hb]. split; [apply phones_canonical_add_birthday; assumption|].
  unfold Record.add_birthday.
  destruct (Birthday.init b) as [bd|e] eqn:Hbd; [|exact Hb].
  apply Birthday_init_ok in Hbd as [-> Hd]. intros b' [= <-]. exact Hd.
Qed.

Lemma record_ok_init (name : str) (phone : option str) (email : str)
    (r : Record.t) :
  (Record.init name phone email = Ok r) -> record_ok r.
Proof.
  intros H. split; [eapply phones_canonical_init; eassumption|].
  intros b Hb. apply Record_init_birthday in H. congruence.
Qed.

Lemma add_body_cases : body_cases Controller.add_body.
Proof.
  intros args self.
  destruct args as [|name [|phone rest]]; [left; eexists; reflexivity..|].
  unfold Controller.add_body.
  destruct (AddressBook.find name (Controller.book self)) as [record|] eqn:Hf.
  - pose proof (record_ok_add_phone phone record) as Hok.
    unfold Record.add_phone in *.
    destruct (Phone.init phone) as [p|e] eqn:Hp.
    + right. eexists _, _. split; [reflexivity|].
      eapply step_update; [eassumption | |].
      * destruct rest as [|[|c e] rest']; reflexivity.
      * intros H. apply Hok in H.
        destruct rest as [|[|c e] rest']; exact H.
    + left. apply Phone_init_raises in Hp as ->.
      rewrite update_same by assumption. eexists. reflexivity.
  - destruct (Record.init name (Some phone) _) as [record|e] eqn:Hi.
    + right. eexists _, _. split; [reflexivity|].
      eapply step_add; eassumption.
    + left. apply Record_init_raises in Hi as ->. eexists. reflexivity.
Qed.

Lemma change_body_cases : body_cases Controller.change_body.
Proof.
  intros args self.
  destruct args as [|name [|old_phone [|new_phone [|? ?]]]];
    try (left; eexists; reflexivity).
  unfold Controller.change_body.
  destruct (AddressBook.find name (Controller.book self)) as [rec|] eqn:Hf;
    [|left; eexists; reflexivity].
  pose proof (record_ok_edit_phone old_phone new_phone rec) as Hok.
  pose proof (edit_phone_name old_phone new_phone rec) as [Hn _].
  destruct (Record.edit_phone old_phone new_phone rec) as [[msg|e] rec'] eqn:He.
  - right. eexists _, _. split; [reflexivity|].
    eapply step_update; eassumption.
  - left. apply edit_phone_raises in He as [-> [m ->]].
    rewrite update_same by assumption. eexists. reflexivity.
Qed.

Lemma add_birthday_body_cases : body_cases Controller.add_birthday_body.
Proof.
  intros args self.
  destruct args as [|name [|bday [|? ?]]]; try (left; eexists; reflexivity).
  unfold Controller.add_birthday_body.
  destruct (AddressBook.find name (Controller.book self)) as [rec|] eqn:Hf;
    [|left; eexists; reflexivity].
  pose proof (record_ok_add_birthday bday rec) as Hok.
  unfold Record.add_birthday in *.
  destruct (Birthday.init bday) as [b|e] eqn:Hb.
  - right. eexists _, _. split; [reflexivity|].
    eapply step_update; [eassumption | reflexivity | exact Hok].
  - left. apply Birthday_init_raises in Hb as [-> _].
    rewrite update_same by assumption. eexists. reflexivity.
Qed.

Lemma phone_body_cases : body_cases Controller.phone_body.
Proof.
  intros args self.
  destruct args as [|name [|? ?]]; try (left; eexists; reflexivity).
  unfold Controller.phone_body.
  destruct (AddressBook.find name (Controller.book self)) as [[n [|p ps] e b]|];
    try (left; eexists; reflexivity).
  right. exists (name ++ py ": " ++ Str.join (py ", ") (map value (p :: ps))).
  exists (Controller.book self). rewrite with_book_same.
  split; [reflexivity | constructor].
Qed.

Lemma show_birthday_body_cases : body_cases Controller.show_birthday_body.
Proof.
  intros args self.
  destruct args as [|name [|? ?]]; try (left; eexists; reflexivity).
  unfold Controller.show_birthday_body.
  destruct (AddressBook.find name (Controller.book self)) as [[n ps e [b|]]|];
    try (left; eexists; reflexivity).
  right. exists (name ++ py "'s birthday is " ++ value b).
  exists (Controller.book self). rewrite with_book_same.
  split; [reflexivity | constructor].
Qed.

(** The entries of [get_upcoming_birthdays] have both keys that
    [cmd_birthdays] reads. *)
Lemma birthday_lines_returns (today : date.t) (book : AddressBook.t)
    (res : list (dict.t str)) :
  AddressBook.get_upcoming_birthdays today book = Ok res ->
  exists lines, Controller.birthday_lines res = Controller.Return lines.
Proof.
  unfold AddressBook.get_upcoming_birthdays. intros H.
  apply upcoming_loop_spec in H as (entries & -> & HF). simpl.
  induction HF as [|rec e recs es He _ [lines IH]]; [eexists; reflexivity|].
  destruct He as (b & bd & _ & _ & -> & _).
  cbn [Controller.birthday_lines]. unfold Controller.getitem.
  rewrite entry_name, entry_birthday, IH. eexists. reflexivity.
Qed.

Lemma book_values_Forall (P : Record.t -> Prop) (d : dict.t Record.t) :
  Forall P (dict.values d) <-> Forall (fun kv => P (snd kv)) d.
Proof. unfold dict.values. apply List.Forall_map. Qed.

Lemma dict_get_In (d : dict.t Record.t) (k : str) (v : Record.t) :
  dict.get d k = Some v -> In (k, v) d.
Proof.
  induction d as [|[k' v'] d IH]; simpl; [discriminate|].
  unfold str_eqb. case_bool_decide as E.
  - intros [= ->]. subst k'. left. reflexivity.
  - right. auto.
Qed.

Lemma book_step_ok (b b' : AddressBook.t) :
  book_step b b' -> book_ok b -> book_ok b'.
Proof.
  intros Hs (Hk & Hn & Hr).
  destruct Hs as [|name phone email record Hf Hi|name rec rec' Hf Hname Hok].
  - repeat split; assumption.
  - split; [apply add_record_keys_are_names; assumption|].
    split; [apply dict_setitem_NoDup; assumption|].
    apply book_values_Forall. apply book_values_Forall in Hr.
    apply dict_setitem_Forall; [exact Hr|].
    intros k0 _. simpl. eapply record_ok_init; eassumption.
  - apply dict_get_In in Hf.
    apply book_values_Forall in Hr.
    assert (name = value (Record.name rec) /\ record_ok rec) as [Hkey Hrec].
    { unfold keys_are_names, dict.items in Hk.
      rewrite List.Forall_forall in Hk, Hr.
      split; [apply (Hk _ Hf) | apply (Hr _ Hf)]. }
    split; [|split].
    + unfold keys_are_names, dict.items. simpl.
      apply dict_setitem_Forall; [exact Hk|].
      intros k0 ->. simpl. rewrite Hname. exact Hkey.
    + simpl. apply dict_setitem_NoDup. assumption.
    + apply book_values_Forall. simpl.
      apply dict_setitem_Forall; [exact Hr|].
      intros k0 _. simpl. auto.
Qed.

Section ControllerFacts.

Variable runtime_str : exn -> str.
Variable lower : str -> str.
Variable pickle_dumps : dict.t Record.t -> bytes.
Variable encodable : char -> bool.

Local Abbreviation input_error := (Controller.input_error runtime_str).
Local Abbreviation commands :=
  (Controller.commands runtime_str pickle_dumps encodable).
Local Abbreviation parse_input := (Controller.parse_input lower).
Local Abbreviation run_loop :=
  (Controller.run_loop runtime_str lower pickle_dumps encodable).
Local Abbreviation run :=
  (Controller.run runtime_str lower pickle_dumps encodable).

Lemma input_error_cases (body : list str -> Controller.action (option str))
    (today : date.t) (args : list str) (self : Controller.t) :
  body_cases body ->
  (exists m,
     body args self = (Controller.Raises (Controller.ValueError_ m), self)
     /\ input_error body today args self = (Controller.Return (Some m), self))
  \/ (exists m b',
        input_error body today args self
        = (Controller.Return None,
           Controller.mk b' (Controller.view self ++ [show_message m])
             (Controller.running self) (Controller.files self)
             (Controller.texts self))
        /\ book_step (Controller.book self) b').
Proof.
  intros H. unfold Controller.input_error.
  destruct (H args self) as [[m E]|(m & b' & E & Hs)]; rewrite E.
  - left. exists m. split; reflexivity.
  - right. exists m, b'. split; [reflexivity | exact Hs].
Qed.

Lemma commands_cases (cmd : str) (h : Controller.handler) :
  dict.get commands cmd = Some h ->
  (cmd = py "hello" /\ h = Controller.cmd_hello)
  \/ (cmd = py "add" /\ h = Controller.cmd_add runtime_str)
  \/ (cmd = py "change" /\ h = Controller.cmd_change runtime_str)
  \/ (cmd = py "phone" /\ h = Controller.cmd_phone runtime_str)
  \/ (cmd = py "all" /\ h = Controller.cmd_all)
  \/ (cmd = py "add-birthday" /\ h = Controller.cmd_add_birthday runtime_str)
  \/ (cmd = py "show-birthday" /\ h = Controller.cmd_show_birthday runtime_str)
  \/ (cmd = py "birthdays" /\ h = Controller.cmd_birthdays)
  \/ (cmd = py "export" /\ h = Controller.cmd_export encodable)
  \/ (cmd = py "help" /\ h = Controller.cmd_help)
  \/ (cmd = py "exit" /\ h = Controller.cmd_exit pickle_dumps)
  \/ (cmd = py "close" /\ h = Controller.cmd_exit pickle_dumps).
Proof.
  unfold Controller.commands. cbn [dict.get]. unfold str_eqb.
  repeat (case_bool_decide; [subst cmd; intros [= <-]; pick_disjunct|]).
  discriminate.
Qed.

(** What one command does to the controller. *)
Lemma handler_cases (cmd : str) (h : Controller.handler) (today : date.t)
    (args : list str) (self : Controller.t) :
  dict.get commands cmd = Some h ->
  (exists m, h today args self = (Controller.Return (Some m), self))
  \/ (exists c b' texts',
        h today args self
        = (Controller.Return None,
           Controller.mk b' (Controller.view self ++ [c])
             (Controller.running self) (Controller.files self) texts')
        /\ book_step (Controller.book self) b'
        /\ (b' = Controller.book self
            \/ cmd = py "add" \/ cmd = py "change" \/ cmd = py "add-birthday")
        /\ (texts' = Controller.texts self \/ cmd = py "export"))
  \/ ((cmd = py "exit" \/ cmd = py "close")
      /\ h today args self
         = (Controller.Return None,
            Controller.mk (Controller.book self)
              (Controller.view self ++ [show_message (py "Data saved. Bye!")])
              false
              (AddressBook.save pickle_dumps None (Controller.book self)
                 (Controller.files self))
              (Controller.texts self)))
  \/ (cmd = py "birthdays"
      /\ exists e,
           AddressBook.get_upcoming_birthdays today (Controller.book self)
           = Raise e
           /\ h today args self = (Controller.Raises (Controller.Std e), self))
  \/ (cmd = py "export"
      /\ exists texts',
           h today args self
           = (Controller.Raises Controller.UnicodeEncodeError,
              Controller.mk (Controller.book self) (Controller.view self)
                (Controller.running self) (Controller.files self) texts')).
Proof.
  intros Hget. apply commands_cases in Hget.
  assert (forall body,
            body_cases body ->
            (cmd = py "add" \/ cmd = py "change" \/ cmd = py "add-birthday"
             \/ forall a s b', book_step (Controller.book s) b' ->
                  (exists m, body a s
                               = (Controller.Return None,
                                  Controller.call (show_message m)
                                    (Controller.with_book s b'))) ->
                  b' = Controller.book s) ->
            h = input_error body ->
            (exists m, h today args self = (Controller.Return (Some m), self))
            \/ (exists c b' texts',
                  h today args self
                  = (Controller.Return None,
                     Controller.mk b' (Controller.view self ++ [c])
                       (Controller.running self) (Controller.files self) texts')
                  /\ book_step (Controller.book self) b'
                  /\ (b' = Controller.book self
                      \/ cmd = py "add" \/ cmd = py "change"
                      \/ cmd = py "add-birthday")
                  /\ (texts' = Controller.texts self \/ cmd = py "export")))
    as Hdec.
  { intros body Hb Hcmd ->.
    destruct (Hb args self) as [[m E]|(m & b' & E & Hs)].
    - left. exists m. unfold Controller.input_error. rewrite E. reflexivity.
    - right. exists (show_message m), b', (Controller.texts self).
      unfold Controller.input_error. rewrite E.
      split; [reflexivity|]. split; [exact Hs|]. split; [|left; reflexivity].
      destruct Hcmd as [?|[?|[?|Hsame]]]; auto.
      left. eapply Hsame; eauto. }
  assert (forall (r : Controller.outcome (option str) * Controller.t) c,
            r = (Controller.Return None, Controller.call c self) ->
            exists c b' texts',
              r = (Controller.Return None,
                   Controller.mk b' (Controller.view self ++ [c])
                     (Controller.running self) (Controller.files self) texts')
              /\ book_step (Controller.book self) b'
              /\ (b' = Controller.book self
                  \/ cmd = py "add" \/ cmd = py "change"
                  \/ cmd = py "add-birthday")
              /\ (texts' = Controller.texts self \/ cmd = py "export")) as Hcall.
  { intros r c E. exists c, (Controller.book self), (Controller.texts self).
    split; [exact E|]. split; [constructor|]. split; left; reflexivity. }
  destruct Hget as [[-> ->]|[[-> ->]|[[-> ->]|[[-> ->]|[[-> ->]|[[-> ->]
                   |[[-> ->]|[[-> ->]|[[-> ->]|[[-> ->]|[[-> ->]|[-> ->]]]]]]]]]]]].
  - right. left. eapply Hcall. reflexivity.
  - destruct (Hdec Controller.add_body add_body_cases) as [H|H]; auto.
  - destruct (Hdec Controller.change_body change_body_cases) as [H|H]; auto.
  - destruct (Hdec Controller.phone_body phone_body_cases) as [H|H]; auto.
    do 3 right. intros a s b' _ [m E]. revert E.
    destruct a as [|name [|? ?]]; try discriminate.
    unfold Controller.phone_body.
    destruct (AddressBook.find name (Controller.book s)) as [[n [|p ps] e b]|];
      try discriminate.
    unfold Controller.call, Controller.with_book. simpl. congruence.
  - right. left. eapply Hcall. reflexivity.
  - destruct (Hdec Controller.add_birthday_body add_birthday_body_cases)
      as [H|H]; auto.
  - destruct (Hdec Controller.show_birthday_body show_birthday_body_cases)
      as [H|H]; auto.
    do 3 right. intros a s b' _ [m E]. revert E.
    destruct a as [|name [|? ?]]; try discriminate.
    unfold Controller.show_birthday_body.
    destruct (AddressBook.find name (Controller.book s)) as [[n ps e [b|]]|];
      try discriminate.
    unfold Controller.call, Controller.with_book. simpl. congruence.
  - unfold Controller.cmd_birthdays.
    destruct (AddressBook.get_upcoming_birthdays today (Controller.book self))
      as [[|e es]|e] eqn:Hg.
    + right. left. eapply Hcall. reflexivity.
    + destruct (birthday_lines_returns _ _ _ Hg) as [lines ->].
      right. left. eapply Hcall. reflexivity.
    + do 3 right. left. split; [reflexivity|]. exists e. split; reflexivity.
  - unfold Controller.cmd_export.
    destruct (Book.export_to_csv encodable (py "contacts.csv")
                (Controller.book self) (Controller.texts self))
      as [[|] texts'].
    + right. left.
      exists (show_message (py "Contacts exported to contacts.csv")),
        (Controller.book self), texts'.
      split; [reflexivity|]. split; [constructor|].
      split; [left; reflexivity | right; reflexivity].
    + do 4 right. split; [reflexivity|]. exists texts'. reflexivity.
  - right. left. eapply Hcall. reflexivity.
  - right. right. left. split; [left; reflexivity | reflexivity].
  - right. right. left. split; [right; reflexivity | reflexivity].
Qed.

(** ** The loop of [run] *)

Lemma run_loop_stopped (inputs : list (str * date.t)) (self : Controller.t) :
  Controller.running self = false ->
  run_loop inputs self = (Controller.Return tt, self, inputs).
Proof. destruct inputs; simpl; intros ->; reflexivity. Qed.

Lemma run_loop_step (line : str) (today : date.t)
    (inputs : list (str * date.t)) (self : Controller.t) :
  Controller.running self = true ->
  run_loop ((line, today) :: inputs) self
  = match dict.get commands (fst (parse_input line)) with
    | Some handle =>
        match handle today (snd (parse_input line))
                (Controller.call (prompt (py "> ")) self) with
        | (Controller.Return _, self') => run_loop inputs self'
        | (Controller.Raises x, self') => (Controller.Raises x, self', inputs)
        end
    | None =>
        match Str.strip (fst (parse_input line)) with
        | [] => run_loop inputs (Controller.call (prompt (py "> ")) self)
        | _ =>
            run_loop inputs
              (Controller.call
                 (show_message (py "Unknown command. Type 'help' for options."))
                 (Controller.call (prompt (py "> ")) self))
        end
    end.
Proof.
  intros H. cbn [Controller.run_loop]. rewrite H.
  destruct (Controller.parse_input lower line) as [cmd args]. reflexivity.
Qed.

Lemma run_loop_book_ok (inputs : list (str * date.t)) (self : Controller.t) :
  book_ok (Controller.book self) ->
  book_ok (Controller.book (snd (fst (run_loop inputs self)))).
Proof.
  revert self. induction inputs as [|[line today] inputs IH]; intros self Hok;
    (destruct (Controller.running self) eqn:Hr;
     [|rewrite run_loop_stopped by assumption; exact Hok]).
  - simpl. rewrite Hr. exact Hok.
  - rewrite run_loop_step by assumption.
    destruct (dict.get commands (fst (parse_input line))) as [h|] eqn:Hget.
    + destruct (handler_cases _ _ today (snd (parse_input line))
                  (Controller.call (prompt (py "> ")) self) Hget)
        as [[m E]|[(c & b' & t' & E & Hs & _)|[[_ E]|[(_ & e & _ & E)|(_ & t2 & E)]]]];
        rewrite E.
      * apply IH. exact Hok.
      * apply IH. simpl. eapply book_step_ok; [exact Hs | exact Hok].
      * apply IH. exact Hok.
      * exact Hok.
      * exact Hok.
    + destruct (Str.strip _); apply IH; exact Hok.
Qed.

Lemma run_loop_returns (inputs : list (str * date.t))
    (self self' : Controller.t) (rest : list (str * date.t)) :
  Controller.running self = true ->
  run_loop inputs self = (Controller.Return tt, self', rest) ->
  Controller.running self' = false
  /\ Controller.files self' !! AddressBook.FILENAME
     = Some (pickle_dumps (AddressBook.data (Controller.book self')))
  /\ (exists shown,
        Controller.view self'
        = shown ++ [show_message (py "Data saved. Bye!")])
  /\ exists before line today,
       inputs = before ++ (line, today) :: rest
       /\ (fst (parse_input line) = py "exit"
           \/ fst (parse_input line) = py "close").
Proof.
  revert self. induction inputs as [|[line today] inputs IH]; intros self Hr H.
  - simpl in H. rewrite Hr in H. discriminate.
  - rewrite run_loop_step in H by assumption.
    assert (forall s, Controller.running s = true ->
                      run_loop inputs s = (Controller.Return tt, self', rest) ->
                      Controller.running self' = false
                      /\ Controller.files self' !! AddressBook.FILENAME
                         = Some (pickle_dumps
                                   (AddressBook.data (Controller.book self')))
                      /\ (exists shown,
                            Controller.view self'
                            = shown ++ [show_message (py "Data saved. Bye!")])
                      /\ exists before line0 today0,
                           (line, today) :: inputs
                           = before ++ (line0, today0) :: rest
                           /\ (fst (parse_input line0) = py "exit"
                               \/ fst (parse_input line0) = py "close"))
      as Hnext.
    { intros s Hs Hrun.
      destruct (IH s Hs Hrun) as (H1 & H2 & H3 & before & l & t & -> & Hc).
      split; [exact H1|]. split; [exact H2|]. split; [exact H3|].
      exists ((line, today) :: before), l, t. split; [reflexivity | exact Hc]. }
    destruct (dict.get commands (fst (parse_input line))) as [h|] eqn:Hget.
    + destruct (handler_cases _ _ today (snd (parse_input line))
                  (Controller.call (prompt (py "> ")) self) Hget)
        as [[m E]|[(c & b' & t' & E & _)|[[Hc E]|[(_ & e & _ & E)|(_ & t2 & E)]]]];
        rewrite E in H.
      * eapply Hnext; [|exact H]. exact Hr.
      * eapply Hnext; [|exact H]. exact Hr.
      * rewrite run_loop_stopped in H by reflexivity.
        injection H as <- <-.
        split; [reflexivity|].
        split; [unfold AddressBook.save, filesystem; simpl;
                apply lookup_insert_eq|].
        split; [eexists; reflexivity|].
        exists [], line, today. split; [reflexivity | exact Hc].
      * discriminate.
      * discriminate.
    + destruct (Str.strip _); (eapply Hnext; [|exact H]); exact Hr.
Qed.

Lemma run_loop_raises (inputs : list (str * date.t))
    (self self' : Controller.t) (x : Controller.raised)
    (rest : list (str * date.t)) :
  run_loop inputs self = (Controller.Raises x, self', rest) ->
  Controller.files self' = Controller.files self
  /\ Controller.running self' = true
  /\ ((x = Controller.Std (Exn EOFError None) /\ rest = [])
      \/ exists before line today,
           inputs = before ++ (line, today) :: rest
           /\ ((fst (parse_input line) = py "birthdays"
                /\ exists e,
                     x = Controller.Std e
                     /\ AddressBook.get_upcoming_birthdays today
                          (Controller.book self')
                        = Raise e)
               \/ (fst (parse_input line) = py "export"
                   /\ x = Controller.UnicodeEncodeError))).
Proof.
  revert self. induction inputs as [|[line today] inputs IH]; intros self H;
    (destruct (Controller.running self) eqn:Hr;
     [|rewrite run_loop_stopped in H by assumption; discriminate]).
  - simpl in H. rewrite Hr in H. injection H as <- <- <-.
    split; [reflexivity|]. split; [exact Hr|]. left. split; reflexivity.
  - rewrite run_loop_step in H by assumption.
    assert (forall s, Controller.files s = Controller.files self ->
                      run_loop inputs s = (Controller.Raises x, self', rest) ->
                      Controller.files self' = Controller.files self
                      /\ Controller.running self' = true
                      /\ ((x = Controller.Std (Exn EOFError None) /\ rest = [])
                          \/ exists before line0 today0,
                               (line, today) :: inputs
                               = before ++ (line0, today0) :: rest
                               /\ ((fst (parse_input line0) = py "birthdays"
                                    /\ exists e,
                                         x = Controller.Std e
                                         /\ AddressBook.get_upcoming_birthdays
                                              today0 (Controller.book self')
                                            = Raise e)
                                   \/ (fst (parse_input line0) = py "export"
                                       /\ x = Controller.UnicodeEncodeError))))
      as Hnext.
    { intros s Hs Hrun.
      destruct (IH s Hrun) as (H1 & H2 & H3).
      split; [congruence|]. split; [exact H2|].
      destruct H3 as [H3|(before & l & t & -> & Hc)]; [left; exact H3|].
      right. exists ((line, today) :: before), l, t.
      split; [reflexivity | exact Hc]. }
    destruct (dict.get commands (fst (parse_input line))) as [h|] eqn:Hget.
    + destruct (handler_cases _ _ today (snd (parse_input line))
                  (Controller.call (prompt (py "> ")) self) Hget)
        as [[m E]|[(c & b' & t' & E & _)|[[Hc E]|[(Hc & e & Hg & E)|(Hc & t2 & E)]]]];
        rewrite E in H.
      * eapply Hnext; [|exact H]. reflexivity.
      * eapply Hnext; [|exact H]. reflexivity.
      * rewrite run_loop_stopped in H by reflexivity. discriminate.
      * injection H as <- <- <-.
        split; [reflexivity|]. split; [exact Hr|].
        right. exists [], line, today. split; [reflexivity|].
        left. split; [exact Hc|]. exists e. split; [reflexivity | exact Hg].
      * injection H as <- <- <-.
        split; [reflexivity|]. split; [exact Hr|].
        right. exists [], line, today. split; [reflexivity|].
        right. split; [exact Hc | reflexivity].
    + destruct (Str.strip _); (eapply Hnext; [|exact H]); reflexivity.
Qed.

(** X16: a line made of a command word and argument words, separated by
    white space and with any white space before and after, is parsed into
    the command word in lower case and the argument words as they are; a
    line of white space only is parsed into the empty command. *)
Theorem parse_input_words (pad1 pad2 sep w : str) (args : list str) :
  Forall (fun c => isspace_char c = true) pad1 ->
  Forall (fun c => isspace_char c = true) pad2 ->
  sep <> [] -> Forall (fun c => isspace_char c = true) sep ->
  word w -> Forall word args ->
  parse_input (pad1 ++ Str.join sep (w :: args) ++ pad2) = (lower w, args)
  /\ parse_input pad1 = ([], []).
Proof.
  intros H1 H2 Hne Hsep Hw Hargs. unfold Controller.parse_input.
  rewrite !split_strip. unfold Str.split.
  rewrite split_from_spaces_app, split_from_app_spaces by assumption.
  fold (Str.split (Str.join sep (w :: args))).
  rewrite split_join by (try assumption; constructor; assumption).
  rewrite split_from_spaces by assumption. split; reflexivity.
Qed.

(** X17: a decorated command ([add], [change], [phone], [add-birthday],
    [show-birthday]) either fails or succeeds. When it fails, its body has
    raised a [ValueError] with a message, never another exception, so only
    the first handler of [input_error] ever runs; the command returns the
    message, and the controller, its book and its view are as before. When
    it succeeds it returns [None], the view has received exactly one
    message, and the flag and the files are as before. *)
Theorem decorated_command_outcome
    (body : list str -> Controller.action (option str)) (today : date.t)
    (args : list str) (self : Controller.t) :
  In body [Controller.add_body; Controller.change_body; Controller.phone_body;
           Controller.add_birthday_body; Controller.show_birthday_body] ->
  (exists m,
     body args self = (Controller.Raises (Controller.ValueError_ m), self)
     /\ input_error body today args self = (Controller.Return (Some m), self))
  \/ (exists m self',
        input_error body today args self = (Controller.Return None, self')
        /\ Controller.view self' = Controller.view self ++ [show_message m]
        /\ Controller.running self' = Controller.running self
        /\ Controller.files self' = Controller.files self
        /\ Controller.texts self' = Controller.texts self).
Proof.
  intros Hin.
  assert (body_cases body) as Hb.
  { simpl in Hin.
    destruct Hin as [<-|[<-|[<-|[<-|[<-|[]]]]]];
      auto using add_body_cases, change_body_cases, phone_body_cases,
        add_birthday_body_cases, show_birthday_body_cases. }
  destruct (input_error_cases body today args self Hb)
    as [(m & E1 & E2)|(m & b' & E & _)].
  - left. exists m. split; assumption.
  - right. eexists m, _. split; [exact E|]. repeat split; reflexivity.
Qed.

(** X18: [add] with a valid phone, for a name that the book has, appends
    the phone to the record found, replaces its email only when one is
    given, keeps its birthday and its place in the book, and shows
    [Contact updated.]; for a name that the book does not have, it puts a
    new record with that one phone last in the book and shows
    [Contact added.]. Every other name is left as it was. *)
Theorem cmd_add_merges (today : date.t) (name phone : str) (rest : list str)
    (self : Controller.t) (p : Phone) :
  Phone.init phone = Ok p ->
  let email := match rest with e :: _ => e | [] => [] end in
  exists self',
    Controller.cmd_add runtime_str today (name :: phone :: rest) self
    = (Controller.Return None, self')
    /\ (forall other, other <> name ->
          AddressBook.find other (Controller.book self')
          = AddressBook.find other (Controller.book self))
    /\ match AddressBook.find name (Controller.book self) with
       | Some rec =>
           AddressBook.find name (Controller.book self')
           = Some (Record.mk (Record.name rec) (Record.phones rec ++ [p])
                     (match email with [] => Record.email rec | _ => email end)
                     (Record.birthday rec))
           /\ dict.keys (AddressBook.data (Controller.book self'))
              = dict.keys (AddressBook.data (Controller.book self))
           /\ Controller.view self'
              = Controller.view self ++ [show_message (py "Contact updated.")]
       | None =>
           AddressBook.find name (Controller.book self')
           = Some (Record.mk (mkField name) [p] email None)
           /\ dict.keys (AddressBook.data (Controller.book self'))
              = dict.keys (AddressBook.data (Controller.book self)) ++ [name]
           /\ Controller.view self'
              = Controller.view self ++ [show_message (py "Contact added.")]
       end.
Proof.
  intros Hp email.
  assert (phone <> []) as Hne by (intros ->; vm_compute in Hp; discriminate).
  unfold Controller.cmd_add, Controller.input_error, Controller.add_body.
  fold email.
  destruct (AddressBook.find name (Controller.book self)) as [rec|] eqn:Hf.
  - unfold Record.add_phone. rewrite Hp. eexists. split; [reflexivity|].
    unfold AddressBook.find in *. simpl.
    split; [intros other Ho; apply dict_get_setitem_ne; assumption|].
    split; [rewrite dict_get_setitem_eq; destruct email; reflexivity|].
    split; [|reflexivity].
    apply dict_keys_setitem_existing. rewrite Hf. eexists. reflexivity.
  - unfold Record.init, Record.add_phone.
    destruct phone as [|c s]; [congruence|]. rewrite Hp.
    eexists. split; [reflexivity|].
    unfold AddressBook.find, AddressBook.add_record in *. simpl.
    split; [intros other Ho; apply dict_get_setitem_ne; assumption|].
    split; [apply dict_get_setitem_eq|].
    split; [|reflexivity].
    rewrite dict_setitem_new by assumption.
    unfold dict.keys. rewrite map_app. reflexivity.
Qed.

(** X19: every record of the book keeps its invariant through a whole run
    of the controller, whatever is typed: the keys are the names of the
    records and are unique, every phone is 10 or 12 digits, and every
    birthday reads as a date. *)
Theorem run_keeps_book_ok (inputs : list (str * date.t))
    (self : Controller.t) :
  book_ok (Controller.book self) ->
  book_ok (Controller.book (snd (fst (run inputs self)))).
Proof. intros H. unfold Controller.run. apply run_loop_book_ok. exact H. Qed.

(** X20: when [run] returns, the last line read had the command [exit] or
    [close] and no line after it has been read; the snapshot file holds the
    dump of the book as it is at the end, the last call on the view is the
    message [Data saved. Bye!], and the flag is off. *)
Theorem run_returns_saved (inputs : list (str * date.t))
    (self self' : Controller.t) (rest : list (str * date.t)) :
  Controller.running self = true ->
  run inputs self = (Controller.Return tt, self', rest) ->
  Controller.running self' = false
  /\ Controller.files self' !! py "addressbook.pkl"
     = Some (pickle_dumps (AddressBook.data (Controller.book self')))
  /\ (exists shown,
        Controller.view self'
        = shown ++ [show_message (py "Data saved. Bye!")])
  /\ exists before line today,
       inputs = before ++ (line, today) :: rest
       /\ (fst (parse_input line) = py "exit"
           \/ fst (parse_input line) = py "close").
Proof.
  intros Hr H. unfold Controller.run in H.
  apply run_loop_returns in H; [exact H | exact Hr].
Qed.

(** X21: when [run] ends by an exception right after reading a line whose
    command is not [exit] or [close], nothing has been written to the
    files, so what was changed in the book during the session is not
    saved. The exception is never a [KeyError]: either it is the [EOFError]
    of the prompt, the input having come to its end, or the line read has
    the command [birthdays], which is not decorated, and the exception is
    the one that [get_upcoming_birthdays] raises on the book, or the line
    read has the command [export], which is not decorated either. The
    commands [exit] and [close] are left aside because their write to the
    files is taken to succeed here. *)
Theorem run_raises_unsaved (before : list (str * date.t)) (line : str)
    (today : date.t) (rest : list (str * date.t))
    (self self' : Controller.t) (x : Controller.raised) :
  run (before ++ (line, today) :: rest) self
  = (Controller.Raises x, self', rest) ->
  fst (parse_input line) <> py "exit" ->
  fst (parse_input line) <> py "close" ->
  Controller.files self' = Controller.files self
  /\ (forall key, x <> Controller.KeyError key)
  /\ ((x = Controller.Std (Exn EOFError None) /\ rest = [])
      \/ (fst (parse_input line) = py "birthdays"
          /\ exists e,
               x = Controller.Std e
               /\ AddressBook.get_upcoming_birthdays today
                    (Controller.book self')
                  = Raise e)
      \/ fst (parse_input line) = py "export").
Proof.
  intros H _ _. unfold Controller.run in H.
  apply run_loop_raises in H as (Hf & _ & Hx).
  split; [exact Hf|].
  assert (forall before' line' today',
            before ++ (line, today) :: rest = before' ++ (line', today') :: rest ->
            line' = line /\ today' = today) as Hsame.
  { intros before' line' today' E.
    change (before ++ (line, today) :: rest)
      with (before ++ [(line, today)] ++ rest) in E.
    change (before' ++ (line', today') :: rest)
      with (before' ++ [(line', today')] ++ rest) in E.
    rewrite !app_assoc in E. apply app_inv_tail in E.
    apply app_inj_tail in E as [_ [= -> ->]]. split; reflexivity. }
  split.
  - intros key ->.
    destruct Hx as [[Hx _]|(? & ? & ? & _ & [(_ & ? & Hx & _)|[_ Hx]])];
      discriminate.
  - destruct Hx as [Hx|(before' & line' & today' & E & Hc)]; [left; exact Hx|].
    apply Hsame in E as [-> ->].
    destruct Hc as [Hc|[Hc _]]; [right; left; exact Hc | right; right; exact Hc].
Qed.

(** X22: what each command leaves alone. Only [add], [change] and
    [add-birthday] can change the book; only [exit] and [close] write to
    the files or end the loop; only [export] writes a text file; and every
    command makes at most one call on the view. *)
Theorem commands_footprint (cmd : str) (h : Controller.handler)
    (today : date.t) (args : list str) (self : Controller.t) :
  dict.get commands cmd = Some h ->
  let self' := snd (h today args self) in
  (cmd <> py "add" -> cmd <> py "change" -> cmd <> py "add-birthday" ->
   Controller.book self' = Controller.book self)
  /\ (cmd <> py "exit" -> cmd <> py "close" ->
      Controller.files self' = Controller.files self
      /\ Controller.running self' = Controller.running self)
  /\ (cmd <> py "export" -> Controller.texts self' = Controller.texts self)
  /\ exists calls,
       Controller.view self' = Controller.view self ++ calls
       /\ (length calls <= 1)%nat.
Proof.
  intros Hget self'. subst self'.
  destruct (handler_cases _ _ today args self Hget)
    as [[m E]|[(c & b' & t' & E & _ & Hb & Ht)|[[Hc E]|[(_ & e & _ & E)|(Hc & t2 & E)]]]];
    rewrite E; simpl.
  - split; [reflexivity|]. split; [split; reflexivity|].
    split; [reflexivity|]. exists []. rewrite app_nil_r. split; [reflexivity | simpl; lia].
  - split; [intros; destruct Hb as [?|[?|[?|?]]]; congruence|].
    split; [split; reflexivity|].
    split; [intros; destruct Ht; congruence|].
    exists [c]. split; [reflexivity | simpl; lia].
  - split; [reflexivity|].
    split; [intros; destruct Hc; congruence|].
    split; [reflexivity|]. eexists [_]. split; [reflexivity | simpl; lia].
  - split; [reflexivity|]. split; [split; reflexivity|].
    split; [reflexivity|]. exists []. rewrite app_nil_r. split; [reflexivity | simpl; lia].
  - split; [reflexivity|]. split; [split; reflexivity|].
    split; [intros; congruence|].
    exists []. rewrite app_nil_r. split; [reflexivity | simpl; lia].
Qed.

(** X23: in the loop of [run], the message that a failing command returns
    is dropped: after the prompt the view receives nothing, and the loop
    goes on with the next line as if the line had been blank. A blank line
    is skipped in the same way. *)
Theorem failed_command_shows_nothing (line : str) (today : date.t)
    (inputs : list (str * date.t)) (self : Controller.t) :
  Controller.running self = true ->
  ((exists h m,
      dict.get commands (fst (parse_input line)) = Some h
      /\ fst (h today (snd (parse_input line))
                (Controller.call (prompt (py "> ")) self))
         = Controller.Return (Some m))
   \/ Forall (fun c => isspace_char c = true) line) ->
  run_loop ((line, today) :: inputs) self
  = run_loop inputs (Controller.call (prompt (py "> ")) self).
Proof.
  intros Hr H. rewrite run_loop_step by assumption.
  destruct H as [(h & m & Hget & Hm)|Hblank].
  - rewrite Hget.
    destruct (handler_cases _ _ today (snd (parse_input line))
                (Controller.call (prompt (py "> ")) self) Hget)
      as [[m' E]|[(c & b' & t' & E & _)|[[_ E]|[(_ & e & _ & E)|(_ & t2 & E)]]]];
      rewrite E in *; [reflexivity | discriminate..].
  - assert (parse_input line = ([], [])) as ->.
    { unfold Controller.parse_input. rewrite split_strip.
      unfold Str.split. rewrite split_from_spaces by assumption. reflexivity. }
    reflexivity.
Qed.

Section Sessions.

Variable unpickle : bytes -> result (dict.t Record.t).

Local Abbreviation main :=
  (Controller.main runtime_str lower pickle_dumps encodable unpickle).

(** [pickle]'s contract: what was dumped is what is loaded. *)
Hypothesis pickle_roundtrip :
  forall d, AddressBook.pickle_load unpickle (pickle_dumps d) = Ok d.

(** X24: a session of [main] that ends by returning can be resumed: the
    next [main] on the files it leaves runs on the book as it was at the
    end of that session. A [main] that finds no snapshot runs on an empty
    book. *)
Theorem main_resumes (inputs1 inputs2 : list (str * date.t))
    (fs : filesystem) (texts1 texts2 : Book.textfiles) (self1 : Controller.t)
    (rest : list (str * date.t)) :
  main inputs1 fs texts1 = (Controller.Return tt, self1, rest) ->
  main inputs2 (Controller.files self1) texts2
  = run inputs2
      (Controller.init (Controller.book self1) (Controller.files self1) texts2)
  /\ (fs !! py "addressbook.pkl" = None ->
      main inputs1 fs texts1
      = run inputs1 (Controller.init AddressBook.init fs texts1)).
Proof.
  intros H. split.
  - unfold Controller.main in H.
    destruct (AddressBook.load unpickle None AddressBook.init fs)
      as [[[]|e] model]; [|discriminate].
    unfold Controller.run in H.
    apply run_loop_returns in H as (_ & Hfile & _); [|reflexivity].
    unfold Controller.main. rewrite load_spec.
    change (AddressBook.filename_or_default None) with AddressBook.FILENAME.
    rewrite Hfile, pickle_roundtrip.
    destruct (Controller.book self1). reflexivity.
  - intros Hnone. unfold Controller.main.
    rewrite load_missing by exact Hnone. reflexivity.
Qed.

End Sessions.

End ControllerFacts.

(** ** The controller on concrete lines *)

Lemma parse_input_words_witness :
  Controller.parse_input ascii_lower
    (py "  " ++ Str.join [32; 9]%N [py "ADD"; py "Ann"; py "0501234567"]
     ++ py " ")
  = (ascii_lower (py "ADD"), [py "Ann"; py "0501234567"])
  /\ Controller.parse_input ascii_lower (py "  ") = ([], []).
Proof.
  apply (parse_input_words ascii_lower (py "  ") (py " ") [32; 9]%N (py "ADD")
           [py "Ann"; py "0501234567"]).
  - repeat constructor.
  - repeat constructor.
  - discriminate.
  - repeat constructor.
  - split; [discriminate | repeat constructor].
  - repeat constructor; discriminate.
Defined.

Lemma decorated_command_outcome_witness :
  let today := date.mk 2024 6 10 in
  let self := Controller.init AddressBook.init ∅ ∅ in
  let args := [py "Ann"; py "12345"] in
  (exists m,
     Controller.add_body args self
     = (Controller.Raises (Controller.ValueError_ m), self)
     /\ Controller.input_error no_wording Controller.add_body today args self
        = (Controller.Return (Some m), self))
  \/ (exists m self',
        Controller.input_error no_wording Controller.add_body today args self
        = (Controller.Return None, self')
        /\ Controller.view self' = Controller.view self ++ [show_message m]
        /\ Controller.running self' = Controller.running self
        /\ Controller.files self' = Controller.files self
        /\ Controller.texts self' = Controller.texts self).
Proof.
  intros today self args.
  apply (decorated_command_outcome no_wording Controller.add_body today args
           self).
  simpl. left. reflexivity.
Defined.

Lemma cmd_add_merges_witness :
  let today := date.mk 2024 6 10 in
  let self := Controller.init AddressBook.init ∅ ∅ in
  exists self',
    Controller.cmd_add no_wording today [py "Ann"; py "050 123-45-67"] self
    = (Controller.Return None, self')
    /\ (forall other, other <> py "Ann" ->
          AddressBook.find other (Controller.book self')
          = AddressBook.find other (Controller.book self))
    /\ (AddressBook.find (py "Ann") (Controller.book self')
        = Some (Record.mk (mkField (py "Ann")) [mkField (py "0501234567")] []
                  None)
        /\ dict.keys (AddressBook.data (Controller.book self'))
           = [] ++ [py "Ann"]
        /\ Controller.view self' = [] ++ [show_message (py "Contact added.")]).
Proof.
  intros today self.
  apply (cmd_add_merges no_wording today (py "Ann") (py "050 123-45-67") []
           self (mkField (py "0501234567"))).
  vm_compute. reflexivity.
Defined.

Lemma run_keeps_book_ok_witness :
  let today := date.mk 2024 6 10 in
  book_ok
    (Controller.book
       (snd (fst (Controller.run no_wording ascii_lower unary_dumps utf8
                    [(py "add Ann 0501234567", today);
                     (py "add-birthday Ann 1.6.1990", today)]
                    (Controller.init AddressBook.init ∅ ∅))))).
Proof.
  intros today.
  apply (run_keeps_book_ok no_wording ascii_lower unary_dumps utf8).
  split; [constructor|]. split; constructor.
Defined.

Lemma run_returns_saved_witness :
  let today := date.mk 2024 6 10 in
  let self := Controller.init AddressBook.init ∅ ∅ in
  let inputs := [(py "Exit", today); (py "hello", today)] in
  let self' :=
    snd (fst (Controller.run no_wording ascii_lower unary_dumps utf8 inputs
                self)) in
  Controller.running self' = false
  /\ Controller.files self' !! py "addressbook.pkl"
     = Some (unary_dumps (AddressBook.data (Controller.book self')))
  /\ (exists shown,
        Controller.view self'
        = shown ++ [show_message (py "Data saved. Bye!")])
  /\ exists before line day,
       inputs = before ++ (line, day) :: [(py "hello", today)]
       /\ (fst (Controller.parse_input ascii_lower line) = py "exit"
           \/ fst (Controller.parse_input ascii_lower line) = py "close").
Proof.
  intros today self inputs self'.
  apply (run_returns_saved no_wording ascii_lower unary_dumps utf8 inputs self
           self' [(py "hello", today)]).
  - reflexivity.
  - vm_compute. reflexivity.
Defined.

Lemma run_raises_unsaved_witness :
  let today := date.mk 2023 2 25 in
  let eve := Record.mk (Name.init (py "Eve")) [] []
               (Some (mkField (py "29.02.2000"))) in
  let self := Controller.init (book_after [call_add_record eve]) ∅ ∅ in
  let line := py "birthdays" in
  let rest := [(py "exit", today)] in
  let self' :=
    snd (fst (Controller.run no_wording ascii_lower unary_dumps utf8
                ((py "add Eve 0501234567", today) :: (line, today) :: rest)
                self)) in
  let x := Controller.Std (Exn ValueError None) in
  Controller.files self' = Controller.files self
  /\ (forall key, x <> Controller.KeyError key)
  /\ ((x = Controller.Std (Exn EOFError None) /\ rest = [])
      \/ (fst (Controller.parse_input ascii_lower line) = py "birthdays"
          /\ exists e,
               x = Controller.Std e
               /\ AddressBook.get_upcoming_birthdays today
                    (Controller.book self')
                  = Raise e)
      \/ fst (Controller.parse_input ascii_lower line) = py "export").
Proof.
  intros today eve self line rest self' x.
  apply (run_raises_unsaved no_wording ascii_lower unary_dumps utf8
           [(py "add Eve 0501234567", today)] line today rest self self' x).
  - vm_compute. reflexivity.
  - vm_compute. discriminate.
  - vm_compute. discriminate.
Defined.

Lemma commands_footprint_witness :
  let today := date.mk 2024 6 10 in
  let self := Controller.init AddressBook.init ∅ ∅ in
  let cmd := py "export" in
  let self' := snd (Controller.cmd_export utf8 today [] self) in
  (cmd <> py "add" -> cmd <> py "change" -> cmd <> py "add-birthday" ->
   Controller.book self' = Controller.book self)
  /\ (cmd <> py "exit" -> cmd <> py "close" ->
      Controller.files self' = Controller.files self
      /\ Controller.running self' = Controller.running self)
  /\ (cmd <> py "export" -> Controller.texts self' = Controller.texts self)
  /\ exists calls,
       Controller.view self' = Controller.view self ++ calls
       /\ (length calls <= 1)%nat.
Proof.
  intros today self cmd self'.
  apply (commands_footprint no_wording unary_dumps utf8 cmd
           (Controller.cmd_export utf8)
           today [] self).
  reflexivity.
Defined.

Lemma failed_command_shows_nothing_witness :
  let today := date.mk 2024 6 10 in
  let self := Controller.init AddressBook.init ∅ ∅ in
  Controller.run_loop no_wording ascii_lower unary_dumps utf8
    [(py "add Ann 12345", today); (py "all", today)] self
  = Controller.run_loop no_wording ascii_lower unary_dumps utf8
      [(py "all", today)] (Controller.call (prompt (py "> ")) self).
Proof.
  intros today self.
  apply (failed_command_shows_nothing no_wording ascii_lower unary_dumps utf8
           (py "add Ann 12345") today [(py "all", today)] self).
  - reflexivity.
  - left. exists (Controller.cmd_add no_wording).
    exists (py "Phone number must contain 10" ++ [8211%N]
            ++ py "12 digits (with optional '+' prefix).").
    split; [reflexivity | vm_compute; reflexivity].
Defined.

Lemma main_resumes_witness :
  let today := date.mk 2024 6 10 in
  let session1 := [(py "help", today); (py "close", today)] in
  let session2 := [(py "all", today)] in
  let self1 :=
    snd (fst (Controller.main no_wording ascii_lower unary_dumps utf8
                unary_unpickle session1 ∅ ∅)) in
  Controller.main no_wording ascii_lower unary_dumps utf8 unary_unpickle
    session2 (Controller.files self1) ∅
  = Controller.run no_wording ascii_lower unary_dumps utf8 session2
      (Controller.init (Controller.book self1) (Controller.files self1) ∅)
  /\ ((∅ : filesystem) !! py "addressbook.pkl" = None ->
      Controller.main no_wording ascii_lower unary_dumps utf8 unary_unpickle
        session1 ∅ ∅
      = Controller.run no_wording ascii_lower unary_dumps utf8 session1
          (Controller.init AddressBook.init ∅ ∅)).
Proof.
  intros today session1 session2 self1.
  apply (main_resumes no_wording ascii_lower unary_dumps utf8 unary_unpickle
           unary_roundtrip session1 session2 ∅ ∅ ∅ self1 []).
  vm_compute. reflexivity.
Defined.

(** ** src/main.py *)

Lemma contact_getitem (n p : str) :
  Controller.getitem (Main.contact n p) (py "name") = Controller.Return n
  /\ Controller.getitem (Main.contact n p) (py "phone") = Controller.Return p.
Proof. split; vm_compute; reflexivity. Qed.

Lemma display_lines_pairs (pairs : list (str * str)) :
  forall out,
    Main.display_lines (map (fun np => Main.contact (fst np) (snd np)) pairs) out
    = (Controller.Return tt,
       out ++ map (fun np =>
                     Main.print
                       ([1030; 1084; 39; 1103; 58; 32]%N ++ fst np
                        ++ [44; 32; 1058; 1077; 1083; 1077; 1092; 1086; 1085;
                            58; 32]%N ++ snd np))
                pairs).
Proof.
  induction pairs as [|[n p] pairs IH]; intros out; cbn [map Main.display_lines fst snd].
  - rewrite app_nil_r. reflexivity.
  - destruct (contact_getitem n p) as [-> ->].
    rewrite IH, <- app_assoc. reflexivity.
Qed.

(** X25: [display_contacts] on contacts that each have a name and a phone
    never raises [KeyError]: it prints the header and then one line per
    contact, in the order of the list. *)
Theorem display_contacts_prints (pairs : list (str * str))
    (out : list Main.console) :
  Main.display_contacts
    (map (fun np => Main.contact (fst np) (snd np)) pairs) out
  = (Controller.Return tt,
     out ++ Main.print Main.contacts_header
         :: map (fun np =>
                   Main.print
                     ([1030; 1084; 39; 1103; 58; 32]%N ++ fst np
                      ++ [44; 32; 1058; 1077; 1083; 1077; 1092; 1086; 1085;
                          58; 32]%N ++ snd np))
              pairs).
Proof.
  unfold Main.display_contacts. rewrite display_lines_pairs, <- app_assoc.
  reflexivity.
Qed.

Lemma display_contacts_ok (pairs : list (str * str)) (out : list Main.console) :
  exists out',
    Main.display_contacts
      (map (fun np => Main.contact (fst np) (snd np)) pairs) out
    = (Controller.Return tt, out').
Proof.
  unfold Main.display_contacts. rewrite display_lines_pairs.
  eexists. reflexivity.
Qed.

Lemma main_loop_spec (n : nat) :
  forall (inputs : list str) (pairs : list (str * str))
         (out : list Main.console) o contacts out' rest,
    (length inputs <= n)%nat ->
    Main.loop inputs (map (fun np => Main.contact (fst np) (snd np)) pairs) out
    = (o, contacts, out', rest) ->
    exists before added,
      typed before added
      /\ contacts
         = map (fun np => Main.contact (fst np) (snd np)) (pairs ++ added)
      /\ ((o = Controller.Return tt /\ inputs = before ++ py "exit" :: rest)
          \/ (o = Controller.Raises (Controller.Std (Exn EOFError None))
              /\ rest = []
              /\ (inputs = before \/ inputs = before ++ [py "add"]
                  \/ exists name, inputs = before ++ [py "add"; name]))).
Proof.
  induction n as [|n IH]; intros inputs pairs out o contacts out' rest Hlen H.
  - destruct inputs; [|simpl in Hlen; lia].
    cbn [Main.loop] in H. injection H as <- <- <- <-.
    exists [], []. split; [constructor|].
    split; [rewrite app_nil_r; reflexivity|]. right. auto.
  - destruct inputs as [|command inputs].
    { cbn [Main.loop] in H. injection H as <- <- <- <-.
      exists [], []. split; [constructor|].
      split; [rewrite app_nil_r; reflexivity|]. right. auto. }
    simpl in Hlen. cbn [Main.loop] in H.
    unfold str_eqb in H.
    destruct (bool_decide (command = py "list")) eqn:Hlist.
    { apply bool_decide_eq_true in Hlist as ->.
      destruct (display_contacts_ok pairs
                  (Main.display_help out ++ [Main.input Main.prompt_command]))
        as [out1 E].
      rewrite E in H.
      apply IH in H as (before & added & Ht & -> & Ho); [|lia].
      exists (py "list" :: before), added.
      split; [constructor; exact Ht|]. split; [reflexivity|].
      destruct Ho as [[-> ->]|(-> & -> & Hi)]; [left; split; reflexivity|].
      right. split; [reflexivity|]. split; [reflexivity|].
      destruct Hi as [->|[->|[name ->]]]; eauto. }
    apply bool_decide_eq_false in Hlist.
    destruct (bool_decide (command = py "add")) eqn:Hadd.
    { apply bool_decide_eq_true in Hadd as ->.
      destruct inputs as [|name [|phone inputs']].
      - injection H as <- <- <- <-.
        exists [], []. split; [constructor|].
        split; [rewrite app_nil_r; reflexivity|]. right. auto.
      - injection H as <- <- <- <-.
        exists [], []. split; [constructor|].
        split; [rewrite app_nil_r; reflexivity|].
        right. split; [reflexivity|]. split; [reflexivity|].
        right. right. exists name. reflexivity.
      - assert (map (fun np => Main.contact (fst np) (snd np)) pairs
                ++ [Main.contact name phone]
                = map (fun np => Main.contact (fst np) (snd np))
                    (pairs ++ [(name, phone)])) as Em
          by (rewrite map_app; reflexivity).
        rewrite Em in H.
        apply IH in H as (before & added & Ht & -> & Ho);
          [|simpl in Hlen; lia].
        exists (py "add" :: name :: phone :: before), ((name, phone) :: added).
        split; [constructor; exact Ht|].
        split; [rewrite <- app_assoc; reflexivity|].
        destruct Ho as [[-> ->]|(-> & -> & Hi)]; [left; split; reflexivity|].
        right. split; [reflexivity|]. split; [reflexivity|].
        destruct Hi as [->|[->|[name0 ->]]]; eauto. }
    apply bool_decide_eq_false in Hadd.
    destruct (bool_decide (command = py "exit")) eqn:Hexit.
    { apply bool_decide_eq_true in Hexit as ->.
      injection H as <- <- <- <-.
      exists [], []. split; [constructor|].
      split; [rewrite app_nil_r; reflexivity|]. left. split; reflexivity. }
    apply bool_decide_eq_false in Hexit.
    apply IH in H as (before & added & Ht & -> & Ho); [|lia].
    exists (command :: before), added.
    split; [apply typed_other; assumption|]. split; [reflexivity|].
    destruct Ho as [[-> ->]|(-> & -> & Hi)]; [left; split; reflexivity|].
    right. split; [reflexivity|]. split; [reflexivity|].
    destruct Hi as [->|[->|[name ->]]]; eauto.
Qed.

(** X26: the script of src/main.py never checks what is typed and never
    removes a contact. The lines read split into whole turns of the loop
    and an end: a turn is a line [list], a line that is no command, or a
    line [add] with the two lines after it, taken as a name and a phone
    whatever they are. At the end the list holds the two contacts the
    script starts with, followed by exactly the names and phones of the
    [add] turns, in the order typed. The end is a line [exit], after which
    nothing is read and the script returns, or the [EOFError] of [input]
    when the lines run out, at a command or inside an [add]. The script
    never ends by a [KeyError]. *)
Theorem main_outcome (inputs : list str) :
  let '(o, contacts, _, rest) := Main.main inputs in
  exists before added,
    typed before added
    /\ contacts
       = Main.contacts0
         ++ map (fun np => Main.contact (fst np) (snd np)) added
    /\ ((o = Controller.Return tt /\ inputs = before ++ py "exit" :: rest)
        \/ (o = Controller.Raises (Controller.Std (Exn EOFError None))
            /\ rest = []
            /\ (inputs = before \/ inputs = before ++ [py "add"]
                \/ exists name, inputs = before ++ [py "add"; name]))).
Proof.
  destruct (Main.main inputs) as [[[o contacts] out] rest] eqn:H.
  unfold Main.main in H.
  change Main.contacts0
    with (map (fun np => Main.contact (fst np) (snd np))
            [([1030; 1074; 1072; 1085]%N, py "123-456");
             ([1052; 1072; 1088; 1110; 1103]%N, py "987-654")]) in *.
  apply (main_loop_spec (length inputs)) in H
    as (before & added & Ht & -> & Ho); [|lia].
  exists before, added. split; [exact Ht|]. split; [|exact Ho].
  rewrite map_app. reflexivity.
Qed.

(** A session of the script. *)
Example main_example :
  let '(o, contacts, _, rest) :=
    Main.main [py "add"; py "exit"; py "12"; py "what"; py "list";
               py "exit"; py "add"] in
  o = Controller.Return tt
  /\ contacts = Main.contacts0 ++ [Main.contact (py "exit") (py "12")]
  /\ rest = [py "add"].
Proof. vm_compute. repeat split; reflexivity. Qed.
